(** * QuickBooks Online client: the request execution pipeline

    A shallow embedding of [src/errors.ts], [src/oauth.ts] and of the
    [QuickBooksClient] class: error normalisation, token expiry and refresh,
    the sliding-window rate limiter, the retrying [request], the
    [query] / [queryAll] pair, the entity and utility methods built on
    them, and the authorization URL with its state parameter.

    Asynchronous code is written in a small state-and-exception monad over
    a [World]: the wall clock, the client's [requestTimestamps], the host's
    token store, and a trace of every externally visible effect.  The two
    remote parties (resource API, token endpoint) are functions from the
    call number and the request to a result.

    The environment is kept simple where the client does not look: the
    token store is the one-cell store of the integration harness, whose
    operations do not fail; time passes only while a timer is awaited, and a
    timer fires when it is due; the optional [onLog] sink is left out, as it
    has no influence on control flow.  The two loops of the client, the
    recursion of [request] and the [while (true)] of [queryAll], take fuel;
    [request] is shown never to use it up. *)

From Stdlib Require Import ZArith String List Ascii Bool Lia DecimalString.
From Stdlib Require DecimalZ.
Import ListNotations.
Local Open Scope string_scope.
Local Open Scope list_scope.
Local Open Scope Z_scope.

Set Warnings "-register-all".

(** ** JavaScript values *)

(** Data as [JSON.parse] produces it.  The property list of [JObj] is the
    object's own properties in [Object.keys] order, each key once.  Numbers
    are integers (no response field read by the client is fractional). *)
Inductive Json : Type :=
| JNull
| JBool (b : bool)
| JNum (n : Z)
| JStr (s : string)
| JArr (items : list Json)
| JObj (props : list (string * Json)).

(** [QB_ERROR_CODES]; the module keeps [QB_ERROR_CODES.RATE_LIMIT] apart
    from the client's [RATE_LIMIT] constant, as in the source. *)
Module QB_ERROR_CODES.
Inductive t : Type :=
| TOKEN_EXPIRED
| REFRESH_FAILED
| UNAUTHORIZED
| INVALID_REALM
| API_ERROR
| RATE_LIMIT
| NETWORK_ERROR
| INVALID_CONFIG
| TOKEN_STORE_ERROR.

Definition value (c : t) : string :=
  match c with
  | TOKEN_EXPIRED => "QB_TOKEN_EXPIRED"
  | REFRESH_FAILED => "QB_REFRESH_FAILED"
  | UNAUTHORIZED => "QB_UNAUTHORIZED"
  | INVALID_REALM => "QB_INVALID_REALM"
  | API_ERROR => "QB_API_ERROR"
  | RATE_LIMIT => "QB_RATE_LIMIT"
  | NETWORK_ERROR => "QB_NETWORK_ERROR"
  | INVALID_CONFIG => "QB_INVALID_CONFIG"
  | TOKEN_STORE_ERROR => "QB_TOKEN_STORE_ERROR"
  end.
End QB_ERROR_CODES.

Definition QuickBooksErrorCode : Type := QB_ERROR_CODES.t.

(** What a [catch (error)] clause may bind, i.e. TypeScript's [unknown]:
    [undefined], plain data, or an instance of [TypeError], of another
    [Error] class, or of [QuickBooksError].  [status] and [details] of a
    [QuickBooksError] are optional constructor arguments. *)
Inductive JsValue : Type :=
| VUndefined
| VData (j : Json)
| VTypeError (message : string)
| VError (name message : string)
| VQuickBooksError (e : QuickBooksError)
with QuickBooksError : Type :=
| mkQuickBooksError (message : string) (code : QuickBooksErrorCode)
                    (status : option Z) (details : JsValue).

Definition qb_message (e : QuickBooksError) : string :=
  let 'mkQuickBooksError m _ _ _ := e in m.
Definition qb_code (e : QuickBooksError) : QuickBooksErrorCode :=
  let 'mkQuickBooksError _ c _ _ := e in c.
Definition qb_status (e : QuickBooksError) : option Z :=
  let 'mkQuickBooksError _ _ s _ := e in s.
Definition qb_details (e : QuickBooksError) : JsValue :=
  let 'mkQuickBooksError _ _ _ d := e in d.

(** The result of evaluating an expression: a value, or a thrown one. *)
Inductive Completion (A : Type) : Type :=
| Normal (a : A)
| Abrupt (thrown : JsValue).
Arguments Normal {A} a.
Arguments Abrupt {A} thrown.

(** ** String and property primitives *)

(** [hay.includes(needle)] *)
Fixpoint includes (hay needle : string) : bool :=
  String.prefix needle hay ||
  match hay with
  | EmptyString => false
  | String _ rest => includes rest needle
  end.

(** Decimal rendering of an integer, as template literals and [String] do. *)
Definition decimal (n : Z) : string := NilZero.string_of_int (Z.to_int n).

(** [obj[key]] on an own-property list; [None] is [undefined]. *)
Fixpoint get_prop (key : string) (props : list (string * Json)) : option Json :=
  match props with
  | [] => None
  | (k, v) :: rest => if String.eqb k key then Some v else get_prop key rest
  end.

(** ToBoolean, as [||], [?:] and [if] apply it. *)
Definition truthy (j : Json) : bool :=
  match j with
  | JNull => false
  | JBool b => b
  | JNum n => negb (n =? 0)
  | JStr s => negb (String.eqb s "")
  | JArr _ | JObj _ => true
  end.

Fixpoint join_strings (sep : string) (l : list string) : string :=
  match l with
  | [] => ""
  | [s] => s
  | s :: rest => (s ++ sep ++ join_strings sep rest)%string
  end.

Fixpoint sequence_opt {A : Type} (l : list (option A)) : option (list A) :=
  match l with
  | [] => Some []
  | None :: _ => None
  | Some a :: rest =>
      match sequence_opt rest with
      | Some r => Some (a :: r)
      | None => None
      end
  end.

(** [String(v)] on data; [None] when the conversion throws a [TypeError].
    An array is joined with commas, [null] elements giving the empty string.
    A plain object goes through OrdinaryToPrimitive: its [toString] is looked
    up first, and an own [toString] property shadows
    [Object.prototype.toString]; parsed data is never callable, so that
    method is skipped, [valueOf] yields the object itself at best, and the
    conversion throws.  Without an own [toString] the inherited one answers
    ["[object Object]"]. *)
Fixpoint js_String (j : Json) : option string :=
  match j with
  | JNull => Some "null"
  | JBool b => Some (if b then "true" else "false")
  | JNum n => Some (decimal n)
  | JStr s => Some s
  | JArr items =>
      option_map (join_strings ",")
        (sequence_opt
           (map (fun x => match x with JNull => Some "" | _ => js_String x end)
                items))
  | JObj props =>
      match get_prop "toString" props with
      | Some _ => None
      | None => Some "[object Object]"
      end
  end.

Definition cannot_convert : JsValue :=
  VTypeError "Cannot convert object to primitive value".

(** ** [errors.ts]: [handleQuickBooksError] *)

Definition instanceof_TypeError (v : JsValue) : bool :=
  match v with VTypeError _ => true | _ => false end.

(** [typeof v === "object" && v !== null] *)
Definition is_object (v : JsValue) : bool :=
  match v with
  | VData (JArr _) | VData (JObj _) => true
  | VTypeError _ | VError _ _ | VQuickBooksError _ => true
  | _ => false
  end.

(** [err.status] and [err.message] of [err = error as Record<string, unknown>] *)
Definition prop_status (v : JsValue) : option Json :=
  match v with
  | VData (JObj props) => get_prop "status" props
  | VQuickBooksError e => option_map JNum (qb_status e)
  | _ => None
  end.

Definition prop_message (v : JsValue) : option Json :=
  match v with
  | VData (JObj props) => get_prop "message" props
  | VTypeError m | VError _ m => Some (JStr m)
  | VQuickBooksError e => Some (JStr (qb_message e))
  | _ => None
  end.

(** [String(err.message || "")] *)
Definition message_text (v : JsValue) : Completion string :=
  match prop_message v with
  | None => Normal ""
  | Some m =>
      if truthy m then
        match js_String m with
        | Some s => Normal s
        | None => Abrupt cannot_convert
        end
      else Normal ""
  end.

Definition default_error (error : JsValue) : QuickBooksError :=
  mkQuickBooksError "An unexpected error occurred with QuickBooks integration"
                    QB_ERROR_CODES.API_ERROR (Some 500) error.

(** The tail of the object branch: the check for token-related messages,
    then the default error. *)
Definition by_message (error : JsValue) : Completion QuickBooksError :=
  match message_text error with
  | Abrupt t => Abrupt t
  | Normal message =>
      if includes message "token expired" || includes message "invalid_token"
      then Normal (mkQuickBooksError "QuickBooks token expired"
                                     QB_ERROR_CODES.TOKEN_EXPIRED (Some 401) error)
      else Normal (default_error error)
  end.

Definition handleQuickBooksError (error : JsValue) : Completion QuickBooksError :=
  match error with
  | VQuickBooksError e => Normal e
  | _ =>
    if instanceof_TypeError error &&
       match prop_message error with
       | Some (JStr m) => includes m "fetch"
       | _ => false
       end
    then Normal (mkQuickBooksError "Network error connecting to QuickBooks API"
                                   QB_ERROR_CODES.NETWORK_ERROR (Some 0) error)
    else if is_object error then
      match prop_status error with
      | Some (JNum status) =>
          if status =? 401 then
            Normal (mkQuickBooksError "Unauthorized access to QuickBooks API"
                                      QB_ERROR_CODES.UNAUTHORIZED (Some 401) error)
          else if status =? 403 then
            Normal (mkQuickBooksError "Access forbidden - check API permissions"
                                      QB_ERROR_CODES.UNAUTHORIZED (Some 403) error)
          else if status =? 429 then
            Normal (mkQuickBooksError "QuickBooks API rate limit exceeded"
                                      QB_ERROR_CODES.RATE_LIMIT (Some 429) error)
          else by_message error
      | _ => by_message error
      end
    else Normal (default_error error)
  end.

(** ** [types.ts] *)

Record QuickBooksTokens : Type := {
  access_token : string;
  refresh_token : string;
  realm_id : string;
  expires_at : Z;                       (* epoch seconds *)
  token_type : option string
}.

Inductive Environment : Type := sandbox | production.

(** [QuickBooksClientOptions]; [tokenStore] is the store of the [World]. *)
Record QuickBooksClientOptions : Type := {
  clientId : string;
  clientSecret : string;
  redirectUri : string;
  environment : option Environment
}.

(** [OAuthTokenResponse] *)
Record OAuthTokenResponse : Type := {
  granted_access_token : string;
  granted_refresh_token : string;
  granted_token_type : string;
  expires_in : Z;
  x_refresh_token_expires_in : Z
}.

(** ** HTTP exchanges *)

Inductive RequestBody : Type :=
| Stringified (j : Json)                 (* [JSON.stringify(body)] *)
| Text (s : string).

Record Request : Type := {
  url : string;
  method : string;
  headers : list (string * string);
  body : option RequestBody
}.

(** What [response.json()] settles to. *)
Inductive Body : Type :=
| Parsed (j : Json)
| Unparseable (reason : JsValue).

Record Response : Type := {
  status : Z;
  retryAfter : option string;            (* [headers.get("Retry-After")] *)
  payload : Body
}.

Definition ok (r : Response) : bool := (200 <=? status r) && (status r <=? 299).

Inductive FetchResult : Type :=
| NetworkFailure (reason : JsValue)      (* [fetch] rejects *)
| Responded (r : Response).

(** The refresh grant posted to the token endpoint. *)
Record TokenRequest : Type := {
  token_url : string;
  basic_credentials : string * string;   (* clientId, clientSecret *)
  grant_refresh_token : string
}.

(** A response of the token endpoint: one whose [ok] is false, a 2xx one
    whose body has the declared [OAuthTokenResponse] shape, or a 2xx one
    whose [json()] rejects. *)
Inductive TokenResponse : Type :=
| TokenRejected (status : Z) (payload : Body)
| TokenGranted (data : OAuthTokenResponse)
| TokenGarbled (reason : JsValue).

Inductive TokenFetchResult : Type :=
| TokenNetworkFailure (reason : JsValue)
| TokenResponded (r : TokenResponse).

(** ** The world and the monad *)

Inductive Event : Type :=
| GetTokens                              (* [tokenStore.getTokens()] *)
| StoreTokens (tokens : QuickBooksTokens)
| ClearTokens
| Fetch (req : Request)                  (* a call of the resource API *)
| Refresh (req : TokenRequest)           (* a call of the token endpoint *)
| Timeout (ms : option Z).               (* an awaited [setTimeout]; [None] is NaN *)

Record World : Type := {
  clock : Z;                             (* [Date.now()], milliseconds *)
  requestTimestamps : list Z;
  store : option QuickBooksTokens;       (* the host's token store *)
  api_calls : nat;
  token_calls : nat;
  trace : list Event                     (* oldest first *)
}.

Inductive Outcome (A : Type) : Type :=
| Return (a : A)
| Throw (e : JsValue)
| Pending.                               (* still running when the fuel ran out *)
Arguments Return {A} a.
Arguments Throw {A} e.
Arguments Pending {A}.

Definition M (A : Type) : Type := World -> Outcome A * World.

Definition ret {A : Type} (a : A) : M A := fun w => (Return a, w).
Definition throw {A : Type} (e : JsValue) : M A := fun w => (Throw e, w).
Definition pending {A : Type} : M A := fun w => (Pending, w).

Definition bind {A B : Type} (m : M A) (k : A -> M B) : M B :=
  fun w =>
    match m w with
    | (Return a, w') => k a w'
    | (Throw e, w') => (Throw e, w')
    | (Pending, w') => (Pending, w')
    end.

(** [try { m } catch (error) { handler error }] *)
Definition try_catch {A : Type} (m : M A) (handler : JsValue -> M A) : M A :=
  fun w =>
    match m w with
    | (Throw e, w') => handler e w'
    | r => r
    end.

Definition lift {A : Type} (c : Completion A) : M A :=
  match c with
  | Normal a => ret a
  | Abrupt t => throw t
  end.

Notation "x <- m ;; k" := (bind m (fun x => k))
  (at level 61, m at next level, right associativity).
Notation "m ;;; k" := (bind m (fun _ => k))
  (at level 61, right associativity).

(** Updates of one field of the world. *)
Definition emit (e : Event) (w : World) : World :=
  {| clock := clock w; requestTimestamps := requestTimestamps w;
     store := store w; api_calls := api_calls w;
     token_calls := token_calls w; trace := trace w ++ [e] |}.

Definition tick (ms : Z) (w : World) : World :=
  {| clock := clock w + ms; requestTimestamps := requestTimestamps w;
     store := store w; api_calls := api_calls w;
     token_calls := token_calls w; trace := trace w |}.

Definition with_requestTimestamps (ts : list Z) (w : World) : World :=
  {| clock := clock w; requestTimestamps := ts; store := store w;
     api_calls := api_calls w; token_calls := token_calls w;
     trace := trace w |}.

Definition with_store (s : option QuickBooksTokens) (w : World) : World :=
  {| clock := clock w; requestTimestamps := requestTimestamps w; store := s;
     api_calls := api_calls w; token_calls := token_calls w;
     trace := trace w |}.

Definition count_api (w : World) : World :=
  {| clock := clock w; requestTimestamps := requestTimestamps w;
     store := store w; api_calls := S (api_calls w);
     token_calls := token_calls w; trace := trace w |}.

Definition count_token (w : World) : World :=
  {| clock := clock w; requestTimestamps := requestTimestamps w;
     store := store w; api_calls := api_calls w;
     token_calls := S (token_calls w); trace := trace w |}.

Definition Date_now : M Z := fun w => (Return (clock w), w).

(** A Node timer armed with [ms] is due after [ms] milliseconds, or after 1
    when [ms] is NaN, below 1 or above 2^31 - 1; it fires when due. *)
Definition timer_elapsed (ms : option Z) : Z :=
  match ms with
  | Some d => if (1 <=? d) && (d <=? 2147483647) then d else 1
  | None => 1
  end.

(** [await new Promise((resolve) => setTimeout(resolve, ms))] *)
Definition setTimeout (ms : option Z) : M unit :=
  fun w => (Return tt, emit (Timeout ms) (tick (timer_elapsed ms) w)).

Definition get_requestTimestamps : M (list Z) :=
  fun w => (Return (requestTimestamps w), w).

Definition set_requestTimestamps (ts : list Z) : M unit :=
  fun w => (Return tt, with_requestTimestamps ts w).

(** The token store of the integration harness: one cell. *)
Definition getTokens : M (option QuickBooksTokens) :=
  fun w => (Return (store w), emit GetTokens w).

Definition storeTokens (tokens : QuickBooksTokens) : M unit :=
  fun w => (Return tt, emit (StoreTokens tokens) (with_store (Some tokens) w)).

Definition clearTokens : M unit :=
  fun w => (Return tt, emit ClearTokens (with_store None w)).

(** [parseInt(s, 10)]: leading white space, an optional sign, then the
    longest run of decimal digits; [None] is NaN. *)
Definition is_space (c : ascii) : bool :=
  let n := nat_of_ascii c in
  (Nat.eqb n 32 || (Nat.leb 9 n && Nat.leb n 13) || Nat.eqb n 160)%bool.

Fixpoint skip_spaces (s : string) : string :=
  match s with
  | String c rest => if is_space c then skip_spaces rest else s
  | EmptyString => s
  end.

Definition digit_of (c : ascii) : option Z :=
  let n := Z.of_nat (nat_of_ascii c) in
  if (48 <=? n) && (n <=? 57) then Some (n - 48) else None.

Fixpoint read_digits (s : string) (acc : option Z) : option Z :=
  match s with
  | String c rest =>
      match digit_of c with
      | Some d =>
          read_digits rest
            (Some (10 * match acc with Some a => a | None => 0 end + d))
      | None => acc
      end
  | EmptyString => acc
  end.

Definition parseInt (s : string) : option Z :=
  match skip_spaces s with
  | String "-" rest => option_map Z.opp (read_digits rest None)
  | String "+" rest => read_digits rest None
  | t => read_digits t None
  end.

(** Own enumerable properties, as [Object.keys], indexing and object spread
    see them: the elements of an array and the characters of a string
    under their indices, nothing for the other primitives. *)
Definition indices (n : nat) : list string :=
  map (fun i => decimal (Z.of_nat i)) (seq 0 n).

Fixpoint chars (s : string) : list Json :=
  match s with
  | EmptyString => []
  | String c rest => JStr (String c EmptyString) :: chars rest
  end.

Definition own_props (j : Json) : list (string * Json) :=
  match j with
  | JObj props => props
  | JArr items => combine (indices (length items)) items
  | JStr s => combine (indices (String.length s)) (chars s)
  | _ => []
  end.

(** [await response.json().catch(() => ({}))] *)
Definition errorData (b : Body) : Json :=
  match b with
  | Parsed j => j
  | Unparseable _ => JObj []
  end.

(** [{ status: response.status, ...errorData }]: the members of the payload
    are spread after [status] and so replace it when they have one. *)
Definition error_object (status : Z) (data : Json) : JsValue :=
  let props := own_props data in
  VData (JObj (("status",
                match get_prop "status" props with
                | Some v => v
                | None => JNum status
                end)
               :: filter (fun kv => negb (String.eqb (fst kv) "status")) props)).

(** ** Envelope unwrapping, shared by [query] and [queryAll] *)

Definition metadata_keys : list string :=
  ["startPosition"; "maxResults"; "totalCount"].

(** [data.QueryResponse] *)
Definition member (data : Json) (key : string) : Completion (option Json) :=
  match data with
  | JNull => Abrupt (VTypeError "Cannot read properties of null")
  | _ => Normal (get_prop key (own_props data))
  end.

Definition Object_keys (v : option Json) : Completion (list string) :=
  match v with
  | None | Some JNull =>
      Abrupt (VTypeError "Cannot convert undefined or null to object")
  | Some j => Normal (map fst (own_props j))
  end.

(** The entity array of a decoded response, [None] being [undefined]:
<<
  const keys = Object.keys(data.QueryResponse).filter(
    (k) => !["startPosition", "maxResults", "totalCount"].includes(k));
  const entityKey = keys[0];
  entityKey ? data.QueryResponse[entityKey] : []
>> *)
Definition unwrap (data : Json) : Completion (option Json) :=
  match member data "QueryResponse" with
  | Abrupt t => Abrupt t
  | Normal qr =>
      match Object_keys qr with
      | Abrupt t => Abrupt t
      | Normal all_keys =>
          let keys :=
            filter (fun k => negb (existsb (String.eqb k) metadata_keys))
                   all_keys in
          match keys with
          | entityKey :: _ =>
              if negb (String.eqb entityKey "")
              then Normal (match qr with
                           | Some q => get_prop entityKey (own_props q)
                           | None => None
                           end)
              else Normal (Some (JArr []))
          | [] => Normal (Some (JArr []))
          end
      end
  end.

(** [...pageResults] as arguments of [push], and [pageResults.length] *)
Definition spread_elements (v : option Json) : Completion (list Json) :=
  match v with
  | Some (JArr items) => Normal items
  | Some (JStr s) => Normal (chars s)
  | _ => Abrupt (VTypeError "Spread syntax requires ...iterable[Symbol.iterator] to be a function")
  end.

Definition length_of (v : option Json) : option Z :=
  match v with
  | Some (JArr items) => Some (Z.of_nat (length items))
  | Some (JStr s) => Some (Z.of_nat (String.length s))
  | _ => None
  end.

(** ** Constants of the client *)

Definition API_BASE (env : Environment) : string :=
  match env with
  | sandbox => "https://sandbox-quickbooks.api.intuit.com"
  | production => "https://quickbooks.api.intuit.com"
  end.

Definition RATE_LIMIT : nat := 500.
Definition RATE_LIMIT_WINDOW_MS : Z := 60 * 1000.
Definition MAX_RETRIES : nat := 3.
Definition INITIAL_RETRY_DELAY_MS : Z := 1000.

(** What one pass through the [try] block of [request] ends in: a value to
    return, or [return this.request(..., retryCount + 1)].  That promise is
    returned without [await], so the call it stands for runs outside the
    [try] and its rejection is not seen by the [catch]. *)
Inductive Step : Type :=
| Done (result : Json)
| Again.

(** What lies outside the client: its immutable configuration, the answer
    of the resource API to its [n]-th call, and the answer of the token
    endpoint to its [n]-th call. *)
Class Remote : Type := {
  config : QuickBooksClientOptions;
  api : nat -> Request -> FetchResult;
  token_endpoint : nat -> TokenRequest -> TokenFetchResult
}.

Section Client.

Context {remote : Remote}.

Definition fetch (req : Request) : M Response :=
  fun w =>
    let w' := emit (Fetch req) (count_api w) in
    match api (api_calls w) req with
    | NetworkFailure e => (Throw e, w')
    | Responded r => (Return r, w')
    end.

Definition fetch_token (req : TokenRequest) : M TokenResponse :=
  fun w =>
    let w' := emit (Refresh req) (count_token w) in
    match token_endpoint (token_calls w) req with
    | TokenNetworkFailure e => (Throw e, w')
    | TokenResponded r => (Return r, w')
    end.

Definition env : Environment :=
  match environment config with
  | Some e => e
  | None => production
  end.

(** *** [oauth.ts] *)

Definition ENDPOINTS_token (e : Environment) : string :=
  "https://oauth.platform.intuit.com/oauth2/v1/tokens/bearer".

Definition calculateTokenExpiry (expiresIn : Z) : M Z :=
  ms <- Date_now ;;
  ret (ms / 1000 + expiresIn).

Definition isTokenExpired (expiresAt bufferSeconds : Z) : M bool :=
  ms <- Date_now ;;
  let now := ms / 1000 in
  ret (expiresAt - bufferSeconds <=? now).

Definition refresh_request (refreshToken : string) : TokenRequest :=
  {| token_url := ENDPOINTS_token env;
     basic_credentials := (clientId config, clientSecret config);
     grant_refresh_token := refreshToken |}.

Definition refreshTokens (refreshToken realmId : string) : M QuickBooksTokens :=
  response <- fetch_token (refresh_request refreshToken) ;;
  match response with
  | TokenRejected status payload =>
      throw (VQuickBooksError
               (mkQuickBooksError
                  ("Failed to refresh tokens: " ++ decimal status)%string
                  QB_ERROR_CODES.REFRESH_FAILED (Some status)
                  (VData (errorData payload))))
  | TokenGarbled reason => throw reason
  | TokenGranted data =>
      expiry <- calculateTokenExpiry (expires_in data) ;;
      ret {| access_token := granted_access_token data;
             refresh_token := granted_refresh_token data;
             realm_id := realmId;
             expires_at := expiry;
             token_type := Some (granted_token_type data) |}
  end.

(** *** [QuickBooksClient] *)

Definition checkRateLimit : M unit :=
  now <- Date_now ;;
  old <- get_requestTimestamps ;;
  set_requestTimestamps
    (filter (fun ts => now - ts <? RATE_LIMIT_WINDOW_MS) old) ;;;
  kept <- get_requestTimestamps ;;
  (if Nat.leb RATE_LIMIT (length kept) then
     let oldestTimestamp := hd 0 kept in
     let waitTime := RATE_LIMIT_WINDOW_MS - (now - oldestTimestamp) + 100 in
     setTimeout (Some waitTime)
   else ret tt) ;;;
  after <- Date_now ;;
  current <- get_requestTimestamps ;;
  set_requestTimestamps (current ++ [after]).

Definition no_tokens : JsValue :=
  VQuickBooksError
    (mkQuickBooksError "No tokens found - please connect to QuickBooks first"
                       QB_ERROR_CODES.UNAUTHORIZED None VUndefined).

Definition getValidTokens : M QuickBooksTokens :=
  stored <- getTokens ;;
  match stored with
  | None => throw no_tokens
  | Some tokens =>
      expired <- isTokenExpired (expires_at tokens) 300 ;;
      if expired then
        try_catch
          (newTokens <- refreshTokens (refresh_token tokens) (realm_id tokens) ;;
           storeTokens newTokens ;;;
           ret newTokens)
          (fun error =>
             (match error with
              | VQuickBooksError e =>
                  match qb_status e with
                  | Some s => if s =? 401 then clearTokens else ret tt
                  | None => ret tt
                  end
              | _ => ret tt
              end) ;;;
             throw error)
      else ret tokens
  end.

Definition api_url (tokens : QuickBooksTokens) (endpoint : string) : string :=
  (API_BASE env ++ "/v3/company/" ++ realm_id tokens ++ endpoint)%string.

Definition bearer (tokens : QuickBooksTokens) : string * string :=
  ("Authorization", ("Bearer " ++ access_token tokens)%string).

(** The call [request] issues; [body] is sent when it is truthy. *)
Definition api_request (method endpoint : string) (body : option Json)
    (tokens : QuickBooksTokens) : Request :=
  let sent := match body with Some b => truthy b | None => false end in
  {| url := api_url tokens endpoint;
     method := method;
     headers := [bearer tokens; ("Accept", "application/json")]
                ++ (if sent then [("Content-Type", "application/json")] else []);
     body := if sent then option_map Stringified body else None |}.

(** [throw handleQuickBooksError(error)] *)
Definition normalize {A : Type} (error : JsValue) : M A :=
  e <- lift (handleQuickBooksError error) ;;
  throw (VQuickBooksError e).

(** The delay before a retry of a 429. *)
Definition retry_delay (retryAfter : option string) (retryCount : nat) : option Z :=
  match retryAfter with
  | Some h =>
      if negb (String.eqb h "")
      then option_map (fun n => n * 1000) (parseInt h)
      else Some (INITIAL_RETRY_DELAY_MS * 2 ^ Z.of_nat retryCount)
  | None => Some (INITIAL_RETRY_DELAY_MS * 2 ^ Z.of_nat retryCount)
  end.

(** The end of the [try] block: a response that is not [ok] is thrown with
    its payload, an [ok] one is decoded. *)
Definition finish (response : Response) : M Step :=
  if negb (ok response) then
    throw (error_object (status response) (errorData (payload response)))
  else
    match payload response with
    | Parsed j => ret (Done j)
    | Unparseable reason => throw reason
    end.

(** The [try] / [catch] of [request]. *)
Definition attempt (method endpoint : string) (body : option Json)
    (retryCount : nat) (tokens : QuickBooksTokens) : M Step :=
  try_catch
    (response <- fetch (api_request method endpoint body tokens) ;;
     if (status response =? 429) && Nat.ltb retryCount MAX_RETRIES then
       setTimeout (retry_delay (retryAfter response) retryCount) ;;;
       ret Again
     else if (status response =? 401) && Nat.ltb retryCount 1 then
       stored <- getTokens ;;
       match stored with
       | Some tokens' =>
           newTokens <- refreshTokens (refresh_token tokens') (realm_id tokens') ;;
           storeTokens newTokens ;;;
           ret Again
       | None => finish response
       end
     else finish response)
    normalize.

Fixpoint request_go (fuel : nat) (method endpoint : string) (body : option Json)
    (retryCount : nat) : M Json :=
  match fuel with
  | O => pending
  | S fuel' =>
      checkRateLimit ;;;
      tokens <- getValidTokens ;;
      step <- attempt method endpoint body retryCount tokens ;;
      match step with
      | Done result => ret result
      | Again => request_go fuel' method endpoint body (S retryCount)
      end
  end.

(** [request(method, endpoint, body, retryCount = 0)].  A call recurses only
    while [retryCount < MAX_RETRIES], so [MAX_RETRIES - retryCount] further
    calls are all it can make. *)
Definition request (method endpoint : string) (body : option Json)
    (retryCount : nat) : M Json :=
  request_go (S (MAX_RETRIES - retryCount)) method endpoint body retryCount.

Definition query_request (sql : string) (tokens : QuickBooksTokens) : Request :=
  {| url := api_url tokens "/query";
     method := "POST";
     headers := [bearer tokens; ("Accept", "application/json");
                 ("Content-Type", "application/text")];
     body := Some (Text sql) |}.

Definition query (sql : string) : M (option Json) :=
  tokens <- getValidTokens ;;
  checkRateLimit ;;;
  fetchResponse <- fetch (query_request sql tokens) ;;
  if negb (ok fetchResponse) then
    normalize (error_object (status fetchResponse)
                            (errorData (payload fetchResponse)))
  else
    match payload fetchResponse with
    | Unparseable reason => throw reason
    | Parsed data => lift (unwrap data)
    end.

Definition paginated (sql : string) (startPosition maxResults : Z) : string :=
  (sql ++ " STARTPOSITION " ++ decimal startPosition
       ++ " MAXRESULTS " ++ decimal maxResults)%string.

(** The [while (true)] of [queryAll]; each iteration repeats the body of
    [query] on the paginated text.  [fuel] bounds the iterations. *)
Fixpoint queryAll_loop (fuel : nat) (sql : string) (maxResults startPosition : Z)
    (allResults : list Json) : M (list Json) :=
  match fuel with
  | O => pending
  | S fuel' =>
      pageResults <- query (paginated sql startPosition maxResults) ;;
      items <- lift (spread_elements pageResults) ;;
      let allResults := allResults ++ items in
      if match length_of pageResults with
         | Some n => n <? maxResults
         | None => false
         end
      then ret allResults
      else queryAll_loop fuel' sql maxResults (startPosition + maxResults)
                         allResults
  end.

Definition queryAll (fuel : nat) (sql : string) (pageSize : Z) : M (list Json) :=
  let startPosition := 1 in
  let maxResults := Z.min pageSize 1000 in
  queryAll_loop fuel sql maxResults startPosition [].

End Client.

(** ** [oauth.ts]: the authorization URL and the state parameter

    [new URLSearchParams(...).toString()] is the
    [application/x-www-form-urlencoded] serializer; it works on the UTF-8
    bytes of a string, which is what a string stands for here. *)

Definition hex_digit (uppercase : bool) (n : nat) : ascii :=
  nth n (list_ascii_of_string
           (if uppercase then "0123456789ABCDEF" else "0123456789abcdef"))
      "0"%char.

(** The bytes the serializer leaves as they are: ASCII letters and digits,
    [*], [-], [.] and [_]. *)
Definition form_safe (c : ascii) : bool :=
  let n := nat_of_ascii c in
  ((Nat.leb 48 n && Nat.leb n 57) || (Nat.leb 65 n && Nat.leb n 90)
   || (Nat.leb 97 n && Nat.leb n 122)
   || Nat.eqb n 42 || Nat.eqb n 45 || Nat.eqb n 46 || Nat.eqb n 95)%bool.

(** A space becomes [+], any other byte [%XX] in upper-case hexadecimal. *)
Definition form_byte (c : ascii) : string :=
  let n := nat_of_ascii c in
  if form_safe c then String c ""
  else if Nat.eqb n 32 then "+"
  else String "%" (String (hex_digit true (n / 16))
                          (String (hex_digit true (n mod 16)) "")).

Fixpoint form_encode (s : string) : string :=
  match s with
  | EmptyString => ""
  | String c rest => (form_byte c ++ form_encode rest)%string
  end.

Definition URLSearchParams_toString (params : list (string * string)) : string :=
  join_strings "&"
    (map (fun kv => (form_encode (fst kv) ++ "=" ++ form_encode (snd kv))%string)
         params).

(** [QuickBooksConfig]: the members [QuickBooksClientOptions] above keeps of
    it, and the optional [scopes]. *)
Record QuickBooksConfig : Type := {
  settings :> QuickBooksClientOptions;
  scopes : option (list string)
}.

Definition ENDPOINTS_authorize (e : Environment) : string :=
  "https://appcenter.intuit.com/connect/oauth2".

Definition DEFAULT_SCOPES : list string := ["com.intuit.quickbooks.accounting"].

Definition generateAuthUrl (config : QuickBooksConfig) (state : string) : string :=
  let env := match environment config with Some e => e | None => production end in
  let scopes := match scopes config with Some s => s | None => DEFAULT_SCOPES end in
  let params :=
    [("client_id", clientId config);
     ("redirect_uri", redirectUri config);
     ("response_type", "code");
     ("scope", join_strings " " scopes);
     ("state", state)] in
  (ENDPOINTS_authorize env ++ "?" ++ URLSearchParams_toString params)%string.

(** [s.padStart(targetLength, padString)] *)
Fixpoint pad_fill (n : nat) (padString rest : string) : string :=
  match n with
  | O => ""
  | S n' =>
      match rest with
      | String c r => String c (pad_fill n' padString r)
      | EmptyString =>
          match padString with
          | String c r => String c (pad_fill n' padString r)
          | EmptyString => ""
          end
      end
  end.

Definition padStart (targetLength : nat) (padString s : string) : string :=
  (pad_fill (targetLength - String.length s) padString padString ++ s)%string.

(** [byte.toString(16)] for an element of a [Uint8Array]. *)
Definition byte_toString16 (b : Byte.byte) : string :=
  let n := N.to_nat (Byte.to_N b) in
  if Nat.ltb n 16 then String (hex_digit false n) ""
  else String (hex_digit false (n / 16)) (String (hex_digit false (n mod 16)) "").

(** [generateState()], given what [crypto.getRandomValues] writes into the
    array of 16 bytes: [random i] is the byte at index [i]. *)
Definition generateState (random : nat -> Byte.byte) : string :=
  let array := map random (seq 0 16) in
  String.concat ""
    (map (fun byte => padStart 2 "0" (byte_toString16 byte)) array).

(** ** The entity and utility methods of [QuickBooksClient] *)

(** The result of [getConnectionStatus]; [realmId] and [expiresAt] are
    absent when no tokens are stored. *)
Module ConnectionStatus.
Record t : Type := {
  isConnected : bool;
  needsRefresh : bool;
  realmId : option string;
  expiresAt : option Z
}.
End ConnectionStatus.

(** The entities the client has methods for, the member of a response that
    holds one, and its resource path. *)
Inductive Entity : Type :=
| Invoice | Customer | Payment | Account | Vendor | Bill | Item.

Definition entity_name (entity : Entity) : string :=
  match entity with
  | Invoice => "Invoice"
  | Customer => "Customer"
  | Payment => "Payment"
  | Account => "Account"
  | Vendor => "Vendor"
  | Bill => "Bill"
  | Item => "Item"
  end.

Definition entity_path (entity : Entity) : string :=
  match entity with
  | Invoice => "/invoice"
  | Customer => "/customer"
  | Payment => "/payment"
  | Account => "/account"
  | Vendor => "/vendor"
  | Bill => "/bill"
  | Item => "/item"
  end.

(** [response.Member] on a decoded response: [undefined] when there is no
    such member, and a [TypeError] when the response is [null]. *)
Definition property_of (response : Json) (key : string) : Completion (option Json) :=
  match response with
  | JNull =>
      Abrupt (VTypeError
                ("Cannot read properties of null (reading '" ++ key ++ "')"))
  | _ => Normal (get_prop key (own_props response))
  end.

Section Methods.

Context {remote : Remote}.

(** [where ? `${select} WHERE ${where}` : otherwise], on the optional
    [where] argument of the list methods. *)
Definition select_where (select otherwise : string) (where_clause : option string)
    : string :=
  match where_clause with
  | Some condition =>
      if negb (String.eqb condition "")
      then (select ++ " WHERE " ++ condition)%string
      else otherwise
  | None => otherwise
  end.

(** *** Invoice methods *)

Definition getInvoice (id : string) : M (option Json) :=
  response <- request "GET" ("/invoice/" ++ id) None 0 ;;
  lift (property_of response "Invoice").

Definition getInvoices (where_clause : option string) : M (option Json) :=
  let sql := select_where "SELECT * FROM Invoice" "SELECT * FROM Invoice"
                          where_clause in
  query sql.

Definition createInvoice (invoice : Json) : M (option Json) :=
  response <- request "POST" "/invoice" (Some invoice) 0 ;;
  lift (property_of response "Invoice").

Definition updateInvoice (invoice : Json) : M (option Json) :=
  response <- request "POST" "/invoice" (Some invoice) 0 ;;
  lift (property_of response "Invoice").

Definition deleteInvoice (id syncToken : string) : M unit :=
  request "POST" "/invoice"
          (Some (JObj [("Id", JStr id); ("SyncToken", JStr syncToken)])) 0 ;;;
  ret tt.

(** *** Customer methods *)

Definition getCustomer (id : string) : M (option Json) :=
  response <- request "GET" ("/customer/" ++ id) None 0 ;;
  lift (property_of response "Customer").

Definition getCustomers (where_clause : option string) : M (option Json) :=
  let sql := select_where "SELECT * FROM Customer" "SELECT * FROM Customer"
                          where_clause in
  query sql.

Definition createCustomer (customer : Json) : M (option Json) :=
  response <- request "POST" "/customer" (Some customer) 0 ;;
  lift (property_of response "Customer").

Definition updateCustomer (customer : Json) : M (option Json) :=
  response <- request "POST" "/customer" (Some customer) 0 ;;
  lift (property_of response "Customer").

(** *** Payment methods *)

Definition getPayment (id : string) : M (option Json) :=
  response <- request "GET" ("/payment/" ++ id) None 0 ;;
  lift (property_of response "Payment").

Definition getPayments (where_clause : option string) : M (option Json) :=
  let sql := select_where "SELECT * FROM Payment" "SELECT * FROM Payment"
                          where_clause in
  query sql.

Definition createPayment (payment : Json) : M (option Json) :=
  response <- request "POST" "/payment" (Some payment) 0 ;;
  lift (property_of response "Payment").

(** *** Account methods *)

Definition getAccount (id : string) : M (option Json) :=
  response <- request "GET" ("/account/" ++ id) None 0 ;;
  lift (property_of response "Account").

Definition getAccounts (where_clause : option string) : M (option Json) :=
  let sql := select_where "SELECT * FROM Account"
                          "SELECT * FROM Account WHERE Active = true"
                          where_clause in
  query sql.

(** *** Vendor methods *)

Definition getVendor (id : string) : M (option Json) :=
  response <- request "GET" ("/vendor/" ++ id) None 0 ;;
  lift (property_of response "Vendor").

Definition getVendors (where_clause : option string) : M (option Json) :=
  let sql := select_where "SELECT * FROM Vendor" "SELECT * FROM Vendor"
                          where_clause in
  query sql.

Definition createVendor (vendor : Json) : M (option Json) :=
  response <- request "POST" "/vendor" (Some vendor) 0 ;;
  lift (property_of response "Vendor").

Definition updateVendor (vendor : Json) : M (option Json) :=
  response <- request "POST" "/vendor" (Some vendor) 0 ;;
  lift (property_of response "Vendor").

(** *** Bill methods *)

Definition getBill (id : string) : M (option Json) :=
  response <- request "GET" ("/bill/" ++ id) None 0 ;;
  lift (property_of response "Bill").

Definition getBills (where_clause : option string) : M (option Json) :=
  let sql := select_where "SELECT * FROM Bill" "SELECT * FROM Bill"
                          where_clause in
  query sql.

Definition createBill (bill : Json) : M (option Json) :=
  response <- request "POST" "/bill" (Some bill) 0 ;;
  lift (property_of response "Bill").

Definition updateBill (bill : Json) : M (option Json) :=
  response <- request "POST" "/bill" (Some bill) 0 ;;
  lift (property_of response "Bill").

(** *** Item methods *)

Definition getItem (id : string) : M (option Json) :=
  response <- request "GET" ("/item/" ++ id) None 0 ;;
  lift (property_of response "Item").

Definition getItems (where_clause : option string) : M (option Json) :=
  let sql := select_where "SELECT * FROM Item"
                          "SELECT * FROM Item WHERE Active = true"
                          where_clause in
  query sql.

Definition createItem (item : Json) : M (option Json) :=
  response <- request "POST" "/item" (Some item) 0 ;;
  lift (property_of response "Item").

Definition updateItem (item : Json) : M (option Json) :=
  response <- request "POST" "/item" (Some item) 0 ;;
  lift (property_of response "Item").

(** *** Utility methods *)


Definition isConnected : M bool :=
  try_catch
    (tokens <- getTokens ;;
     ret (match tokens with Some _ => true | None => false end))
    (fun _ => ret false).

Definition getConnectionStatus : M ConnectionStatus.t :=
  tokens <- getTokens ;;
  match tokens with
  | None =>
      ret {| ConnectionStatus.isConnected := false;
             ConnectionStatus.needsRefresh := false;
             ConnectionStatus.realmId := None;
             ConnectionStatus.expiresAt := None |}
  | Some tokens =>
      needsRefresh <- isTokenExpired (expires_at tokens) 300 ;;
      ret {| ConnectionStatus.isConnected := true;
             ConnectionStatus.needsRefresh := needsRefresh;
             ConnectionStatus.realmId := Some (realm_id tokens);
             ConnectionStatus.expiresAt := Some (expires_at tokens) |}
  end.

(** *** The entity methods, by entity *)

Definition read (entity : Entity) : string -> M (option Json) :=
  match entity with
  | Invoice => getInvoice
  | Customer => getCustomer
  | Payment => getPayment
  | Account => getAccount
  | Vendor => getVendor
  | Bill => getBill
  | Item => getItem
  end.

Definition list_all (entity : Entity) : option string -> M (option Json) :=
  match entity with
  | Invoice => getInvoices
  | Customer => getCustomers
  | Payment => getPayments
  | Account => getAccounts
  | Vendor => getVendors
  | Bill => getBills
  | Item => getItems
  end.

(** The methods that post an entity: [create...] and [update...]. *)
Definition writers (entity : Entity) : list (Json -> M (option Json)) :=
  match entity with
  | Invoice => [createInvoice; updateInvoice]
  | Customer => [createCustomer; updateCustomer]
  | Payment => [createPayment]
  | Account => []
  | Vendor => [createVendor; updateVendor]
  | Bill => [createBill; updateBill]
  | Item => [createItem; updateItem]
  end.

End Methods.

(** ** Observations on a trace *)

Definition fetches (tr : list Event) : list Request :=
  flat_map (fun e => match e with Fetch r => [r] | _ => [] end) tr.

Definition refreshes (tr : list Event) : list TokenRequest :=
  flat_map (fun e => match e with Refresh r => [r] | _ => [] end) tr.

Definition timeouts (tr : list Event) : list (option Z) :=
  flat_map (fun e => match e with Timeout ms => [ms] | _ => [] end) tr.

Definition clears (tr : list Event) : nat :=
  length (filter (fun e => match e with ClearTokens => true | _ => false end) tr).

(** The tokens [refreshTokens] builds from a grant received at [ms]. *)
Definition granted (data : OAuthTokenResponse) (realmId : string) (ms : Z)
    : QuickBooksTokens :=
  {| access_token := granted_access_token data;
     refresh_token := granted_refresh_token data;
     realm_id := realmId;
     expires_at := ms / 1000 + expires_in data;
     token_type := Some (granted_token_type data) |}.

(** Timestamps recorded in order, none later than [now]. *)
Fixpoint ascending_upto (now : Z) (ts : list Z) : bool :=
  match ts with
  | [] => true
  | [t] => t <=? now
  | t :: (u :: _) as rest => (t <=? u) && ascending_upto now rest
  end.

(** The world in which the [try] block of a [request] attempt starts when
    the rate window has room and the stored tokens are used as they are. *)
Definition attempting (w : World) : World :=
  emit GetTokens
    (with_requestTimestamps
       (filter (fun ts => clock w - ts <? RATE_LIMIT_WINDOW_MS)
               (requestTimestamps w) ++ [clock w]) w).

(** [w'] comes after [w]: [dt] milliseconds later, with [events] added to
    the trace, [s] in the store, [napi] more calls of the API, [ntok] more
    of the token endpoint, and at most [napi] more recorded timestamps. *)
Definition follows (w w' : World) (dt : Z) (events : list Event)
    (s : option QuickBooksTokens) (napi ntok : nat) : Prop :=
  clock w' = clock w + dt /\
  store w' = s /\
  api_calls w' = (napi + api_calls w)%nat /\
  token_calls w' = (ntok + token_calls w)%nat /\
  trace w' = trace w ++ events /\
  (length (requestTimestamps w') <= napi + length (requestTimestamps w))%nat.

(** ** The retry schedule, in the words of the specification

    The delay before the retry made at retry count [k]: the server's hint,
    a number of seconds, when it gives one; otherwise 1000 ms doubled [k]
    times. *)
Definition backoff_ms (hint : option Z) (k : nat) : Z :=
  match hint with
  | Some seconds => seconds * 1000
  | None => 1000 * 2 ^ Z.of_nat k
  end.

Definition hint_ok (hint : option Z) : Prop :=
  match hint with
  | Some seconds => 0 <= seconds
  | None => True
  end.

(** The events of [n] consecutive retried 429 attempts, the first made at
    retry count [k], and the time they take. *)
Fixpoint retried (req : Request) (hint : nat -> option Z) (k n : nat) : list Event :=
  match n with
  | O => []
  | S n' =>
      [GetTokens; Fetch req; Timeout (Some (backoff_ms (hint O) k))]
      ++ retried req (fun i => hint (S i)) (S k) n'
  end.

Fixpoint waited (hint : nat -> option Z) (k n : nat) : Z :=
  match n with
  | O => 0
  | S n' =>
      timer_elapsed (Some (backoff_ms (hint O) k))
      + waited (fun i => hint (S i)) (S k) n'
  end.

(** What [throw handleQuickBooksError(error)] throws. *)
Definition normalized (error : JsValue) : JsValue :=
  match handleQuickBooksError error with
  | Normal e => VQuickBooksError e
  | Abrupt t => t
  end.

(** The token endpoint grants every refresh. *)
Definition always_grants {remote : Remote} : Prop :=
  forall n req, exists data,
    token_endpoint n req = TokenResponded (TokenGranted data).

(** The [n]-th call of the API is answered, whatever it asks, by an [ok]
    response whose envelope unwraps to the array [rows]. *)
Definition serves_page {remote : Remote} (n : nat) (rows : list Json) : Prop :=
  forall req, exists r data,
    api n req = Responded r /\ ok r = true /\ payload r = Parsed data /\
    unwrap data = Normal (Some (JArr rows)).

(** The texts sent to the query endpoint. *)
Definition queries (tr : list Event) : list (option RequestBody) :=
  map body (fetches tr).

(** A computation that needs no fuel: it returns or throws. *)
Definition settles {A : Type} (m : M A) : Prop :=
  forall w, fst (m w) <> Pending.

(** ** The limiter's invariant, and what an operation may cost *)

(** The recorded timestamps inside the window that ends at [now]. *)
Definition in_window (now : Z) (ts : list Z) : list Z :=
  filter (fun t => now - t <? RATE_LIMIT_WINDOW_MS) ts.

(** Timestamps in recording order, none in the future, and at most
    [RATE_LIMIT] of them inside the window that ends now. *)
Definition within_limit (w : World) : Prop :=
  ascending_upto (clock w) (requestTimestamps w) = true /\
  (length (in_window (clock w) (requestTimestamps w)) <= RATE_LIMIT)%nat.

(** [w'] is not earlier than [w], and within the limit when [w] is. *)
Definition advances (w w' : World) : Prop :=
  clock w <= clock w' /\ (within_limit w -> within_limit w').

Definition keeps {A : Type} (m : M A) : Prop :=
  forall w, advances w (snd (m w)).

(** [m] makes at most [na] calls of the API and [nt] of the token endpoint. *)
Definition spends {A : Type} (na nt : nat) (m : M A) : Prop :=
  forall w,
    (api_calls w <= api_calls (snd (m w)) <= api_calls w + na)%nat /\
    (token_calls w <= token_calls (snd (m w)) <= token_calls w + nt)%nat.

(** A value with which a call of the token endpoint fails: [fetch] rejects
    with it, or [json()] does on a 2xx response. *)
Definition token_fault {remote : Remote} (e : JsValue) : Prop :=
  exists n req,
    token_endpoint n req = TokenNetworkFailure e \/
    token_endpoint n req = TokenResponded (TokenGarbled e).

Definition is_QuickBooksError (e : JsValue) : Prop :=
  exists q, e = VQuickBooksError q.

(** One of the three keys [query] passes over in an envelope. *)
Definition is_metadata (key : string) : bool :=
  existsb (String.eqb key) metadata_keys.

(** ** Reading a query string back

    The [application/x-www-form-urlencoded] parser, as [url.searchParams]
    applies it: the pieces between [&], each split at its first [=], [+]
    read as a space and [%XX] as a byte. *)

Definition hex_value (c : ascii) : option nat :=
  let n := nat_of_ascii c in
  if (Nat.leb 48 n && Nat.leb n 57)%bool then Some (n - 48)%nat
  else if (Nat.leb 65 n && Nat.leb n 70)%bool then Some (n - 55)%nat
  else if (Nat.leb 97 n && Nat.leb n 102)%bool then Some (n - 87)%nat
  else None.

Fixpoint percent_decode (s : string) : string :=
  match s with
  | EmptyString => ""
  | String c rest =>
      if Ascii.eqb c "%" then
        match rest with
        | String h (String l rest') =>
            match hex_value h, hex_value l with
            | Some x, Some y =>
                String (ascii_of_nat (16 * x + y)) (percent_decode rest')
            | _, _ => String c (percent_decode rest)
            end
        | _ => String c (percent_decode rest)
        end
      else String c (percent_decode rest)
  end.

Fixpoint split_on (sep : ascii) (s : string) : list string :=
  match s with
  | EmptyString => [""]
  | String c rest =>
      if Ascii.eqb c sep then "" :: split_on sep rest
      else match split_on sep rest with
           | piece :: pieces => String c piece :: pieces
           | [] => [String c ""]
           end
  end.

Fixpoint name_value (s : string) : string * string :=
  match s with
  | EmptyString => ("", "")
  | String c rest =>
      if Ascii.eqb c "=" then ("", rest)
      else let (name, value) := name_value rest in (String c name, value)
  end.

Fixpoint plus_to_space (s : string) : string :=
  match s with
  | EmptyString => ""
  | String c rest =>
      String (if Ascii.eqb c "+" then " "%char else c) (plus_to_space rest)
  end.

Definition form_decode (s : string) : string :=
  percent_decode (plus_to_space s).

Definition URLSearchParams_parse (query : string) : list (string * string) :=
  map (fun piece => let (name, value) := name_value piece in
                    (form_decode name, form_decode value))
      (filter (fun piece => negb (String.eqb piece "")) (split_on "&" query)).

(** [s] holds the byte [c]. *)
Fixpoint has (c : ascii) (s : string) : bool :=
  match s with
  | EmptyString => false
  | String d rest => Ascii.eqb d c || has c rest
  end.

Fixpoint all_chars (p : ascii -> bool) (s : string) : bool :=
  match s with
  | EmptyString => true
  | String c rest => p c && all_chars p rest
  end.

Definition form_pair (kv : string * string) : string :=
  form_encode (fst kv) ++ "=" ++ form_encode (snd kv).

(** A digit of lower-case hexadecimal. *)
Definition lower_hex (c : ascii) : bool :=
  let n := nat_of_ascii c in
  ((Nat.leb 48 n && Nat.leb n 57) || (Nat.leb 97 n && Nat.leb n 102))%bool.

Definition hex_pair (b : Byte.byte) : string := padStart 2 "0" (byte_toString16 b).

(** * Example environments

    A company with valid tokens at [clock = 1 000 000 ms], and a
    few scripted servers. *)
Module Scenario.

Definition options : QuickBooksClientOptions :=
  {| clientId := "client-id"; clientSecret := "client-secret";
     redirectUri := "http://localhost:3000/callback";
     environment := Some sandbox |}.

Definition tokens : QuickBooksTokens :=
  {| access_token := "access-0"; refresh_token := "refresh-0";
     realm_id := "4620816365"; expires_at := 4600;
     token_type := Some "bearer" |}.

Definition world : World :=
  {| clock := 1000000; requestTimestamps := []; store := Some tokens;
     api_calls := 0; token_calls := 0; trace := [] |}.

(** The same world with tokens that expire in exactly 300 s. *)
Definition boundary_tokens : QuickBooksTokens :=
  {| access_token := "access-0"; refresh_token := "refresh-0";
     realm_id := "4620816365"; expires_at := 1300;
     token_type := Some "bearer" |}.

Definition boundary_world : World :=
  {| clock := 1000000; requestTimestamps := []; store := Some boundary_tokens;
     api_calls := 0; token_calls := 0; trace := [] |}.

(** A client that has just made 500 calls, one per millisecond. *)
Definition busy_world : World :=
  {| clock := 1000000;
     requestTimestamps := map (fun i => 999001 + Z.of_nat i) (seq 0 500);
     store := Some tokens; api_calls := 500; token_calls := 0; trace := [] |}.

Definition fault : Json :=
  JObj [("Fault", JObj [("type", JStr "SERVICE")]); ("time", JStr "2024-01-01")].

Definition too_many (retry_after : option string) : Response :=
  {| status := 429; retryAfter := retry_after; payload := Parsed fault |}.

Definition unauthorized : Response :=
  {| status := 401; retryAfter := None; payload := Parsed fault |}.

Definition invoice : Json := JObj [("Id", JStr "1"); ("Balance", JNum 100)].

Definition found : Response :=
  {| status := 200; retryAfter := None;
     payload := Parsed (JObj [("Invoice", invoice)]) |}.

Definition grant : OAuthTokenResponse :=
  {| granted_access_token := "access-1"; granted_refresh_token := "refresh-1";
     granted_token_type := "bearer"; expires_in := 3600;
     x_refresh_token_expires_in := 8726400 |}.

Definition granting (n : nat) (req : TokenRequest) : TokenFetchResult :=
  TokenResponded (TokenGranted grant).

Definition revoked (n : nat) (req : TokenRequest) : TokenFetchResult :=
  TokenResponded
    (TokenRejected 401 (Parsed (JObj [("error", JStr "invalid_grant")]))).

(** A server that answers the calls with the listed responses, in order,
    and with [rest] from then on. *)
Definition scripted (answers : list Response) (rest : Response)
    (tokens_at : nat -> TokenRequest -> TokenFetchResult) : Remote :=
  {| config := options;
     api := fun n _ => Responded (nth n answers rest);
     token_endpoint := tokens_at |}.

(** 429 with [Retry-After: 2], then 429 three times without the header. *)
Definition throttling : Remote :=
  scripted [too_many (Some "2")] (too_many None) granting.

(** 429 once, then success. *)
Definition throttled_once : Remote := scripted [too_many None] found granting.

(** 401 whatever the token. *)
Definition rejecting : Remote := scripted [] unauthorized granting.

(** 401 from the API and from the token endpoint. *)
Definition locked_out : Remote := scripted [] unauthorized revoked.

(** 429, then 401, then success. *)
Definition throttled_then_rejected : Remote :=
  scripted [too_many None; unauthorized] found granting.

(** 401, then 429 three times, then success. *)
Definition rejected_then_throttled : Remote :=
  scripted [unauthorized; too_many None; too_many None; too_many None] found
           granting.

(** Five customers, served two to a page. *)
Definition customer (id : Z) : Json :=
  JObj [("Id", JStr (decimal id)); ("DisplayName", JStr "Customer")].

Definition customers : list Json := map customer [1; 2; 3; 4; 5].

Definition page (n : nat) : list Json := firstn 2 (skipn (2 * n) customers).

Definition envelope (start : Z) (rows : list Json) : Response :=
  {| status := 200; retryAfter := None;
     payload :=
       Parsed (JObj [("QueryResponse",
                      JObj [("Customer", JArr rows);
                            ("startPosition", JNum start);
                            ("maxResults", JNum (Z.of_nat (length rows)));
                            ("totalCount", JNum 5)]);
                     ("time", JStr "2024-01-01")]) |}.

Definition bookkeeping : Remote :=
  {| config := options;
     api := fun n _ => Responded (envelope (1 + 2 * Z.of_nat n) (page n));
     token_endpoint := granting |}.

(** A company without customers: every page is empty. *)
Definition empty_company : Remote :=
  {| config := options;
     api := fun n _ =>
              Responded
                {| status := 200; retryAfter := None;
                   payload := Parsed (JObj [("QueryResponse", JObj [])]) |};
     token_endpoint := granting |}.

(** A server error whose payload carries a message that [String] cannot
    convert. *)
Definition garbling : Remote :=
  scripted []
    {| status := 500; retryAfter := None;
       payload := Parsed (JObj [("message", JObj [("toString", JNum 1)])]) |}
    granting.

(** A message that [String] cannot convert. *)
Definition unconvertible : JsValue :=
  VData (JObj [("message", JObj [("toString", JNum 1)])]).







End Scenario.

(** * Further example environments *)
Module Cases.

Import Scenario.

(** No tokens in the store. *)
Definition disconnected : World :=
  {| clock := 1000000; requestTimestamps := []; store := None;
     api_calls := 0; token_calls := 0; trace := [] |}.

(** No network: every call fails as [fetch] does when the host cannot be
    reached. *)
Definition offline : Remote :=
  {| config := options;
     api := fun _ _ => NetworkFailure (VTypeError "fetch failed");
     token_endpoint := fun _ _ => TokenNetworkFailure (VTypeError "fetch failed") |}.

(** A token endpoint that answers 400 to the refresh token. *)
Definition refused (n : nat) (req : TokenRequest) : TokenFetchResult :=
  TokenResponded
    (TokenRejected 400 (Parsed (JObj [("error", JStr "invalid_grant")]))).

Definition stale : Remote := scripted [] found refused.

(** 404 whatever is asked. *)
Definition not_found : Response :=
  {| status := 404; retryAfter := None; payload := Parsed fault |}.

Definition missing : Remote := scripted [] not_found granting.

(** 400 with a message about the token. *)
Definition token_expired : Json :=
  JObj [("message", JStr "AuthenticationFailed: token expired")].

(** 204 without a body: [json()] rejects. *)
Definition no_content : Response :=
  {| status := 204; retryAfter := None;
     payload := Unparseable (VError "SyntaxError" "Unexpected end of JSON input") |}.

Definition silent : Remote := scripted [] no_content granting.



(** Success whatever is asked. *)
Definition serving : Remote := scripted [] found granting.




(** The first page of customers, then 404. *)
Definition failing_page : Remote :=
  {| config := options;
     api := fun n _ =>
              Responded (match n with
                         | O => envelope 1 (page 0)
                         | S _ => not_found
                         end);
     token_endpoint := granting |}.

(** The answer to a count: metadata only. *)
Definition counted : list (string * Json) := [("totalCount", JNum 5)].

Definition app_config : QuickBooksConfig :=
  {| settings := options; scopes := None |}.

(** Sixteen bytes, 0, 17, 34, ... *)
Definition dice (i : nat) : Byte.byte :=
  match Byte.of_N (N.of_nat (17 * i)) with
  | Some b => b
  | None => Byte.x00
  end.

End Cases.

(** * Properties *)

Ltac world_simpl :=
  cbn [clock requestTimestamps store api_calls token_calls trace emit tick
       with_requestTimestamps with_store count_api count_token fst snd].

Ltac run_monad :=
  cbv beta iota zeta delta
    [bind ret throw pending try_catch lift Date_now get_requestTimestamps
     set_requestTimestamps getTokens storeTokens clearTokens setTimeout].

Ltac frame :=
  unfold follows, attempting; world_simpl; rewrite <- ?app_assoc;
  repeat split; try assumption; try reflexivity; try lia;
  try (rewrite length_app; cbn [length];
       match goal with
       | |- context [filter ?f ?l] => pose proof (filter_length_le f l); lia
       end).


Section Properties.

Context {remote : Remote}.

(** ** The monad *)

Lemma bind_Return {A B : Type} (m : M A) (k : A -> M B) w a w1 :
  m w = (Return a, w1) -> bind m k w = k a w1.
Proof. intros E. unfold bind. now rewrite E. Qed.

Lemma bind_Throw {A B : Type} (m : M A) (k : A -> M B) w e w1 :
  m w = (Throw e, w1) -> bind m k w = (Throw e, w1).
Proof. intros E. unfold bind. now rewrite E. Qed.

Lemma refreshes_app tr1 tr2 :
  refreshes (tr1 ++ tr2) = refreshes tr1 ++ refreshes tr2.
Proof. unfold refreshes. now rewrite flat_map_app. Qed.

Lemma normalize_eq {A : Type} (error : JsValue) (w : World) :
  @normalize A error w = (Throw (normalized error), w).
Proof.
  unfold normalize, normalized. run_monad.
  destruct (handleQuickBooksError error); reflexivity.
Qed.

Lemma fetches_app tr1 tr2 : fetches (tr1 ++ tr2) = fetches tr1 ++ fetches tr2.
Proof. unfold fetches. now rewrite flat_map_app. Qed.

Lemma queries_app tr1 tr2 : queries (tr1 ++ tr2) = queries tr1 ++ queries tr2.
Proof. unfold queries. now rewrite fetches_app, map_app. Qed.

(** ** [handleQuickBooksError] *)

Lemma handleQuickBooksError_QuickBooksError (e : QuickBooksError) :
  handleQuickBooksError (VQuickBooksError e) = Normal e.
Proof. reflexivity. Qed.

Lemma handleQuickBooksError_idempotent (v : JsValue) (e : QuickBooksError) :
  handleQuickBooksError v = Normal e ->
  handleQuickBooksError (VQuickBooksError e) = handleQuickBooksError v.
Proof. intros E. now rewrite E. Qed.

(** Where the message converts to a string, a [QuickBooksError] comes back. *)
Lemma handleQuickBooksError_returns (v : JsValue) (s : string) :
  message_text v = Normal s ->
  exists e, handleQuickBooksError v = Normal e.
Proof.
  intros Hs. unfold handleQuickBooksError, by_message. rewrite Hs.
  destruct v; try (eexists; reflexivity);
    repeat match goal with
           | |- context [if ?c then _ else _] => destruct c
           | |- context [match ?x with _ => _ end] => destruct x
           end; eexists; reflexivity.
Qed.

(** The only way out without a [QuickBooksError] is the failed conversion
    of the message. *)
Lemma handleQuickBooksError_throws (v t : JsValue) :
  handleQuickBooksError v = Abrupt t ->
  t = cannot_convert /\ message_text v = Abrupt cannot_convert.
Proof.
  unfold handleQuickBooksError, by_message.
  assert (Hm : forall x, message_text v = Abrupt x -> x = cannot_convert).
  { unfold message_text. intros x.
    destruct (prop_message v) as [m|]; [|discriminate].
    destruct (truthy m); [|discriminate].
    destruct (js_String m); [discriminate|]. now intros [= <-]. }
  destruct (message_text v) as [s|x] eqn:E.
  - destruct v; try discriminate;
      repeat match goal with
             | |- context [if ?c then _ else _] => destruct c
             | |- context [match ?x with _ => _ end] => destruct x
             end; discriminate.
  - specialize (Hm x eq_refl). subst x.
    destruct v; try discriminate;
      repeat match goal with
             | |- context [if ?c then _ else _] => destruct c
             | |- context [match ?x with _ => _ end] => destruct x
             end; try discriminate; now intros [= <-].
Qed.

(** C9.  [handleQuickBooksError] is meant to turn every value into a
    [QuickBooksError] without throwing.  It does not on a value whose
    [message] is an object with an own [toString] member, as parsed JSON may
    be: [String(err.message || "")] throws a [TypeError], and so does
    [handleQuickBooksError].  (A [QuickBooksError] is returned unchanged, and
    wherever a result comes back a second application returns it again: the
    lemmas above.) *)
Theorem handleQuickBooksError_unconvertible_message :
  handleQuickBooksError Scenario.unconvertible = Abrupt cannot_convert.
Proof. reflexivity. Qed.

(** The members of a payload are spread over the HTTP status: a payload
    with a [status] of its own decides the kind of the error. *)
Lemma error_object_payload_status :
  handleQuickBooksError (error_object 429 (JObj [("status", JNum 500)]))
  = Normal (default_error (VData (JObj [("status", JNum 500)]))).
Proof. reflexivity. Qed.

(** ** Decimal numerals *)

Lemma read_digits_acc (d : Decimal.uint) (p : positive) :
  read_digits (NilEmpty.string_of_uint d) (Some (Z.pos p))
  = Some (Z.pos (Pos.of_uint_acc d p)).
Proof.
  revert p. induction d; intros p; cbn [NilEmpty.string_of_uint read_digits];
    [reflexivity|..];
    match goal with
    | |- context [digit_of ?c] =>
        let v := eval vm_compute in (digit_of c) in
        change (digit_of c) with v; cbv iota beta
    end;
    cbn [Pos.of_uint_acc]; rewrite <- IHd; do 2 f_equal; lia.
Qed.

Lemma read_digits_zero (d : Decimal.uint) :
  read_digits (NilEmpty.string_of_uint d) (Some 0) = Some (Z.of_uint d).
Proof.
  unfold Z.of_uint.
  induction d; cbn [NilEmpty.string_of_uint read_digits Pos.of_uint];
    [reflexivity|..];
    match goal with
    | |- context [digit_of ?c] =>
        let v := eval vm_compute in (digit_of c) in
        change (digit_of c) with v; cbv iota beta
    end.
  1: exact IHd.
  all: cbn [Z.of_N]; rewrite <- read_digits_acc; reflexivity.
Qed.

Lemma parseInt_decimal (n : Z) : 0 <= n -> parseInt (decimal n) = Some n.
Proof.
  intros Hn. unfold decimal.
  rewrite <- (DecimalZ.of_to n) at 2.
  destruct (Z.to_int n) as [d|d] eqn:E.
  - cbn [NilZero.string_of_int Z.of_int]. rewrite <- read_digits_zero.
    destruct d; try reflexivity.
  - destruct n; try discriminate. lia.
Qed.

Lemma decimal_nonempty (n : Z) : String.eqb (decimal n) "" = false.
Proof.
  unfold decimal. destruct (Z.to_int n) as [d|d]; [destruct d|]; reflexivity.
Qed.

(** ** The rate limiter *)

Lemma ascending_upto_cons now t u r :
  ascending_upto now (t :: u :: r) = (t <=? u) && ascending_upto now (u :: r).
Proof. reflexivity. Qed.

Lemma ascending_upto_bounds now ts :
  ascending_upto now ts = true ->
  Forall (fun t => t <= now) ts /\
  match ts with [] => True | t :: rest => Forall (fun u => t <= u) rest end.
Proof.
  induction ts as [|t [|u rest] IH]; intros H.
  - split; constructor.
  - cbn in H. apply Z.leb_le in H. split; repeat constructor; assumption.
  - rewrite ascending_upto_cons in H. apply andb_true_iff in H as [H1 H2]. apply Z.leb_le in H1.
    destruct (IH H2) as [Ha Hb]. split.
    + constructor; [|assumption]. inversion Ha; subst. lia.
    + constructor; [assumption|]. eapply Forall_impl; [|exact Hb]. cbn. intros; lia.
Qed.

Lemma ascending_upto_filter now (f : Z -> bool) ts :
  ascending_upto now ts = true -> ascending_upto now (filter f ts) = true.
Proof.
  intros H. destruct (ascending_upto_bounds _ _ H) as [Hle _]. clear Hle.
  induction ts as [|t rest IH]; [reflexivity|].
  assert (Hrest : ascending_upto now rest = true).
  { destruct rest as [|u r]; [reflexivity|]. rewrite ascending_upto_cons in H.
    now apply andb_true_iff in H as [_ H]. }
  destruct (ascending_upto_bounds _ _ H) as [Hle Hlow].
  specialize (IH Hrest). cbn [filter]. destruct (f t); [|exact IH].
  destruct (filter f rest) as [|u r] eqn:Ef.
  - cbn. apply Z.leb_le. now inversion Hle.
  - rewrite ascending_upto_cons, IH, andb_true_r. apply Z.leb_le.
    assert (Hin : In u (filter f rest)) by (rewrite Ef; now left).
    apply filter_In in Hin as [Hin _].
    rewrite Forall_forall in Hlow. now apply Hlow.
Qed.

Lemma timer_elapsed_pos (d : option Z) : 1 <= timer_elapsed d.
Proof.
  unfold timer_elapsed. destruct d as [d|]; [|lia].
  destruct (1 <=? d) eqn:E; cbn; [|lia]. apply Z.leb_le in E.
  destruct (d <=? 2147483647); lia.
Qed.

Lemma timer_elapsed_in_range (d : Z) :
  1 <= d <= 2147483647 -> timer_elapsed (Some d) = d.
Proof.
  intros [H1 H2]. unfold timer_elapsed.
  apply Z.leb_le in H1, H2. now rewrite H1, H2.
Qed.

(** C8.  Every call of [checkRateLimit] first keeps only the timestamps
    less than 60000 ms old.  If 500 or more remain it awaits a timer of
    exactly [60000 - (now - oldest) + 100] ms, [oldest] being the first and
    smallest of them, and otherwise it proceeds at once; in both cases it
    then appends the time it reads after that to the timestamps.  The
    timestamps are taken in the order [checkRateLimit] itself records
    them: ascending and not in the future. *)
Theorem checkRateLimit_window w :
  ascending_upto (clock w) (requestTimestamps w) = true ->
  let now := clock w in
  let kept := filter (fun ts => now - ts <? 60000) (requestTimestamps w) in
  exists w',
    checkRateLimit w = (Return tt, w') /\
    store w' = store w /\
    if Nat.leb 500 (length kept) then
      exists oldest later,
        kept = oldest :: later /\ Forall (fun ts => oldest <= ts) later /\
        let wait := 60000 - (now - oldest) + 100 in
        trace w' = trace w ++ [Timeout (Some wait)] /\
        clock w' = now + wait /\
        requestTimestamps w' = kept ++ [now + wait]
    else
      trace w' = trace w /\ clock w' = now /\
      requestTimestamps w' = kept ++ [now].
Proof.
  intros Hasc now kept.
  pose proof (ascending_upto_filter now (fun ts => now - ts <? 60000) _ Hasc) as Hf.
  assert (Hsub : forall ts, In ts kept -> now - ts < 60000 /\ ts <= now).
  { intros ts Hin. apply filter_In in Hin as [Hin Hlt]. apply Z.ltb_lt in Hlt.
    destruct (ascending_upto_bounds _ _ Hasc) as [Hle _].
    rewrite Forall_forall in Hle. split; [assumption|now apply Hle]. }
  unfold checkRateLimit, bind, Date_now, get_requestTimestamps,
    set_requestTimestamps, ret, setTimeout.
  cbv beta iota zeta.
  cbn [clock requestTimestamps store api_calls token_calls trace emit tick
       with_requestTimestamps].
  fold now. unfold RATE_LIMIT_WINDOW_MS, RATE_LIMIT.
  change (60 * 1000) with 60000. fold kept in Hf |- *. clearbody kept.
  destruct (Nat.leb 500 (length kept)) eqn:Hfull.
  - destruct kept as [|oldest later]; [discriminate|].
    destruct (Hsub oldest (or_introl eq_refl)) as [Hlt Hle].
    assert (Hel : timer_elapsed (Some (60000 - (now - oldest) + 100))
                  = 60000 - (now - oldest) + 100).
    { apply timer_elapsed_in_range. lia. }
    eexists. split; [reflexivity|]. split; [reflexivity|].
    exists oldest, later. split; [reflexivity|]. split.
    + now destruct (ascending_upto_bounds _ _ Hf) as [_ Hb].
    + cbn [clock requestTimestamps trace emit tick with_requestTimestamps hd].
      rewrite Hel. repeat split; reflexivity.
  - eexists. split; [reflexivity|]. cbn. repeat split; reflexivity.
Qed.


(** The order assumed above is kept by [checkRateLimit] itself, and by
    the passing of time. *)
Lemma ascending_upto_later now now' ts :
  ascending_upto now ts = true -> now <= now' -> ascending_upto now' ts = true.
Proof.
  intros H Hle. induction ts as [|t [|u rest] IH]; [reflexivity| |].
  - cbn in *. apply Z.leb_le in H. apply Z.leb_le. lia.
  - rewrite ascending_upto_cons in *. apply andb_true_iff in H as [H1 H2].
    now rewrite H1, IH.
Qed.

Lemma ascending_upto_snoc now ts :
  ascending_upto now ts = true -> ascending_upto now (ts ++ [now]) = true.
Proof.
  intros H. induction ts as [|t [|u rest] IH].
  - cbn. apply Z.leb_refl.
  - cbn in *. now rewrite H, Z.leb_refl.
  - cbn [app] in *. rewrite ascending_upto_cons in *.
    apply andb_true_iff in H as [H1 H2]. now rewrite H1, IH.
Qed.

Lemma checkRateLimit_keeps_order w :
  ascending_upto (clock w) (requestTimestamps w) = true ->
  let w' := snd (checkRateLimit w) in
  ascending_upto (clock w') (requestTimestamps w') = true.
Proof.
  intros Hasc.
  pose proof (ascending_upto_filter (clock w)
                (fun ts => clock w - ts <? RATE_LIMIT_WINDOW_MS) _ Hasc) as Hf.
  unfold checkRateLimit. run_monad. world_simpl.
  destruct (Nat.leb RATE_LIMIT _); world_simpl.
  - apply ascending_upto_snoc. eapply ascending_upto_later; [exact Hf|].
    pose proof (timer_elapsed_pos
                  (Some (RATE_LIMIT_WINDOW_MS
                         - (clock w
                            - hd 0 (filter (fun ts => clock w - ts <? RATE_LIMIT_WINDOW_MS)
                                           (requestTimestamps w))) + 100))).
    lia.
  - now apply ascending_upto_snoc.
Qed.

(** ** Tokens and [request] *)

Lemma checkRateLimit_room w :
  (length (requestTimestamps w) < RATE_LIMIT)%nat ->
  checkRateLimit w =
  (Return tt,
   with_requestTimestamps
     (filter (fun ts => clock w - ts <? RATE_LIMIT_WINDOW_MS) (requestTimestamps w)
      ++ [clock w]) w).
Proof.
  intros Hroom.
  unfold checkRateLimit. run_monad. world_simpl.
  pose proof (filter_length_le (fun ts => clock w - ts <? RATE_LIMIT_WINDOW_MS)
                (requestTimestamps w)) as Hle.
  destruct (Nat.leb RATE_LIMIT _) eqn:Hfull.
  - apply Nat.leb_le in Hfull. lia.
  - reflexivity.
Qed.

Lemma getValidTokens_fresh w t :
  store w = Some t ->
  clock w / 1000 + 300 < expires_at t ->
  getValidTokens w = (Return t, emit GetTokens w).
Proof.
  intros Hs Hf. unfold getValidTokens, isTokenExpired. run_monad.
  rewrite Hs. world_simpl.
  destruct (expires_at t - 300 <=? clock w / 1000) eqn:E; [|reflexivity].
  apply Z.leb_le in E. lia.
Qed.

(** C2, as amended.  For every stored credential record, [getValidTokens]
    calls the token endpoint, once, exactly when [expires_at <= now + 300]
    ([now] in epoch seconds), the boundary included, and then returns and
    stores the refreshed tokens when the grant succeeds; when
    [expires_at > now + 300] it returns the stored tokens and does nothing
    but read the store. *)
Theorem getValidTokens_refreshes_within_buffer w t :
  store w = Some t ->
  let now := clock w / 1000 in
  let grant := refresh_request (refresh_token t) in
  (expires_at t <= now + 300 ->
     refreshes (trace (snd (getValidTokens w))) = refreshes (trace w) ++ [grant] /\
     forall data,
       token_endpoint (token_calls w) grant = TokenResponded (TokenGranted data) ->
       fst (getValidTokens w) = Return (granted data (realm_id t) (clock w)) /\
       store (snd (getValidTokens w)) = Some (granted data (realm_id t) (clock w)))
  /\
  (now + 300 < expires_at t ->
     getValidTokens w = (Return t, emit GetTokens w)).
Proof.
  intros Hs now grant. split.
  - intros Hexp.
    assert (E : (expires_at t - 300 <=? clock w / 1000) = true).
    { apply Z.leb_le. subst now. lia. }
    unfold getValidTokens, isTokenExpired, refreshTokens, fetch_token,
      calculateTokenExpiry. run_monad. rewrite Hs. world_simpl. rewrite E.
    world_simpl. fold grant.
    destruct (token_endpoint (token_calls w) grant)
      as [reason|[s p|data|reason]]; world_simpl.
    + split; [|discriminate].
      destruct reason as [|j|s|n s|[s c [st|] d]]; cbn [qb_status]; world_simpl;
        try destruct (st =? 401); world_simpl;
        rewrite !refreshes_app; cbn; now rewrite !app_nil_r.
    + split; [|discriminate].
      cbn [qb_status]. destruct (s =? 401); world_simpl;
        rewrite !refreshes_app; cbn; now rewrite !app_nil_r.
    + split.
      * rewrite !refreshes_app. cbn. now rewrite !app_nil_r.
      * intros data' [= <-]. split; reflexivity.
    + split; [|discriminate].
      destruct reason as [|j|s|n s|[s c [st|] d]]; cbn [qb_status]; world_simpl;
        try destruct (st =? 401); world_simpl;
        rewrite !refreshes_app; cbn; now rewrite !app_nil_r.
  - intros Hfresh. apply getValidTokens_fresh; assumption.
Qed.

Lemma request_go_attempt f m e b k w t :
  store w = Some t ->
  clock w / 1000 + 300 < expires_at t ->
  (length (requestTimestamps w) < RATE_LIMIT)%nat ->
  request_go (S f) m e b k w
  = bind (attempt m e b k t)
         (fun step => match step with
                      | Done result => ret result
                      | Again => request_go f m e b (S k)
                      end) (attempting w).
Proof.
  intros Hs Hf Hroom. cbn [request_go].
  rewrite (bind_Return _ _ _ _ _ (checkRateLimit_room w Hroom)).
  erewrite bind_Return; [reflexivity|].
  apply getValidTokens_fresh; world_simpl; assumption.
Qed.

Lemma attempting_length w :
  (length (requestTimestamps (attempting w)) <= 1 + length (requestTimestamps w))%nat.
Proof.
  unfold attempting. world_simpl. rewrite length_app. cbn [length].
  pose proof (filter_length_le (fun ts => clock w - ts <? RATE_LIMIT_WINDOW_MS)
                (requestTimestamps w)). lia.
Qed.

Lemma request_go_429 f m e b k w t r :
  store w = Some t ->
  clock w / 1000 + 300 < expires_at t ->
  (length (requestTimestamps w) < RATE_LIMIT)%nat ->
  api (api_calls w) (api_request m e b t) = Responded r ->
  status r = 429 ->
  (k < MAX_RETRIES)%nat ->
  let d := retry_delay (retryAfter r) k in
  exists w1,
    request_go (S f) m e b k w = request_go f m e b (S k) w1 /\
    follows w w1 (timer_elapsed d)
            [GetTokens; Fetch (api_request m e b t); Timeout d] (Some t) 1 0.
Proof.
  intros Hs Hf Hroom Hapi Hst Hk d.
  rewrite (request_go_attempt f m e b k w t Hs Hf Hroom).
  unfold attempt, fetch. run_monad. unfold attempting at 1. world_simpl.
  rewrite Hapi, Hst. apply Nat.ltb_lt in Hk. rewrite Hk.
  cbn [Z.eqb Pos.eqb andb]. fold d.
  eexists. split; [reflexivity|].
  frame.
Qed.

Lemma request_go_401_refresh f m e b w t r data :
  store w = Some t ->
  clock w / 1000 + 300 < expires_at t ->
  (length (requestTimestamps w) < RATE_LIMIT)%nat ->
  api (api_calls w) (api_request m e b t) = Responded r ->
  status r = 401 ->
  token_endpoint (token_calls w) (refresh_request (refresh_token t))
  = TokenResponded (TokenGranted data) ->
  let t' := granted data (realm_id t) (clock w) in
  exists w1,
    request_go (S f) m e b 0 w = request_go f m e b 1 w1 /\
    follows w w1 0
            [GetTokens; Fetch (api_request m e b t); GetTokens;
             Refresh (refresh_request (refresh_token t)); StoreTokens t']
            (Some t') 1 1.
Proof.
  intros Hs Hf Hroom Hapi Hst Htok t'.
  rewrite (request_go_attempt f m e b 0 w t Hs Hf Hroom).
  unfold attempt, fetch, refreshTokens, fetch_token, calculateTokenExpiry.
  run_monad. unfold attempting at 1. world_simpl.
  rewrite Hapi, Hst. cbn [Z.eqb Pos.eqb andb Nat.ltb Nat.leb MAX_RETRIES].
  unfold attempting at 1. world_simpl. rewrite Hs.
  unfold attempting at 1. world_simpl. rewrite Htok.
  unfold attempting at 1. world_simpl. fold (granted data (realm_id t) (clock w)). fold t'.
  eexists. split; [reflexivity|]. frame.
Qed.

Lemma request_go_401_rejected f m e b w t r s p :
  store w = Some t ->
  clock w / 1000 + 300 < expires_at t ->
  (length (requestTimestamps w) < RATE_LIMIT)%nat ->
  api (api_calls w) (api_request m e b t) = Responded r ->
  status r = 401 ->
  token_endpoint (token_calls w) (refresh_request (refresh_token t))
  = TokenResponded (TokenRejected s p) ->
  exists w1,
    request_go (S f) m e b 0 w
    = (Throw (VQuickBooksError
                (mkQuickBooksError
                   ("Failed to refresh tokens: " ++ decimal s)%string
                   QB_ERROR_CODES.REFRESH_FAILED (Some s)
                   (VData (errorData p)))), w1) /\
    follows w w1 0
            [GetTokens; Fetch (api_request m e b t); GetTokens;
             Refresh (refresh_request (refresh_token t))]
            (Some t) 1 1.
Proof.
  intros Hs Hf Hroom Hapi Hst Htok.
  rewrite (request_go_attempt f m e b 0 w t Hs Hf Hroom).
  unfold attempt, fetch, refreshTokens, fetch_token, normalize.
  run_monad. unfold attempting at 1. world_simpl.
  rewrite Hapi, Hst. cbn [Z.eqb Pos.eqb andb Nat.ltb Nat.leb MAX_RETRIES].
  unfold attempting at 1. world_simpl. rewrite Hs.
  unfold attempting at 1. world_simpl. rewrite Htok.
  cbn [handleQuickBooksError]. run_monad.
  eexists. split; [reflexivity|]. frame.
Qed.

(** A response that is neither [ok] nor retried at this retry count. *)
Lemma request_go_error f m e b k w t r :
  store w = Some t ->
  clock w / 1000 + 300 < expires_at t ->
  (length (requestTimestamps w) < RATE_LIMIT)%nat ->
  api (api_calls w) (api_request m e b t) = Responded r ->
  ok r = false ->
  (status r =? 429) && Nat.ltb k MAX_RETRIES = false ->
  (status r =? 401) && Nat.ltb k 1 = false ->
  exists w1,
    request_go (S f) m e b k w
    = normalize (error_object (status r) (errorData (payload r))) w1 /\
    follows w w1 0 [GetTokens; Fetch (api_request m e b t)] (Some t) 1 0.
Proof.
  intros Hs Hf Hroom Hapi Hok H429 H401.
  rewrite (request_go_attempt f m e b k w t Hs Hf Hroom).
  unfold attempt, fetch, finish. run_monad. unfold attempting at 1. world_simpl.
  rewrite Hapi, H429, H401, Hok. cbn [negb].
  exists (emit (Fetch (api_request m e b t)) (count_api (attempting w))). split.
  - unfold normalize. run_monad.
    destruct (handleQuickBooksError _); reflexivity.
  - frame.
Qed.

Lemma request_go_ok f m e b k w t r j :
  store w = Some t ->
  clock w / 1000 + 300 < expires_at t ->
  (length (requestTimestamps w) < RATE_LIMIT)%nat ->
  api (api_calls w) (api_request m e b t) = Responded r ->
  ok r = true ->
  payload r = Parsed j ->
  exists w1,
    request_go (S f) m e b k w = (Return j, w1) /\
    follows w w1 0 [GetTokens; Fetch (api_request m e b t)] (Some t) 1 0.
Proof.
  intros Hs Hf Hroom Hapi Hok Hj.
  rewrite (request_go_attempt f m e b k w t Hs Hf Hroom).
  unfold attempt, fetch, finish. run_monad. unfold attempting at 1. world_simpl.
  rewrite Hapi.
  assert (H429 : (status r =? 429) = false).
  { unfold ok in Hok. apply andb_true_iff in Hok as [_ H]. apply Z.leb_le in H.
    apply Z.eqb_neq. lia. }
  assert (H401 : (status r =? 401) = false).
  { unfold ok in Hok. apply andb_true_iff in Hok as [_ H]. apply Z.leb_le in H.
    apply Z.eqb_neq. lia. }
  rewrite H429, H401, Hok, Hj. cbn [andb negb].
  eexists. split; [reflexivity|]. frame.
Qed.

Lemma retry_delay_hint (hint : option Z) (k : nat) :
  hint_ok hint ->
  retry_delay (option_map decimal hint) k = Some (backoff_ms hint k).
Proof.
  destruct hint as [n|]; cbn; [|reflexivity].
  intros Hn. unfold retry_delay. rewrite decimal_nonempty. cbn [negb].
  now rewrite parseInt_decimal.
Qed.

Lemma still_fresh (t : QuickBooksTokens) (c c' : Z) :
  c' / 1000 + 300 < expires_at t -> c <= c' -> c / 1000 + 300 < expires_at t.
Proof.
  intros H Hle. pose proof (Z.div_le_mono c c' 1000 ltac:(lia) Hle). lia.
Qed.

(** A payload without a [status] of its own leaves the HTTP status to
    decide. *)
Lemma handleQuickBooksError_429 (data : Json) :
  get_prop "status" (own_props data) = None ->
  handleQuickBooksError (error_object 429 data)
  = Normal (mkQuickBooksError "QuickBooks API rate limit exceeded"
              QB_ERROR_CODES.RATE_LIMIT (Some 429) (error_object 429 data)).
Proof.
  intros Hnone. unfold handleQuickBooksError, error_object.
  now rewrite Hnone.
Qed.

Lemma handleQuickBooksError_401 (data : Json) :
  get_prop "status" (own_props data) = None ->
  handleQuickBooksError (error_object 401 data)
  = Normal (mkQuickBooksError "Unauthorized access to QuickBooks API"
              QB_ERROR_CODES.UNAUTHORIZED (Some 401) (error_object 401 data)).
Proof.
  intros Hnone. unfold handleQuickBooksError, error_object.
  now rewrite Hnone.
Qed.

Lemma normalize_429 {A : Type} (data : Json) (w : World) :
  get_prop "status" (own_props data) = None ->
  @normalize A (error_object 429 data) w
  = (Throw (VQuickBooksError
              (mkQuickBooksError "QuickBooks API rate limit exceeded"
                 QB_ERROR_CODES.RATE_LIMIT (Some 429) (error_object 429 data))), w).
Proof.
  intros H. rewrite normalize_eq. unfold normalized.
  now rewrite handleQuickBooksError_429.
Qed.

Lemma normalize_401 {A : Type} (data : Json) (w : World) :
  get_prop "status" (own_props data) = None ->
  @normalize A (error_object 401 data) w
  = (Throw (VQuickBooksError
              (mkQuickBooksError "Unauthorized access to QuickBooks API"
                 QB_ERROR_CODES.UNAUTHORIZED (Some 401) (error_object 401 data))), w).
Proof.
  intros H. rewrite normalize_eq. unfold normalized.
  now rewrite handleQuickBooksError_401.
Qed.

Lemma waited_nonneg hint k n : 0 <= waited hint k n.
Proof.
  revert hint k. induction n as [|n IH]; intros hint k; cbn [waited]; [lia|].
  pose proof (timer_elapsed_pos (Some (backoff_ms (hint O) k))).
  specialize (IH (fun i => hint (S i)) (S k)). lia.
Qed.

Lemma request_go_429_run m e b t n :
  forall f k w (r : nat -> Response) (hint : nat -> option Z),
  (k + n <= MAX_RETRIES)%nat ->
  store w = Some t ->
  (clock w + waited hint k n) / 1000 + 300 < expires_at t ->
  (length (requestTimestamps w) + n <= RATE_LIMIT)%nat ->
  (forall i, (i < n)%nat ->
     api (i + api_calls w) (api_request m e b t) = Responded (r i) /\
     status (r i) = 429 /\
     retryAfter (r i) = option_map decimal (hint i) /\ hint_ok (hint i)) ->
  exists w1,
    request_go (n + f) m e b k w = request_go f m e b (k + n) w1 /\
    follows w w1 (waited hint k n) (retried (api_request m e b t) hint k n)
            (Some t) n 0.
Proof.
  induction n as [|n IH]; intros f k w r hint Hk Hs Hf Hroom Hr.
  - exists w. rewrite Nat.add_0_r. split; [reflexivity|].
    unfold follows. cbn [waited retried]. rewrite Z.add_0_r, app_nil_r.
    repeat split; try assumption; try reflexivity.
  - destruct (Hr O ltac:(lia)) as (A0 & S0 & R0 & K0).
    pose proof (waited_nonneg (fun i => hint (S i)) (S k) n) as Hw.
    pose proof (timer_elapsed_pos (Some (backoff_ms (hint O) k))) as Hp.
    cbn [waited] in Hf.
    destruct (request_go_429 (n + f) m e b k w t (r O)) as (w1 & E1 & F1);
      try assumption; try (unfold RATE_LIMIT, MAX_RETRIES in *; lia).
    { eapply still_fresh; [exact Hf|]. lia. }
    rewrite R0, (retry_delay_hint _ _ K0) in F1.
    destruct F1 as (C1 & St1 & Ap1 & Tk1 & Tr1 & L1).
    destruct (IH f (S k) w1 (fun i => r (S i)) (fun i => hint (S i)))
      as (w2 & E2 & F2); try assumption; try lia.
    { eapply still_fresh; [exact Hf|]. lia. }
    { intros i Hi. rewrite Ap1.
      replace (i + (1 + api_calls w))%nat with (S i + api_calls w)%nat by lia.
      apply Hr. lia. }
    destruct F2 as (C2 & St2 & Ap2 & Tk2 & Tr2 & L2).
    exists w2. split.
    + cbn [Nat.add]. rewrite E1, E2. f_equal. lia.
    + unfold follows. cbn [waited retried].
      rewrite C2, C1, Ap2, Ap1, Tk2, Tk1, Tr2, Tr1, <- !app_assoc.
      repeat split; try assumption; try reflexivity; try lia.
Qed.




Lemma refreshes_retried req hint k n : refreshes (retried req hint k n) = [].
Proof.
  revert hint k. induction n as [|n IH]; intros hint k; [reflexivity|].
  cbn [retried]. rewrite refreshes_app, IH. reflexivity.
Qed.


(** C4.  The refresh that [request] forces after a 401, when the token
    endpoint answers it with status 401: the refresh failure is what is
    thrown, but [clearTokens] is not called and the dead credentials stay in
    the store.  ([getValidTokens] does clear them in the same situation:
    [getValidTokens_refresh_401_clears] below.) *)
Theorem request_forced_refresh_401_keeps_tokens m e b w t r0 p :
  store w = Some t ->
  clock w / 1000 + 300 < expires_at t ->
  (length (requestTimestamps w) < RATE_LIMIT)%nat ->
  api (api_calls w) (api_request m e b t) = Responded r0 ->
  status r0 = 401 ->
  token_endpoint (token_calls w) (refresh_request (refresh_token t))
  = TokenResponded (TokenRejected 401 p) ->
  exists w',
    request m e b 0 w
    = (Throw (VQuickBooksError
                (mkQuickBooksError "Failed to refresh tokens: 401"
                   QB_ERROR_CODES.REFRESH_FAILED (Some 401)
                   (VData (errorData p)))), w') /\
    trace w' = trace w ++
      [GetTokens; Fetch (api_request m e b t);
       GetTokens; Refresh (refresh_request (refresh_token t))] /\
    clears (trace w') = clears (trace w) /\
    store w' = Some t.
Proof.
  intros Hs Hf Hroom A0 S0 Htok.
  unfold request. change (S (MAX_RETRIES - 0)) with 4%nat.
  destruct (request_go_401_rejected 3 m e b w t r0 401 p) as (w1 & E1 & F1);
    try assumption.
  destruct F1 as (C1 & St1 & Ap1 & Tk1 & Tr1 & L1).
  exists w1. split; [exact E1|]. split; [exact Tr1|]. split; [|exact St1].
  rewrite Tr1. unfold clears. rewrite filter_app, length_app. cbn. lia.
Qed.

(** The refresh made by [getValidTokens], for comparison: a 401 from the
    token endpoint clears the store once, and the failure itself is thrown. *)
Lemma getValidTokens_refresh_401_clears w t p :
  store w = Some t ->
  expires_at t <= clock w / 1000 + 300 ->
  token_endpoint (token_calls w) (refresh_request (refresh_token t))
  = TokenResponded (TokenRejected 401 p) ->
  getValidTokens w
  = (Throw (VQuickBooksError
              (mkQuickBooksError "Failed to refresh tokens: 401"
                 QB_ERROR_CODES.REFRESH_FAILED (Some 401)
                 (VData (errorData p)))),
     emit ClearTokens
       (with_store None
          (emit (Refresh (refresh_request (refresh_token t)))
             (count_token (emit GetTokens w))))).
Proof.
  intros Hs He Htok.
  unfold getValidTokens, isTokenExpired, refreshTokens, fetch_token. run_monad.
  rewrite Hs. world_simpl.
  destruct (expires_at t - 300 <=? clock w / 1000) eqn:E.
  2: { apply Z.leb_gt in E. lia. }
  world_simpl. rewrite Htok. reflexivity.
Qed.

(** C3, as amended.  The two ladders of [request] share one retry counter.
    After one to three retries triggered by 429 responses, a 401 is not
    retried: no refresh is attempted, and the response is normalized and
    thrown at once.  And the retry triggered by a first 401 uses up one of
    the three retries: of the 429 responses that follow only two are
    retried, with the delays of retry counts 1 and 2, and the third is
    normalized and thrown.  What is thrown is UNAUTHORIZED in the first
    case and RATE_LIMIT in the second when the payload of the response has
    no [status] member of its own. *)
Theorem request_retry_counter_is_shared m e b :
  (forall n w t (r : nat -> Response) (hint : nat -> option Z),
     let req := api_request m e b t in
     let data := errorData (payload (r n)) in
     let thrown := normalized (error_object 401 data) in
     (1 <= n <= MAX_RETRIES)%nat ->
     store w = Some t ->
     (clock w + waited hint 0 n) / 1000 + 300 < expires_at t ->
     (length (requestTimestamps w) + S n <= RATE_LIMIT)%nat ->
     (forall i, (i < n)%nat ->
        api (i + api_calls w) req = Responded (r i) /\
        status (r i) = 429 /\
        retryAfter (r i) = option_map decimal (hint i) /\ hint_ok (hint i)) ->
     api (n + api_calls w) req = Responded (r n) ->
     status (r n) = 401 ->
     exists w',
       request m e b 0 w = (Throw thrown, w') /\
       trace w' = trace w ++ retried req hint 0 n ++ [GetTokens; Fetch req] /\
       refreshes (trace w') = refreshes (trace w) /\
       (get_prop "status" (own_props data) = None ->
        thrown = VQuickBooksError
                   (mkQuickBooksError "Unauthorized access to QuickBooks API"
                      QB_ERROR_CODES.UNAUTHORIZED (Some 401)
                      (error_object 401 data))))
  /\
  (forall w t data (r : nat -> Response),
     let t' := granted data (realm_id t) (clock w) in
     let req := api_request m e b t in
     let req' := api_request m e b t' in
     let data3 := errorData (payload (r 3%nat)) in
     let thrown := normalized (error_object 429 data3) in
     store w = Some t ->
     clock w / 1000 + 300 < expires_at t ->
     (clock w + 6000) / 1000 + 300 < clock w / 1000 + expires_in data ->
     (length (requestTimestamps w) + 4 <= RATE_LIMIT)%nat ->
     api (api_calls w) req = Responded (r 0%nat) ->
     status (r 0%nat) = 401 ->
     token_endpoint (token_calls w) (refresh_request (refresh_token t))
     = TokenResponded (TokenGranted data) ->
     (forall i, (1 <= i <= 3)%nat ->
        api (i + api_calls w) req' = Responded (r i) /\
        status (r i) = 429 /\ retryAfter (r i) = None) ->
     exists w',
       request m e b 0 w = (Throw thrown, w') /\
       trace w' = trace w ++
         [GetTokens; Fetch req;
          GetTokens; Refresh (refresh_request (refresh_token t)); StoreTokens t';
          GetTokens; Fetch req'; Timeout (Some 2000);
          GetTokens; Fetch req'; Timeout (Some 4000);
          GetTokens; Fetch req'] /\
       (get_prop "status" (own_props data3) = None ->
        thrown = VQuickBooksError
                   (mkQuickBooksError "QuickBooks API rate limit exceeded"
                      QB_ERROR_CODES.RATE_LIMIT (Some 429)
                      (error_object 429 data3)))).
Proof.
  split.
  - intros n w t r hint req data thrown Hn Hs Hf Hroom Hr An Sn.
    unfold request. change (S (MAX_RETRIES - 0)) with 4%nat.
    unfold MAX_RETRIES in Hn.
    replace 4%nat with (n + (S (3 - n)))%nat by lia.
    destruct (request_go_429_run m e b t n (S (3 - n)) 0%nat w r hint)
      as (w1 & E1 & F1); try assumption;
      try (unfold RATE_LIMIT, MAX_RETRIES in *; lia).
    rewrite E1. destruct F1 as (C1 & St1 & Ap1 & Tk1 & Tr1 & L1).
    pose proof (waited_nonneg hint 0 n) as Hw.
    destruct (request_go_error (3 - n) m e b (0 + n)%nat w1 t (r n))
      as (w2 & E2 & F2); try assumption;
      try (unfold RATE_LIMIT in *; lia).
    { now rewrite C1. }
    { now rewrite Ap1. }
    { unfold ok. rewrite Sn. reflexivity. }
    { rewrite Sn. cbn [Z.eqb Pos.eqb andb]. apply Nat.ltb_ge. lia. }
    rewrite E2, Sn, normalize_eq.
    destruct F2 as (C2 & St2 & Ap2 & Tk2 & Tr2 & L2).
    eexists. split; [reflexivity|].
    rewrite Tr2, Tr1, <- !app_assoc. split; [reflexivity|]. split.
    + rewrite !refreshes_app, refreshes_retried. cbn. now rewrite app_nil_r.
    + intros Hnone. subst thrown.
      pose proof (@normalize_401 unit data w Hnone) as H.
      rewrite normalize_eq in H. now injection H.
  - intros w t data r t' req req' data3 thrown Hs Hf Hlife Hroom A0 S0 Htok Hr.
    unfold request. change (S (MAX_RETRIES - 0)) with 4%nat.
    destruct (request_go_401_refresh 3 m e b w t (r 0%nat) data)
      as (w1 & E1 & F1); try assumption; try (unfold RATE_LIMIT in *; lia).
    fold t' in F1. rewrite E1.
    destruct F1 as (C1 & St1 & Ap1 & Tk1 & Tr1 & L1).
    destruct (request_go_429_run m e b t' 2 1 1%nat w1 (fun i => r (S i))
                (fun _ => None)) as (w2 & E2 & F2);
      try assumption; try (unfold RATE_LIMIT, MAX_RETRIES in *; lia).
    { rewrite C1, Z.add_0_r. subst t'. cbn [granted expires_at waited backoff_ms].
      change (timer_elapsed (Some (1000 * 2 ^ Z.of_nat 1))) with 2000.
      change (timer_elapsed (Some (1000 * 2 ^ Z.of_nat 2))) with 4000.
      replace (clock w + (2000 + (4000 + 0))) with (clock w + 6000) by lia.
      exact Hlife. }
    { intros i Hi. rewrite Ap1.
      replace (i + (1 + api_calls w))%nat with (S i + api_calls w)%nat by lia.
      destruct (Hr (S i) ltac:(lia)) as (A & S & R). repeat split; assumption. }
    change (2 + 1)%nat with 3%nat in E2. change (1 + 2)%nat with 3%nat in E2.
    rewrite E2. destruct F2 as (C2 & St2 & Ap2 & Tk2 & Tr2 & L2).
    destruct (Hr 3%nat ltac:(lia)) as (A3 & S3 & R3).
    destruct (request_go_error 0 m e b 3%nat w2 t' (r 3%nat))
      as (w3 & E3 & F3); try assumption; try (unfold RATE_LIMIT in *; lia).
    { rewrite C2, C1, Z.add_0_r. subst t'. cbn [granted expires_at waited backoff_ms].
      change (timer_elapsed (Some (1000 * 2 ^ Z.of_nat 1))) with 2000.
      change (timer_elapsed (Some (1000 * 2 ^ Z.of_nat 2))) with 4000.
      replace (clock w + (2000 + (4000 + 0))) with (clock w + 6000) by lia.
      exact Hlife. }
    { rewrite Ap2, Ap1. exact A3. }
    { unfold ok. rewrite S3. reflexivity. }
    { rewrite S3. reflexivity. }
    rewrite E3, S3, normalize_eq.
    destruct F3 as (C3 & St3 & Ap3 & Tk3 & Tr3 & L3).
    eexists. split; [reflexivity|]. split.
    + rewrite Tr3, Tr2, Tr1, <- !app_assoc. reflexivity.
    + intros Hnone. subst thrown.
      pose proof (@normalize_429 unit data3 w Hnone) as H.
      rewrite normalize_eq in H. now injection H.
Qed.

(** ** Fuel: [request] needs none *)

Lemma settles_ret {A : Type} (a : A) : settles (ret a).
Proof. intros w. discriminate. Qed.

Lemma settles_throw {A : Type} (e : JsValue) : settles (@throw A e).
Proof. intros w. discriminate. Qed.

Lemma settles_bind {A B : Type} (m : M A) (k : A -> M B) :
  settles m -> (forall a, settles (k a)) -> settles (bind m k).
Proof.
  intros Hm Hk w. unfold bind. specialize (Hm w).
  destruct (m w) as [[a|e|] w1]; cbn in *; try discriminate; [apply Hk|congruence].
Qed.

Lemma settles_try_catch {A : Type} (m : M A) (h : JsValue -> M A) :
  settles m -> (forall e, settles (h e)) -> settles (try_catch m h).
Proof.
  intros Hm Hh w. unfold try_catch. specialize (Hm w).
  destruct (m w) as [[a|e|] w1]; cbn in *; try discriminate; [apply Hh|congruence].
Qed.

Lemma settles_lift {A : Type} (c : Completion A) : settles (lift c).
Proof. destruct c; intros w; discriminate. Qed.

Lemma settles_fetch req : settles (fetch req).
Proof. intros w. unfold fetch. destruct (api _ _); discriminate. Qed.

Lemma settles_fetch_token req : settles (fetch_token req).
Proof. intros w. unfold fetch_token. destruct (token_endpoint _ _); discriminate. Qed.

Lemma settles_setTimeout ms : settles (setTimeout ms).
Proof. intros w. discriminate. Qed.

Lemma settles_Date_now : settles Date_now.
Proof. intros w. discriminate. Qed.

Lemma settles_getTokens : settles getTokens.
Proof. intros w. discriminate. Qed.

Lemma settles_storeTokens tokens : settles (storeTokens tokens).
Proof. intros w. discriminate. Qed.

Lemma settles_clearTokens : settles clearTokens.
Proof. intros w. discriminate. Qed.

Lemma settles_get_requestTimestamps : settles get_requestTimestamps.
Proof. intros w. discriminate. Qed.

Lemma settles_set_requestTimestamps ts : settles (set_requestTimestamps ts).
Proof. intros w. discriminate. Qed.

Ltac settle :=
  repeat first
    [ apply settles_ret | apply settles_throw | apply settles_lift
    | apply settles_fetch | apply settles_fetch_token | apply settles_setTimeout
    | apply settles_Date_now | apply settles_getTokens
    | apply settles_storeTokens | apply settles_clearTokens
    | apply settles_get_requestTimestamps | apply settles_set_requestTimestamps
    | (apply settles_bind; [|intros]) ].

Lemma settles_checkRateLimit : settles checkRateLimit.
Proof.
  unfold checkRateLimit. settle. destruct (Nat.leb _ _); settle.
Qed.

Lemma settles_refreshTokens refreshToken realmId :
  settles (refreshTokens refreshToken realmId).
Proof.
  unfold refreshTokens. settle.
  match goal with r : TokenResponse |- _ => destruct r end; settle.
Qed.

Lemma settles_getValidTokens : settles getValidTokens.
Proof.
  unfold getValidTokens. settle.
  match goal with s : option QuickBooksTokens |- _ => destruct s as [tokens|] end;
    settle.
  match goal with x : bool |- _ => destruct x end; settle.
  apply settles_try_catch.
  - apply settles_bind; [apply settles_refreshTokens|]. intros newTokens. settle.
  - intros error. settle.
    destruct error as [|j|s|n s|[s c [st|] d]]; cbn [qb_status]; settle.
    destruct (st =? 401); settle.
Qed.

Lemma settles_normalize {A : Type} error : settles (@normalize A error).
Proof. intros w. rewrite normalize_eq. discriminate. Qed.

Lemma settles_finish response : settles (finish response).
Proof.
  unfold finish. destruct (negb (ok response)); [apply settles_throw|].
  destruct (payload response); [apply settles_ret|apply settles_throw].
Qed.

Lemma settles_attempt m e b k t : settles (attempt m e b k t).
Proof.
  unfold attempt. apply settles_try_catch; [|intros; apply settles_normalize].
  apply settles_bind; [apply settles_fetch|]. intros response.
  destruct (_ && _); [settle|].
  destruct (_ && _); [|apply settles_finish].
  apply settles_bind; [apply settles_getTokens|].
  intros [tokens'|]; [|apply settles_finish].
  apply settles_bind; [apply settles_refreshTokens|]. intros newTokens. settle.
Qed.

(** An attempt asks for another one only below [MAX_RETRIES]. *)
Lemma attempt_Again m e b k t w w' :
  attempt m e b k t w = (Return Again, w') -> (k < MAX_RETRIES)%nat.
Proof.
  unfold attempt, try_catch, bind at 1.
  destruct (fetch _ w) as [[response|x|] w1].
  2: { rewrite normalize_eq. discriminate. }
  2: { discriminate. }
  destruct (Nat.ltb k MAX_RETRIES) eqn:Hk; [intros _; now apply Nat.ltb_lt|].
  rewrite andb_false_r.
  assert (Hk1 : Nat.ltb k 1 = false).
  { apply Nat.ltb_ge. apply Nat.ltb_ge in Hk. unfold MAX_RETRIES in Hk.
    clear - Hk. lia. }
  rewrite Hk1, andb_false_r. unfold finish.
  destruct (negb (ok response)).
  - unfold throw. rewrite normalize_eq. discriminate.
  - destruct (payload response); unfold ret, throw;
      [discriminate|rewrite normalize_eq; discriminate].
Qed.

Lemma settles_request_go m e b fuel :
  forall k, (MAX_RETRIES - k < fuel)%nat -> settles (request_go fuel m e b k).
Proof.
  induction fuel as [|fuel IH]; intros k Hk; [lia|].
  cbn [request_go].
  apply settles_bind; [apply settles_checkRateLimit|]. intros _.
  apply settles_bind; [apply settles_getValidTokens|]. intros tokens.
  intros w. unfold bind.
  pose proof (settles_attempt m e b k tokens w) as Ha.
  destruct (attempt m e b k tokens w) as [[[result|]|x|] w1] eqn:E;
    cbn [fst] in *; try discriminate; [|congruence].
  apply attempt_Again in E. apply IH. unfold MAX_RETRIES in *. lia.
Qed.

(** [request] returns or throws: its fuel never runs out. *)
Lemma request_settles m e b k : settles (request m e b k).
Proof. unfold request. apply settles_request_go. lia. Qed.

Lemma query_settles sql : settles (query sql).
Proof.
  unfold query. apply settles_bind; [apply settles_getValidTokens|]. intros tokens.
  apply settles_bind; [apply settles_checkRateLimit|]. intros _.
  apply settles_bind; [apply settles_fetch|]. intros fetchResponse.
  destruct (negb (ok fetchResponse)); [apply settles_normalize|].
  destruct (payload fetchResponse); settle.
Qed.

(** ** [query] and [queryAll] *)

Lemma query_attempt sql w t :
  store w = Some t ->
  clock w / 1000 + 300 < expires_at t ->
  (length (requestTimestamps w) < RATE_LIMIT)%nat ->
  query sql w
  = bind (fetch (query_request sql t))
         (fun fetchResponse =>
            if negb (ok fetchResponse) then
              normalize (error_object (status fetchResponse)
                                      (errorData (payload fetchResponse)))
            else
              match payload fetchResponse with
              | Unparseable reason => throw reason
              | Parsed data => lift (unwrap data)
              end) (attempting w).
Proof.
  intros Hs Hf Hroom. unfold query.
  rewrite (bind_Return _ _ _ _ _ (getValidTokens_fresh w t Hs Hf)).
  erewrite bind_Return; [reflexivity|].
  rewrite checkRateLimit_room by (world_simpl; assumption). reflexivity.
Qed.


Lemma checkRateLimit_returns w :
  exists w',
    checkRateLimit w = (Return tt, w') /\
    store w' = store w /\ api_calls w' = api_calls w /\
    token_calls w' = token_calls w /\
    fetches (trace w') = fetches (trace w).
Proof.
  unfold checkRateLimit. run_monad. world_simpl.
  destruct (Nat.leb RATE_LIMIT _).
  - eexists. split; [reflexivity|]. world_simpl.
    rewrite fetches_app. cbn. rewrite app_nil_r. repeat split; reflexivity.
  - eexists. split; [reflexivity|]. world_simpl. repeat split; reflexivity.
Qed.

Lemma getValidTokens_granting w :
  store w <> None ->
  always_grants ->
  exists t w',
    getValidTokens w = (Return t, w') /\
    store w' <> None /\ api_calls w' = api_calls w /\
    fetches (trace w') = fetches (trace w).
Proof.
  intros Hs Hg. destruct (store w) as [t|] eqn:Est; [|contradiction].
  unfold getValidTokens, isTokenExpired, refreshTokens, fetch_token,
    calculateTokenExpiry. run_monad. rewrite Est. world_simpl.
  destruct (expires_at t - 300 <=? clock w / 1000).
  - destruct (Hg (token_calls w) (refresh_request (refresh_token t))) as [data Hd].
    world_simpl. rewrite Hd. eexists. eexists. split; [reflexivity|]. world_simpl.
    rewrite !fetches_app. cbn. rewrite !app_nil_r.
    repeat split; try reflexivity. discriminate.
  - eexists. eexists. split; [reflexivity|]. world_simpl.
    rewrite fetches_app. cbn. rewrite app_nil_r, Est.
    repeat split; try reflexivity. discriminate.
Qed.

(** A query that is served returns the unwrapped rows. *)
Lemma query_served sql w rows :
  store w <> None ->
  always_grants ->
  serves_page (api_calls w) rows ->
  exists w',
    query sql w = (Return (Some (JArr rows)), w') /\
    store w' <> None /\ api_calls w' = S (api_calls w) /\
    queries (trace w') = queries (trace w) ++ [Some (Text sql)].
Proof.
  intros Hs Hg Hp. unfold query.
  destruct (getValidTokens_granting w Hs Hg) as (t & w1 & E1 & S1 & A1 & F1).
  rewrite (bind_Return _ _ _ _ _ E1).
  destruct (checkRateLimit_returns w1) as (w2 & E2 & S2 & A2 & T2 & F2).
  rewrite (bind_Return _ _ _ _ _ E2).
  destruct (Hp (query_request sql t)) as (r & data & Hr & Hok & Hpay & Hun).
  unfold fetch. run_monad. rewrite A2, A1, Hr, Hok, Hpay, Hun. cbn [negb].
  eexists. split; [reflexivity|]. world_simpl.
  unfold queries. rewrite fetches_app, F2, F1, map_app. cbn.
  rewrite S2, A2, A1. repeat split; try reflexivity. assumption.
Qed.

(** The texts of [n] consecutive page requests. *)
Lemma queryAll_loop_pages sql p k :
  forall fuel startPosition allResults w (page : nat -> list Json),
  store w <> None ->
  always_grants ->
  (forall i, (i <= k)%nat -> serves_page (i + api_calls w) (page i)) ->
  (forall i, (i < k)%nat -> p <= Z.of_nat (length (page i))) ->
  Z.of_nat (length (page k)) < p ->
  (k < fuel)%nat ->
  exists w',
    queryAll_loop fuel sql p startPosition allResults w
    = (Return (allResults ++ concat (map page (seq 0 (S k)))), w') /\
    queries (trace w')
    = queries (trace w)
      ++ map (fun i => Some (Text (paginated sql (startPosition + Z.of_nat i * p) p)))
             (seq 0 (S k)).
Proof.
  induction k as [|k IH]; intros fuel startPosition allResults w page
                                 Hs Hg Hserve Hfull Hshort Hfuel.
  - destruct fuel as [|fuel]; [lia|]. cbn [queryAll_loop].
    destruct (query_served (paginated sql startPosition p) w (page O) Hs Hg
                (Hserve O ltac:(lia))) as (w1 & E1 & S1 & A1 & Q1).
    rewrite (bind_Return _ _ _ _ _ E1). run_monad. cbn [spread_elements length_of].
    apply Z.ltb_lt in Hshort. rewrite Hshort.
    eexists. split; [cbn; rewrite app_nil_r; reflexivity|].
    rewrite Q1. cbn. now rewrite Z.add_0_r.
  - destruct fuel as [|fuel]; [lia|]. cbn [queryAll_loop].
    destruct (query_served (paginated sql startPosition p) w (page O) Hs Hg
                (Hserve O ltac:(lia))) as (w1 & E1 & S1 & A1 & Q1).
    rewrite (bind_Return _ _ _ _ _ E1). run_monad. cbn [spread_elements length_of].
    pose proof (Hfull O ltac:(lia)) as H0. apply Z.ltb_ge in H0. rewrite H0.
    destruct (IH fuel (startPosition + p) (allResults ++ page O) w1
                (fun i => page (S i))) as (w2 & E2 & Q2); try assumption; try lia.
    { intros i Hi. rewrite A1.
      replace (i + S (api_calls w))%nat with (S i + api_calls w)%nat by lia.
      apply Hserve. lia. }
    { intros i Hi. apply Hfull. lia. }
    exists w2. split.
    + rewrite E2. f_equal. rewrite <- app_assoc. f_equal.
      change (seq 0 (S (S k))) with (O :: seq 1 (S k)).
      rewrite <- seq_shift. cbn [map concat]. now rewrite map_map.
    + rewrite Q2, Q1, <- app_assoc. f_equal.
      change (seq 0 (S (S k))) with (O :: seq 1 (S k)).
      rewrite <- seq_shift. cbn [map app]. rewrite map_map, Z.add_0_r. f_equal.
      apply map_ext. intros i. do 3 f_equal. lia.
Qed.

Lemma queryAll_loop_still_running sql p k :
  forall fuel startPosition allResults w (page : nat -> list Json),
  store w <> None ->
  always_grants ->
  (forall i, (i < k)%nat -> serves_page (i + api_calls w) (page i)) ->
  (forall i, (i < k)%nat -> p <= Z.of_nat (length (page i))) ->
  (fuel <= k)%nat ->
  exists w',
    queryAll_loop fuel sql p startPosition allResults w = (Pending, w') /\
    api_calls w' = (fuel + api_calls w)%nat.
Proof.
  induction k as [|k IH]; intros fuel startPosition allResults w page
                                 Hs Hg Hserve Hfull Hfuel.
  - assert (fuel = O) by lia. subst fuel. exists w. split; reflexivity.
  - destruct fuel as [|fuel]; [exists w; split; reflexivity|].
    cbn [queryAll_loop].
    destruct (query_served (paginated sql startPosition p) w (page O) Hs Hg
                (Hserve O ltac:(lia))) as (w1 & E1 & S1 & A1 & Q1).
    rewrite (bind_Return _ _ _ _ _ E1). run_monad. cbn [spread_elements length_of].
    pose proof (Hfull O ltac:(lia)) as H0. apply Z.ltb_ge in H0. rewrite H0.
    destruct (IH fuel (startPosition + p) (allResults ++ page O) w1
                (fun i => page (S i))) as (w2 & E2 & A2); try assumption; try lia.
    { intros i Hi. rewrite A1.
      replace (i + S (api_calls w))%nat with (S i + api_calls w)%nat by lia.
      apply Hserve. lia. }
    { intros i Hi. apply Hfull. lia. }
    exists w2. split; [exact E2|]. rewrite A2, A1. lia.
Qed.

(** C7.  For a page size [p] between 1 and 1000, [queryAll] asks for the
    pages at start positions [1], [1 + p], [1 + 2p], ..., one after each page
    of [p] rows, stops at the first page with fewer than [p] rows and
    returns all pages concatenated in order; before that page it is still
    running.  Nothing but the length of the unwrapped array decides: the
    envelopes are arbitrary, [totalCount] included.  Every call is served:
    the store holds credentials, refreshes are granted, and the API answers
    each call with an [ok] envelope. *)
Theorem queryAll_pagination sql p w (page : nat -> list Json) (k : nat) :
  1 <= p <= 1000 ->
  store w <> None ->
  always_grants ->
  (forall i, (i <= k)%nat -> serves_page (i + api_calls w) (page i)) ->
  (forall i, (i < k)%nat -> Z.of_nat (length (page i)) = p) ->
  Z.of_nat (length (page k)) < p ->
  (forall fuel, (k < fuel)%nat ->
     exists w',
       queryAll fuel sql p w
       = (Return (concat (map page (seq 0 (S k)))), w') /\
       queries (trace w')
       = queries (trace w)
         ++ map (fun i => Some (Text (paginated sql (1 + Z.of_nat i * p) p)))
                (seq 0 (S k))) /\
  (forall fuel, (fuel <= k)%nat -> fst (queryAll fuel sql p w) = Pending).
Proof.
  intros Hp Hs Hg Hserve Hfull Hshort.
  unfold queryAll. rewrite Z.min_l by lia. split.
  - intros fuel Hfuel.
    destruct (queryAll_loop_pages sql p k fuel 1 [] w page) as (w' & E & Q);
      try assumption.
    { intros i Hi. rewrite (Hfull i Hi). lia. }
    exists w'. split; [exact E|exact Q].
  - intros fuel Hfuel.
    destruct (queryAll_loop_still_running sql p k fuel 1 [] w page)
      as (w' & E & _); try assumption.
    { intros i Hi. apply Hserve. lia. }
    { intros i Hi. rewrite (Hfull i Hi). lia. }
    now rewrite E.
Qed.

Lemma queryAll_loop_never_returns sql p :
  p <= 0 ->
  forall fuel startPosition allResults w rows,
    fst (queryAll_loop fuel sql p startPosition allResults w) <> Return rows.
Proof.
  intros Hp. induction fuel as [|fuel IH]; intros startPosition allResults w rows.
  - discriminate.
  - cbn [queryAll_loop]. unfold bind at 1.
    destruct (query _ w) as [[pageResults|x|] w1]; try discriminate.
    unfold bind at 1. unfold lift.
    destruct (spread_elements pageResults) as [items|x]; try discriminate.
    unfold ret at 1.
    assert (Hc : match length_of pageResults with
                 | Some n => n <? p
                 | None => false
                 end = false).
    { destruct pageResults as [[]|]; cbn [length_of]; try reflexivity;
        apply Z.ltb_ge; lia. }
    rewrite Hc. apply IH.
Qed.

(** C10.  With a page size [p <= 0] the page size in effect is [p] itself
    and the loop of [queryAll] has no exit: whatever the environment, no
    amount of fuel makes it return, and when every call is served, empty
    pages included, it is still running after any number of iterations,
    having made that many calls. *)
Theorem queryAll_nonpositive_pageSize sql p :
  p <= 0 ->
  (forall fuel w rows, fst (queryAll fuel sql p w) <> Return rows) /\
  (forall w (page : nat -> list Json),
     store w <> None ->
     always_grants ->
     (forall i, serves_page (i + api_calls w) (page i)) ->
     forall fuel,
     exists w',
       queryAll fuel sql p w = (Pending, w') /\
       api_calls w' = (fuel + api_calls w)%nat).
Proof.
  intros Hp. unfold queryAll. rewrite Z.min_l by lia. split.
  - intros fuel w rows. now apply queryAll_loop_never_returns.
  - intros w page Hs Hg Hserve fuel.
    apply (queryAll_loop_still_running sql p fuel fuel 1 [] w page);
      try assumption; try lia.
    intros i _. apply Hserve.
Qed.

End Properties.

(** * Further properties

    What the rest of the code shows: the classification of errors, the
    authorization URL, the limiter's invariant, the bounds and the errors
    of [request] in any environment, and the entity methods. *)

Section Further.

Context {remote : Remote}.

(** ** [handleQuickBooksError] *)

(** X1.  Whatever [handleQuickBooksError] returns for a value that is not
    a [QuickBooksError] carries that value as its [details], and its code
    and status are one of six pairs: the status it reports is 0, 401, 403,
    429 or 500, whatever the status of the response was. *)
Theorem handleQuickBooksError_classifies (v : JsValue) (q : QuickBooksError) :
  handleQuickBooksError v = Normal q ->
  v = VQuickBooksError q \/
  (qb_details q = v /\
   In (qb_code q, qb_status q)
      [(QB_ERROR_CODES.NETWORK_ERROR, Some 0);
       (QB_ERROR_CODES.UNAUTHORIZED, Some 401);
       (QB_ERROR_CODES.UNAUTHORIZED, Some 403);
       (QB_ERROR_CODES.RATE_LIMIT, Some 429);
       (QB_ERROR_CODES.TOKEN_EXPIRED, Some 401);
       (QB_ERROR_CODES.API_ERROR, Some 500)]).
Proof.
  unfold handleQuickBooksError, by_message, default_error.
  destruct v as [|j|s|n s|e]; intros H.
  5: { left. now injection H as ->. }
  all: right;
    repeat match type of H with
           | context [if ?c then _ else _] => destruct c
           | context [match ?x with _ => _ end] => destruct x
           end;
    try discriminate; injection H as <-; cbn [qb_details qb_code qb_status];
    (split; [reflexivity|cbn; tauto]).
Qed.

Lemma get_prop_filter key (avoid : string) props :
  String.eqb avoid key = false ->
  get_prop key (filter (fun kv => negb (String.eqb (fst kv) avoid)) props)
  = get_prop key props.
Proof.
  intros Hk. induction props as [|[k v] props IH]; [reflexivity|].
  cbn [filter fst get_prop].
  destruct (String.eqb k avoid) eqn:E; cbn [negb].
  - apply String.eqb_eq in E. subst k. now rewrite Hk.
  - cbn [get_prop]. now rewrite IH.
Qed.

(** The message of the object thrown for a response is the payload's. *)
Lemma prop_message_error_object s data :
  prop_message (error_object s data) = get_prop "message" (own_props data).
Proof.
  unfold error_object, prop_message. cbn [get_prop].
  change (String.eqb "status" "message") with false. cbv iota.
  now apply get_prop_filter.
Qed.

Lemma handleQuickBooksError_error_object s data :
  get_prop "status" (own_props data) = None ->
  handleQuickBooksError (error_object s data)
  = if s =? 401 then
      Normal (mkQuickBooksError "Unauthorized access to QuickBooks API"
                QB_ERROR_CODES.UNAUTHORIZED (Some 401) (error_object s data))
    else if s =? 403 then
      Normal (mkQuickBooksError "Access forbidden - check API permissions"
                QB_ERROR_CODES.UNAUTHORIZED (Some 403) (error_object s data))
    else if s =? 429 then
      Normal (mkQuickBooksError "QuickBooks API rate limit exceeded"
                QB_ERROR_CODES.RATE_LIMIT (Some 429) (error_object s data))
    else by_message (error_object s data).
Proof.
  intros Hnone. unfold handleQuickBooksError, error_object.
  rewrite Hnone. reflexivity.
Qed.

(** X2.  The status of a response is looked at before its message.  For
    a payload whose [message] is a string that mentions an expired or
    invalid token, a response with status 401, 403 or 429 is classified by
    its status, and one with any other status, 400 or 500 say, becomes
    TOKEN_EXPIRED with status 401. *)
Theorem token_message_decides_after_status s data msg :
  get_prop "status" (own_props data) = None ->
  get_prop "message" (own_props data) = Some (JStr msg) ->
  includes msg "token expired" || includes msg "invalid_token" = true ->
  let thrown := error_object s data in
  handleQuickBooksError thrown
  = Normal
      (if s =? 401 then
         mkQuickBooksError "Unauthorized access to QuickBooks API"
           QB_ERROR_CODES.UNAUTHORIZED (Some 401) thrown
       else if s =? 403 then
         mkQuickBooksError "Access forbidden - check API permissions"
           QB_ERROR_CODES.UNAUTHORIZED (Some 403) thrown
       else if s =? 429 then
         mkQuickBooksError "QuickBooks API rate limit exceeded"
           QB_ERROR_CODES.RATE_LIMIT (Some 429) thrown
       else
         mkQuickBooksError "QuickBooks token expired"
           QB_ERROR_CODES.TOKEN_EXPIRED (Some 401) thrown).
Proof.
  intros Hst Hmsg Hin thrown. unfold thrown.
  rewrite (handleQuickBooksError_error_object _ _ Hst).
  destruct (s =? 401); [reflexivity|].
  destruct (s =? 403); [reflexivity|].
  destruct (s =? 429); [reflexivity|].
  unfold by_message, message_text.
  rewrite prop_message_error_object, Hmsg. cbn [truthy js_String].
  destruct (String.eqb msg "") eqn:E.
  - apply String.eqb_eq in E. subst msg. discriminate.
  - cbn [negb]. now rewrite Hin.
Qed.

(** ** The authorization URL *)

Lemma form_byte_cases (c : ascii) :
  (form_byte c = String c "" /\ form_safe c = true) \/
  (form_byte c = "+" /\ c = " "%char) \/
  (exists h l, form_byte c = String "%" (String h (String l "")) /\
               exists x y, hex_value h = Some x /\ hex_value l = Some y /\
                           ascii_of_nat (16 * x + y) = c).
Proof.
  destruct c as [[] [] [] [] [] [] [] []];
    first [ left; split; reflexivity
          | right; left; split; reflexivity
          | right; right; do 2 eexists; split; [reflexivity|];
            do 2 eexists; repeat split; reflexivity ].
Qed.

Lemma form_safe_plain (c : ascii) :
  form_safe c = true ->
  Ascii.eqb c "%" = false /\ Ascii.eqb c "+" = false /\
  Ascii.eqb c "&" = false /\ Ascii.eqb c "=" = false.
Proof.
  destruct c as [[] [] [] [] [] [] [] []]; cbv; intros H;
    first [discriminate | repeat split].
Qed.

(** Decoding undoes encoding, byte for byte. *)
Lemma form_decode_encode (s : string) : form_decode (form_encode s) = s.
Proof.
  unfold form_decode. induction s as [|c s IH]; [reflexivity|].
  cbn [form_encode].
  destruct (form_byte_cases c)
    as [[-> Hs]|[[-> ->]|(h & l & -> & x & y & Hx & Hy & Hc)]].
  - destruct (form_safe_plain c Hs) as (E1 & E2 & _).
    cbn [append plus_to_space percent_decode]. rewrite E2, E1, IH. reflexivity.
  - cbn [append plus_to_space percent_decode]. cbn [Ascii.eqb Bool.eqb].
    now rewrite IH.
  - cbn [append plus_to_space].
    assert (Hh : Ascii.eqb h "+" = false).
    { destruct h as [[] [] [] [] [] [] [] []]; try reflexivity; discriminate. }
    assert (Hl : Ascii.eqb l "+" = false).
    { destruct l as [[] [] [] [] [] [] [] []]; try reflexivity; discriminate. }
    change (Ascii.eqb "%" "+") with false. rewrite Hh, Hl. cbv iota.
    cbn [percent_decode]. change (Ascii.eqb "%" "%") with true. cbv iota.
    rewrite Hx, Hy, Hc, IH. reflexivity.
Qed.

Lemma has_append c s1 s2 : has c (s1 ++ s2) = has c s1 || has c s2.
Proof.
  induction s1 as [|d s1 IH]; [reflexivity|]. cbn [append has].
  now rewrite IH, orb_assoc.
Qed.

Lemma has_form_byte (c : ascii) :
  has "&" (form_byte c) = false /\ has "=" (form_byte c) = false.
Proof. destruct c as [[] [] [] [] [] [] [] []]; split; reflexivity. Qed.

(** No [&] and no [=] survives the encoding. *)
Lemma has_form_encode (s : string) :
  has "&" (form_encode s) = false /\ has "=" (form_encode s) = false.
Proof.
  induction s as [|c s [IH1 IH2]]; [split; reflexivity|].
  cbn [form_encode]. rewrite !has_append, IH1, IH2.
  destruct (has_form_byte c) as [-> ->]. split; reflexivity.
Qed.

Lemma split_on_plain sep s : has sep s = false -> split_on sep s = [s].
Proof.
  induction s as [|c s IH]; [reflexivity|]. cbn [has split_on].
  intros H. apply orb_false_iff in H as [H1 H2]. now rewrite H1, IH.
Qed.

Lemma split_on_append sep s rest :
  has sep s = false ->
  split_on sep (s ++ String sep rest) = s :: split_on sep rest.
Proof.
  induction s as [|c s IH]; cbn [has append split_on].
  - intros _. now rewrite Ascii.eqb_refl.
  - intros H. apply orb_false_iff in H as [H1 H2]. now rewrite H1, IH.
Qed.

Lemma name_value_append name value :
  has "=" name = false -> name_value (name ++ String "=" value) = (name, value).
Proof.
  induction name as [|c name IH]; cbn [has append name_value].
  - reflexivity.
  - intros H. apply orb_false_iff in H as [H1 H2]. now rewrite H1, IH.
Qed.

Lemma form_pair_plain kv :
  has "&" (form_pair kv) = false /\ String.eqb (form_pair kv) "" = false.
Proof.
  unfold form_pair. split.
  - rewrite !has_append.
    destruct (has_form_encode (fst kv)) as [-> _].
    destruct (has_form_encode (snd kv)) as [-> _]. reflexivity.
  - destruct (form_encode (fst kv)); reflexivity.
Qed.

Lemma split_on_join pieces :
  pieces <> [] ->
  Forall (fun p => has "&" p = false) pieces ->
  split_on "&" (join_strings "&" pieces) = pieces.
Proof.
  induction pieces as [|p [|q r] IH]; intros Hne Hall.
  - contradiction.
  - cbn [join_strings]. apply split_on_plain. now inversion Hall.
  - change (join_strings "&" (p :: q :: r))
      with (p ++ String "&" (join_strings "&" (q :: r)))%string.
    inversion Hall; subst.
    rewrite split_on_append by assumption. f_equal.
    apply IH; [discriminate|assumption].
Qed.

(** What [toString] writes, the parser reads back. *)
Lemma URLSearchParams_round_trip (params : list (string * string)) :
  URLSearchParams_parse (URLSearchParams_toString params) = params.
Proof.
  unfold URLSearchParams_parse, URLSearchParams_toString.
  change (fun kv : string * string =>
            (form_encode (fst kv) ++ "=" ++ form_encode (snd kv))%string)
    with form_pair.
  destruct params as [|kv params]; [reflexivity|].
  rewrite split_on_join.
  2: discriminate.
  2: { apply Forall_forall. intros p Hin. apply in_map_iff in Hin as (x & <- & _).
       apply form_pair_plain. }
  set (l := kv :: params). clearbody l. clear.
  induction l as [|[name value] l IH]; [reflexivity|].
  cbn [map filter]. destruct (form_pair_plain (name, value)) as [_ ->].
  cbn [negb map]. rewrite IH. f_equal.
  unfold form_pair. cbn [fst snd].
  change (form_encode name ++ "=" ++ form_encode value)%string
    with (form_encode name ++ String "=" (form_encode value))%string.
  rewrite name_value_append by apply has_form_encode.
  now rewrite !form_decode_encode.
Qed.

(** X3.  The URL [generateAuthUrl] builds is the authorization endpoint,
    the same for both environments, followed by a query string that reads
    back as exactly five parameters, whatever bytes the client id, the
    redirect URI, the scopes and the state hold: [client_id],
    [redirect_uri], [response_type=code], [scope] (the scopes joined by
    spaces, the accounting scope when none are configured) and [state]. *)
Theorem generateAuthUrl_round_trip (config : QuickBooksConfig) (state : string) :
  exists query,
    generateAuthUrl config state
    = ("https://appcenter.intuit.com/connect/oauth2?" ++ query)%string /\
    URLSearchParams_parse query
    = [("client_id", clientId config);
       ("redirect_uri", redirectUri config);
       ("response_type", "code");
       ("scope", match scopes config with
                 | Some s => join_strings " " s
                 | None => "com.intuit.quickbooks.accounting"
                 end);
       ("state", state)].
Proof.
  eexists. split.
  - unfold generateAuthUrl, ENDPOINTS_authorize. cbv zeta.
    cbn [append]. reflexivity.
  - rewrite URLSearchParams_round_trip. destruct (scopes config); reflexivity.
Qed.

Lemma hex_pair_digits (b : Byte.byte) :
  exists h l,
    hex_pair b = String h (String l "") /\
    lower_hex h = true /\ lower_hex l = true /\
    exists x y, hex_value h = Some x /\ hex_value l = Some y /\
                Byte.of_N (N.of_nat (16 * x + y)) = Some b.
Proof.
  destruct b; do 2 eexists; (split; [reflexivity|]);
    (split; [reflexivity|]); (split; [reflexivity|]);
    do 2 eexists; repeat split; reflexivity.
Qed.

Lemma lower_hex_safe (c : ascii) : lower_hex c = true -> form_byte c = String c "".
Proof.
  destruct c as [[] [] [] [] [] [] [] []]; cbv; intros H;
    first [discriminate | reflexivity].
Qed.

Lemma hex_pair_inj (b1 b2 : Byte.byte) : hex_pair b1 = hex_pair b2 -> b1 = b2.
Proof.
  destruct (hex_pair_digits b1) as (h1 & l1 & -> & _ & _ & x1 & y1 & X1 & Y1 & B1).
  destruct (hex_pair_digits b2) as (h2 & l2 & -> & _ & _ & x2 & y2 & X2 & Y2 & B2).
  intros [= -> ->]. congruence.
Qed.

Lemma concat_hex_pairs_cons b l :
  String.concat "" (map hex_pair (b :: l))
  = (hex_pair b ++ String.concat "" (map hex_pair l))%string.
Proof.
  destruct l as [|b' l]; cbn [map String.concat]; [|reflexivity].
  destruct (hex_pair_digits b) as (h & k & -> & _). reflexivity.
Qed.

Lemma concat_hex_pairs_inj (l1 l2 : list Byte.byte) :
  String.concat "" (map hex_pair l1) = String.concat "" (map hex_pair l2) ->
  l1 = l2.
Proof.
  revert l2. induction l1 as [|b1 l1 IH]; intros [|b2 l2].
  - reflexivity.
  - rewrite concat_hex_pairs_cons.
    destruct (hex_pair_digits b2) as (h & l & -> & _). discriminate.
  - rewrite concat_hex_pairs_cons.
    destruct (hex_pair_digits b1) as (h & l & -> & _). discriminate.
  - rewrite !concat_hex_pairs_cons.
    destruct (hex_pair_digits b1) as (h1 & k1 & E1 & _).
    destruct (hex_pair_digits b2) as (h2 & k2 & E2 & _).
    intros H.
    assert (Hp : hex_pair b1 = hex_pair b2 /\
                 String.concat "" (map hex_pair l1)
                 = String.concat "" (map hex_pair l2)).
    { rewrite E1, E2 in *. cbn [append] in H. injection H as -> -> H. now split. }
    destruct Hp as [Hb Hl]. f_equal; [now apply hex_pair_inj|now apply IH].
Qed.

Lemma concat_hex_pairs_length (l : list Byte.byte) :
  String.length (String.concat "" (map hex_pair l)) = (2 * length l)%nat.
Proof.
  induction l as [|b l IH]; [reflexivity|].
  rewrite concat_hex_pairs_cons.
  destruct (hex_pair_digits b) as (h & k & -> & _).
  cbn [append String.length]. rewrite IH. cbn [length]. lia.
Qed.

Lemma concat_hex_pairs_safe (l : list Byte.byte) :
  form_encode (String.concat "" (map hex_pair l)) = String.concat "" (map hex_pair l).
Proof.
  induction l as [|b l IH]; [reflexivity|].
  rewrite concat_hex_pairs_cons.
  destruct (hex_pair_digits b) as (h & k & -> & Hh & Hk & _).
  cbn [append form_encode]. rewrite IH.
  now rewrite (lower_hex_safe h Hh), (lower_hex_safe k Hk).
Qed.

Lemma concat_hex_pairs_lower (l : list Byte.byte) :
  all_chars lower_hex (String.concat "" (map hex_pair l)) = true.
Proof.
  induction l as [|b l IH]; [reflexivity|].
  rewrite concat_hex_pairs_cons.
  destruct (hex_pair_digits b) as (h & k & -> & Hh & Hk & _).
  cbn [append all_chars]. now rewrite Hh, Hk, IH.
Qed.

Lemma string_app_assoc (a b c : string) : ((a ++ b) ++ c = a ++ (b ++ c))%string.
Proof. induction a as [|x a IH]; [reflexivity|]. cbn [append]. now rewrite IH. Qed.

(** X4.  The state [generateState] makes of the sixteen random bytes is 32
    digits of lower-case hexadecimal; it determines the bytes, so that no
    entropy is lost; and [generateAuthUrl] puts it at the end of the URL as
    it is, nothing in it being escaped. *)
Theorem generateState_hex (random random' : nat -> Byte.byte)
    (config : QuickBooksConfig) :
  let state := generateState random in
  String.length state = 32%nat /\
  all_chars lower_hex state = true /\
  (generateState random' = state ->
   forall i, (i < 16)%nat -> random' i = random i) /\
  exists rest,
    generateAuthUrl config state = (rest ++ "&state=" ++ state)%string.
Proof.
  cbv zeta. unfold generateState. cbv zeta.
  change (fun byte : Byte.byte => padStart 2 "0" (byte_toString16 byte))
    with hex_pair.
  split; [|split; [|split]].
  - rewrite concat_hex_pairs_length, length_map, length_seq. reflexivity.
  - apply concat_hex_pairs_lower.
  - intros H. apply concat_hex_pairs_inj in H.
    intros i Hi.
    assert (Hn : nth i (map random' (seq 0 16)) (random' O)
                 = nth i (map random (seq 0 16)) (random' O)) by now rewrite H.
    do 16 (destruct i as [|i]; [exact Hn|]). lia.
  - unfold generateAuthUrl, URLSearchParams_toString. cbv zeta.
    cbn [map join_strings fst snd].
    rewrite concat_hex_pairs_safe.
    exists ("https://appcenter.intuit.com/connect/oauth2?"
            ++ form_encode "client_id" ++ "=" ++ form_encode (clientId config)
            ++ "&" ++ form_encode "redirect_uri" ++ "="
            ++ form_encode (redirectUri config)
            ++ "&" ++ form_encode "response_type" ++ "=" ++ form_encode "code"
            ++ "&" ++ form_encode "scope" ++ "="
            ++ form_encode
                 (join_strings " "
                    match scopes config with
                    | Some s => s
                    | None => DEFAULT_SCOPES
                    end))%string.
    unfold ENDPOINTS_authorize.
    set (state := String.concat "" (map hex_pair (map random (seq 0 16)))).
    change (form_encode "state") with "state".
    rewrite !string_app_assoc. cbn [append]. reflexivity.
Qed.

(** ** The lifetime of refreshed tokens *)

(** With tokens due for a refresh, [getValidTokens] calls the token
    endpoint once, whatever it answers. *)
Lemma getValidTokens_expired_refreshes w t :
  store w = Some t ->
  expires_at t <= clock w / 1000 + 300 ->
  refreshes (trace (snd (getValidTokens w)))
  = refreshes (trace w) ++ [refresh_request (refresh_token t)].
Proof.
  intros Hs He.
  assert (E : (expires_at t - 300 <=? clock w / 1000) = true)
    by (apply Z.leb_le; lia).
  unfold getValidTokens, isTokenExpired, refreshTokens, fetch_token,
    calculateTokenExpiry. run_monad. rewrite Hs. world_simpl. rewrite E.
  world_simpl.
  destruct (token_endpoint (token_calls w) (refresh_request (refresh_token t)))
    as [reason|[s p|data|reason]]; world_simpl.
  - destruct reason as [|j|s|n s|[s c [st|] d]]; cbn [qb_status]; world_simpl;
      try destruct (st =? 401); world_simpl;
      rewrite !refreshes_app; cbn; now rewrite !app_nil_r.
  - cbn [qb_status]. destruct (s =? 401); world_simpl;
      rewrite !refreshes_app; cbn; now rewrite !app_nil_r.
  - rewrite !refreshes_app. cbn. now rewrite !app_nil_r.
  - destruct reason as [|j|s|n s|[s c [st|] d]]; cbn [qb_status]; world_simpl;
      try destruct (st =? 401); world_simpl;
      rewrite !refreshes_app; cbn; now rewrite !app_nil_r.
Qed.

Lemma getValidTokens_granted w t data :
  store w = Some t ->
  expires_at t <= clock w / 1000 + 300 ->
  token_endpoint (token_calls w) (refresh_request (refresh_token t))
  = TokenResponded (TokenGranted data) ->
  let t' := granted data (realm_id t) (clock w) in
  getValidTokens w
  = (Return t',
     emit (StoreTokens t')
       (with_store (Some t')
          (emit (Refresh (refresh_request (refresh_token t)))
             (count_token (emit GetTokens w))))).
Proof.
  intros Hs He Htok t'.
  assert (E : (expires_at t - 300 <=? clock w / 1000) = true)
    by (apply Z.leb_le; lia).
  unfold getValidTokens, isTokenExpired, refreshTokens, fetch_token,
    calculateTokenExpiry. run_monad. rewrite Hs. world_simpl. rewrite E.
  world_simpl. rewrite Htok. reflexivity.
Qed.

(** X5.  Tokens granted by a refresh expire [expires_in] seconds after the
    second in which the grant arrived.  When that lifetime is above 300 s
    the next [getValidTokens] returns them from the store without a call;
    when it is 300 s or less they are due for a refresh as soon as they are
    stored, and the next [getValidTokens] refreshes again, with the refresh
    token just granted. *)
Theorem getValidTokens_again w t data :
  store w = Some t ->
  expires_at t <= clock w / 1000 + 300 ->
  token_endpoint (token_calls w) (refresh_request (refresh_token t))
  = TokenResponded (TokenGranted data) ->
  let t' := granted data (realm_id t) (clock w) in
  let w1 := snd (getValidTokens w) in
  fst (getValidTokens w) = Return t' /\
  (300 < expires_in data ->
   getValidTokens w1 = (Return t', emit GetTokens w1)) /\
  (expires_in data <= 300 ->
   refreshes (trace (snd (getValidTokens w1)))
   = refreshes (trace w)
     ++ [refresh_request (refresh_token t);
         refresh_request (granted_refresh_token data)]).
Proof.
  intros Hs He Htok t' w1.
  subst w1. rewrite (getValidTokens_granted w t data Hs He Htok).
  cbn [fst snd]. fold t'. split; [reflexivity|]. split.
  - intros Hlong. apply getValidTokens_fresh; [reflexivity|].
    world_simpl. subst t'. cbn [expires_at granted]. lia.
  - intros Hshort.
    rewrite (getValidTokens_expired_refreshes _ t').
    + world_simpl. rewrite !refreshes_app. cbn. rewrite !app_nil_r.
      now rewrite <- app_assoc.
    + reflexivity.
    + world_simpl. subst t'. cbn [expires_at granted]. lia.
Qed.

(** ** The limiter's invariant *)

Lemma in_window_later now now' ts :
  now <= now' -> (length (in_window now' ts) <= length (in_window now ts))%nat.
Proof.
  intros Hle. unfold in_window. induction ts as [|t ts IH]; [reflexivity|].
  cbn [filter].
  destruct (now' - t <? RATE_LIMIT_WINDOW_MS) eqn:E'.
  - apply Z.ltb_lt in E'.
    assert (E : (now - t <? RATE_LIMIT_WINDOW_MS) = true) by (apply Z.ltb_lt; lia).
    rewrite E. cbn [length]. lia.
  - destruct (now - t <? RATE_LIMIT_WINDOW_MS); cbn [length]; lia.
Qed.

Lemma in_window_idem now ts : in_window now (in_window now ts) = in_window now ts.
Proof.
  unfold in_window. induction ts as [|t ts IH]; [reflexivity|].
  cbn [filter]. destruct (now - t <? RATE_LIMIT_WINDOW_MS) eqn:E; [|exact IH].
  cbn [filter]. now rewrite E, IH.
Qed.

Lemma in_window_app now ts us :
  in_window now (ts ++ us) = in_window now ts ++ in_window now us.
Proof. apply filter_app. Qed.

Lemma in_window_now now : in_window now [now] = [now].
Proof. unfold in_window. cbn [filter]. rewrite Z.sub_diag. reflexivity. Qed.

Lemma advances_refl w : advances w w.
Proof. split; [lia|auto]. Qed.

Lemma advances_trans w1 w2 w3 : advances w1 w2 -> advances w2 w3 -> advances w1 w3.
Proof. intros [A1 B1] [A2 B2]. split; [lia|auto]. Qed.

(** Time may pass: the invariant stays. *)
Lemma advances_tick w w' :
  clock w <= clock w' -> requestTimestamps w' = requestTimestamps w ->
  advances w w'.
Proof.
  intros Hc Ht. split; [assumption|]. unfold within_limit. rewrite Ht.
  intros [Ha Hn]. split.
  - eapply ascending_upto_later; eassumption.
  - pose proof (in_window_later _ _ (requestTimestamps w) Hc). lia.
Qed.

Lemma advances_same w w' :
  clock w' = clock w -> requestTimestamps w' = requestTimestamps w ->
  advances w w'.
Proof. intros Hc Ht. apply advances_tick; [lia|assumption]. Qed.

Lemma keeps_ret {A : Type} (a : A) : keeps (ret a).
Proof. intros w. apply advances_refl. Qed.

Lemma keeps_throw {A : Type} (e : JsValue) : keeps (@throw A e).
Proof. intros w. apply advances_refl. Qed.

Lemma keeps_pending {A : Type} : keeps (@pending A).
Proof. intros w. apply advances_refl. Qed.

Lemma keeps_lift {A : Type} (c : Completion A) : keeps (lift c).
Proof. destruct c; intros w; apply advances_refl. Qed.

Lemma keeps_bind {A B : Type} (m : M A) (k : A -> M B) :
  keeps m -> (forall a, keeps (k a)) -> keeps (bind m k).
Proof.
  intros Hm Hk w. unfold bind. specialize (Hm w).
  destruct (m w) as [[a|e|] w1]; cbn [snd] in *; try assumption.
  eapply advances_trans; [exact Hm|apply Hk].
Qed.

Lemma keeps_try_catch {A : Type} (m : M A) (h : JsValue -> M A) :
  keeps m -> (forall e, keeps (h e)) -> keeps (try_catch m h).
Proof.
  intros Hm Hh w. unfold try_catch. specialize (Hm w).
  destruct (m w) as [[a|e|] w1]; cbn [snd] in *; try assumption.
  eapply advances_trans; [exact Hm|apply Hh].
Qed.

Lemma keeps_fetch req : keeps (fetch req).
Proof.
  intros w. unfold fetch. destruct (api _ _); apply advances_same; reflexivity.
Qed.

Lemma keeps_fetch_token req : keeps (fetch_token req).
Proof.
  intros w. unfold fetch_token.
  destruct (token_endpoint _ _); apply advances_same; reflexivity.
Qed.

Lemma keeps_setTimeout ms : keeps (setTimeout ms).
Proof.
  intros w. apply advances_tick; [|reflexivity].
  cbn. pose proof (timer_elapsed_pos ms). lia.
Qed.

Lemma keeps_getTokens : keeps getTokens.
Proof. intros w. apply advances_same; reflexivity. Qed.

Lemma keeps_storeTokens tokens : keeps (storeTokens tokens).
Proof. intros w. apply advances_same; reflexivity. Qed.

Lemma keeps_clearTokens : keeps clearTokens.
Proof. intros w. apply advances_same; reflexivity. Qed.

Lemma keeps_Date_now : keeps Date_now.
Proof. intros w. apply advances_refl. Qed.

(** [checkRateLimit], in one piece. *)
Lemma checkRateLimit_eq w :
  let kept := in_window (clock w) (requestTimestamps w) in
  checkRateLimit w
  = if Nat.leb RATE_LIMIT (length kept) then
      let wait := RATE_LIMIT_WINDOW_MS - (clock w - hd 0 kept) + 100 in
      let w1 := emit (Timeout (Some wait))
                     (tick (timer_elapsed (Some wait))
                           (with_requestTimestamps kept w)) in
      (Return tt, with_requestTimestamps (kept ++ [clock w1]) w1)
    else (Return tt, with_requestTimestamps (kept ++ [clock w]) w).
Proof.
  unfold checkRateLimit, in_window. run_monad. world_simpl.
  destruct (Nat.leb RATE_LIMIT _); reflexivity.
Qed.

(** When the window is full the wait lets its oldest call leave it, and
    one call takes its place. *)
Lemma keeps_checkRateLimit : keeps checkRateLimit.
Proof.
  intros w. rewrite checkRateLimit_eq. cbv zeta.
  set (kept := in_window (clock w) (requestTimestamps w)).
  destruct (Nat.leb RATE_LIMIT (length kept)) eqn:Hfull; cbn [snd].
  - split.
    + world_simpl.
      pose proof (timer_elapsed_pos
                    (Some (RATE_LIMIT_WINDOW_MS - (clock w - hd 0 kept) + 100))).
      lia.
    + intros [Hasc Hn]. fold kept in Hn.
      apply Nat.leb_le in Hfull.
      pose proof (ascending_upto_filter (clock w)
                    (fun t => clock w - t <? RATE_LIMIT_WINDOW_MS) _ Hasc) as Hk.
      fold (in_window (clock w) (requestTimestamps w)) in Hk. fold kept in Hk.
      assert (Hsub : forall t, In t kept -> clock w - t < 60000 /\ t <= clock w).
      { intros t Hin. apply filter_In in Hin as [Hin Hlt]. apply Z.ltb_lt in Hlt.
        destruct (ascending_upto_bounds _ _ Hasc) as [Hle _].
        rewrite Forall_forall in Hle. split; [exact Hlt|now apply Hle]. }
      destruct kept as [|oldest rest] eqn:Ek;
        [cbn in Hfull; unfold RATE_LIMIT in Hfull; lia|].
      destruct (Hsub oldest (or_introl eq_refl)) as [Hlt Hle].
      cbn [hd]. unfold within_limit. world_simpl.
      unfold RATE_LIMIT_WINDOW_MS. change (60 * 1000) with 60000.
      rewrite timer_elapsed_in_range by lia.
      set (now' := clock w + (60000 - (clock w - oldest) + 100)).
      split.
      * apply ascending_upto_snoc. eapply ascending_upto_later; [exact Hk|].
        subst now'. lia.
      * rewrite in_window_app, in_window_now, length_app. cbn [length].
        unfold in_window at 1. cbn [filter].
        assert (E : (now' - oldest <? RATE_LIMIT_WINDOW_MS) = false).
        { apply Z.ltb_ge. unfold RATE_LIMIT_WINDOW_MS. subst now'. lia. }
        rewrite E.
        pose proof (filter_length_le (fun t => now' - t <? RATE_LIMIT_WINDOW_MS) rest).
        cbn [length] in Hn. lia.
  - split; [world_simpl; lia|].
    intros [Hasc Hn]. apply Nat.leb_gt in Hfull.
    unfold within_limit. world_simpl. split.
    + apply ascending_upto_snoc.
      now apply (ascending_upto_filter (clock w)
                   (fun t => clock w - t <? RATE_LIMIT_WINDOW_MS)).
    + rewrite in_window_app, in_window_now, length_app. subst kept.
      rewrite in_window_idem. cbn [length]. lia.
Qed.

Ltac keep :=
  repeat first
    [ apply keeps_ret | apply keeps_throw | apply keeps_pending | apply keeps_lift
    | apply keeps_fetch | apply keeps_fetch_token | apply keeps_setTimeout
    | apply keeps_Date_now | apply keeps_getTokens
    | apply keeps_storeTokens | apply keeps_clearTokens
    | apply keeps_checkRateLimit
    | (apply keeps_bind; [|intros]) ].

Lemma keeps_refreshTokens refreshToken realmId :
  keeps (refreshTokens refreshToken realmId).
Proof.
  unfold refreshTokens, calculateTokenExpiry. keep.
  match goal with r : TokenResponse |- _ => destruct r end; keep.
Qed.

Lemma keeps_getValidTokens : keeps getValidTokens.
Proof.
  unfold getValidTokens, isTokenExpired. keep.
  match goal with s : option QuickBooksTokens |- _ => destruct s as [tokens|] end;
    keep.
  match goal with x : bool |- _ => destruct x end; keep.
  apply keeps_try_catch.
  - apply keeps_bind; [apply keeps_refreshTokens|]. intros newTokens. keep.
  - intros error. keep.
    destruct error as [|j|s|n s|[s c [st|] d]]; cbn [qb_status]; keep.
    destruct (st =? 401); keep.
Qed.

Lemma keeps_normalize {A : Type} error : keeps (@normalize A error).
Proof. intros w. rewrite normalize_eq. apply advances_refl. Qed.

Lemma keeps_finish response : keeps (finish response).
Proof.
  unfold finish. destruct (negb (ok response)); [apply keeps_throw|].
  destruct (payload response); keep.
Qed.

Lemma keeps_attempt m e b k t : keeps (attempt m e b k t).
Proof.
  unfold attempt. apply keeps_try_catch; [|intros; apply keeps_normalize].
  apply keeps_bind; [apply keeps_fetch|]. intros response.
  destruct (_ && _); [keep|].
  destruct (_ && _); [|apply keeps_finish].
  apply keeps_bind; [apply keeps_getTokens|].
  intros [tokens'|]; [|apply keeps_finish].
  apply keeps_bind; [apply keeps_refreshTokens|]. intros newTokens. keep.
Qed.

Lemma keeps_request_go m e b fuel : forall k, keeps (request_go fuel m e b k).
Proof.
  induction fuel as [|fuel IH]; intros k; cbn [request_go]; [apply keeps_pending|].
  apply keeps_bind; [apply keeps_checkRateLimit|]. intros _.
  apply keeps_bind; [apply keeps_getValidTokens|]. intros tokens.
  apply keeps_bind; [apply keeps_attempt|]. intros [result|]; [keep|apply IH].
Qed.

Lemma keeps_query sql : keeps (query sql).
Proof.
  unfold query. apply keeps_bind; [apply keeps_getValidTokens|]. intros tokens.
  apply keeps_bind; [apply keeps_checkRateLimit|]. intros _.
  apply keeps_bind; [apply keeps_fetch|]. intros fetchResponse.
  destruct (negb (ok _)); [apply keeps_normalize|].
  destruct (payload _); keep.
Qed.

Lemma keeps_queryAll_loop sql p fuel :
  forall startPosition allResults,
    keeps (queryAll_loop fuel sql p startPosition allResults).
Proof.
  induction fuel as [|fuel IH]; intros startPosition allResults;
    cbn [queryAll_loop]; [apply keeps_pending|].
  apply keeps_bind; [apply keeps_query|]. intros pageResults. keep.
  destruct (match length_of pageResults with Some n => n <? p | None => false end);
    [keep|apply IH].
Qed.

(** The call is recorded last, at the time [checkRateLimit] returns. *)
Lemma checkRateLimit_records w :
  exists w' earlier,
    checkRateLimit w = (Return tt, w') /\
    requestTimestamps w' = earlier ++ [clock w'].
Proof.
  rewrite checkRateLimit_eq. cbv zeta.
  destruct (Nat.leb RATE_LIMIT (length (in_window (clock w) (requestTimestamps w))));
    do 2 eexists; (split; [reflexivity|]); world_simpl; reflexivity.
Qed.

(** X6.  [checkRateLimit] keeps the promise of its comment.  From a state
    in which at most 500 of the recorded calls lie in the 60 s that end
    now, it returns in a state of which the same is true with the new call
    counted: the call is recorded last, at the time [checkRateLimit]
    returns, and time has not gone backwards. *)
Theorem checkRateLimit_within_limit w :
  within_limit w ->
  exists w',
    checkRateLimit w = (Return tt, w') /\
    within_limit w' /\
    clock w <= clock w' /\
    exists earlier, requestTimestamps w' = earlier ++ [clock w'].
Proof.
  intros Hw. destruct (keeps_checkRateLimit w) as [Hc Hk].
  destruct (checkRateLimit_records w) as (w' & earlier & E & Hl).
  rewrite E in Hc, Hk. cbn [snd] in Hc, Hk.
  exists w'. split; [exact E|]. split; [exact (Hk Hw)|]. split; [exact Hc|].
  exists earlier. exact Hl.
Qed.

(** X7.  The limit is an invariant of the client, whatever the servers
    answer: after [request], [query] or [queryAll], at whatever point it
    stopped, at most 500 of the recorded calls lie in the last 60 s, if
    that was so before. *)
Theorem client_keeps_within_limit m e b k sql fuel pageSize w :
  within_limit w ->
  within_limit (snd (request m e b k w)) /\
  within_limit (snd (query sql w)) /\
  within_limit (snd (queryAll fuel sql pageSize w)).
Proof.
  intros Hw. split; [|split].
  - now apply (keeps_request_go m e b _ k w).
  - now apply (keeps_query sql w).
  - now apply (keeps_queryAll_loop sql _ fuel 1 [] w).
Qed.

(** X8.  A [request] made when the window is full waits until its oldest
    call is 60100 ms old, and only then reads the tokens and calls the
    API; the call is recorded at that time. *)
Theorem request_waits_for_the_window m e b w t oldest rest r j :
  let kept := in_window (clock w) (requestTimestamps w) in
  let wait := 60000 - (clock w - oldest) + 100 in
  ascending_upto (clock w) (requestTimestamps w) = true ->
  kept = oldest :: rest ->
  (RATE_LIMIT <= length kept)%nat ->
  store w = Some t ->
  (clock w + wait) / 1000 + 300 < expires_at t ->
  api (api_calls w) (api_request m e b t) = Responded r ->
  ok r = true ->
  payload r = Parsed j ->
  exists w',
    request m e b 0 w = (Return j, w') /\
    trace w' = trace w ++ [Timeout (Some wait); GetTokens;
                           Fetch (api_request m e b t)] /\
    clock w' = oldest + 60100 /\
    requestTimestamps w' = kept ++ [oldest + 60100].
Proof.
  intros kept wait Hasc Hk Hfull Hs Hf Hapi Hok Hj.
  assert (Hin : clock w - oldest < 60000 /\ oldest <= clock w).
  { assert (H : In oldest kept) by (rewrite Hk; now left).
    apply filter_In in H as [H Hlt]. apply Z.ltb_lt in Hlt.
    destruct (ascending_upto_bounds _ _ Hasc) as [Hle _].
    rewrite Forall_forall in Hle. split; [exact Hlt|now apply Hle]. }
  assert (Hel : timer_elapsed (Some wait) = wait).
  { apply timer_elapsed_in_range. subst wait. lia. }
  assert (E1 : checkRateLimit w
               = (Return tt,
                  with_requestTimestamps (kept ++ [clock w + wait])
                    (emit (Timeout (Some wait))
                       (tick wait (with_requestTimestamps kept w))))).
  { rewrite checkRateLimit_eq. cbv zeta. fold kept.
    apply Nat.leb_le in Hfull. rewrite Hfull. rewrite Hk. cbn [hd].
    unfold RATE_LIMIT_WINDOW_MS. change (60 * 1000) with 60000.
    unfold wait in *. rewrite Hel. reflexivity. }
  assert (H429 : (status r =? 429) = false).
  { unfold ok in Hok. apply andb_true_iff in Hok as [_ H]. apply Z.leb_le in H.
    apply Z.eqb_neq. lia. }
  assert (H401 : (status r =? 401) = false).
  { unfold ok in Hok. apply andb_true_iff in Hok as [_ H]. apply Z.leb_le in H.
    apply Z.eqb_neq. lia. }
  unfold request. change (S (MAX_RETRIES - 0)) with 4%nat. cbn [request_go].
  rewrite (bind_Return _ _ _ _ _ E1).
  erewrite bind_Return.
  2: { apply (getValidTokens_fresh _ t); world_simpl; assumption. }
  unfold attempt, fetch, finish. run_monad. world_simpl.
  rewrite Hapi, H429, H401, Hok, Hj. cbn [andb negb].
  eexists. split; [reflexivity|]. world_simpl. rewrite <- !app_assoc.
  repeat split; try reflexivity.
  - subst wait. lia.
  - subst wait. do 2 f_equal. lia.
Qed.

(** ** Tokens *)

Lemma getValidTokens_stored w t' w' :
  getValidTokens w = (Return t', w') -> store w' = Some t'.
Proof.
  unfold getValidTokens, isTokenExpired, refreshTokens, fetch_token,
    calculateTokenExpiry. run_monad.
  destruct (store w) as [t|] eqn:Hs; [|discriminate]. world_simpl.
  destruct (expires_at t - 300 <=? clock w / 1000).
  - world_simpl.
    destruct (token_endpoint (token_calls w) (refresh_request (refresh_token t)))
      as [reason|[s p|data|reason]].
    + destruct reason as [|j|s|n s|[s c [st|] d]]; cbn [qb_status];
        try destruct (st =? 401); discriminate.
    + cbn [qb_status]. destruct (s =? 401); discriminate.
    + now intros [= <- <-].
    + destruct reason as [|j|s|n s|[s c [st|] d]]; cbn [qb_status];
        try destruct (st =? 401); discriminate.
  - intros [= <- <-]. exact Hs.
Qed.

(** X9.  Tokens that [getValidTokens] returns are the tokens in the store
    when it returns, and they belong to the realm the store held before.
    Either they were stored with more than 300 s to live and no call was
    made, or they were due, one call of the token endpoint granted new
    ones, and these are returned. *)
Theorem getValidTokens_returns w t' w' :
  getValidTokens w = (Return t', w') ->
  exists t,
    store w = Some t /\ store w' = Some t' /\ realm_id t' = realm_id t /\
    ((t' = t /\ clock w / 1000 + 300 < expires_at t /\
      token_calls w' = token_calls w)
     \/
     (expires_at t <= clock w / 1000 + 300 /\
      token_calls w' = S (token_calls w) /\
      exists data,
        token_endpoint (token_calls w) (refresh_request (refresh_token t))
        = TokenResponded (TokenGranted data) /\
        t' = granted data (realm_id t) (clock w))).
Proof.
  unfold getValidTokens, isTokenExpired, refreshTokens, fetch_token,
    calculateTokenExpiry. run_monad.
  destruct (store w) as [t|] eqn:Hs; [|discriminate]. world_simpl.
  destruct (expires_at t - 300 <=? clock w / 1000) eqn:E.
  - apply Z.leb_le in E. world_simpl.
    destruct (token_endpoint (token_calls w) (refresh_request (refresh_token t)))
      as [reason|[s p|data|reason]] eqn:Ht.
    + destruct reason as [|j|s|n s|[s c [st|] d]]; cbn [qb_status];
        try destruct (st =? 401); discriminate.
    + cbn [qb_status]. destruct (s =? 401); discriminate.
    + intros [= <- <-]. exists t. world_simpl.
      repeat split; try reflexivity. right. split; [lia|]. split; [reflexivity|].
      exists data. split; [exact Ht|reflexivity].
    + destruct reason as [|j|s|n s|[s c [st|] d]]; cbn [qb_status];
        try destruct (st =? 401); discriminate.
  - apply Z.leb_gt in E. intros [= <- <-]. exists t. world_simpl.
    rewrite Hs. repeat split; try reflexivity. left. repeat split. lia.
Qed.

(** X10.  When the token endpoint rejects the refresh that
    [getValidTokens] makes, the error thrown is REFRESH_FAILED with the
    status and the payload of the rejection, and the store is cleared
    exactly when that status is 401: after a 400, as for an invalid grant,
    the tokens stay. *)
Theorem getValidTokens_refresh_rejected w t s p :
  store w = Some t ->
  expires_at t <= clock w / 1000 + 300 ->
  token_endpoint (token_calls w) (refresh_request (refresh_token t))
  = TokenResponded (TokenRejected s p) ->
  exists w',
    getValidTokens w
    = (Throw (VQuickBooksError
                (mkQuickBooksError ("Failed to refresh tokens: " ++ decimal s)
                   QB_ERROR_CODES.REFRESH_FAILED (Some s)
                   (VData (errorData p)))), w') /\
    store w' = (if s =? 401 then None else Some t) /\
    trace w' = trace w
               ++ [GetTokens; Refresh (refresh_request (refresh_token t))]
               ++ (if s =? 401 then [ClearTokens] else []).
Proof.
  intros Hs He Htok.
  unfold getValidTokens, isTokenExpired, refreshTokens, fetch_token. run_monad.
  rewrite Hs. world_simpl.
  destruct (expires_at t - 300 <=? clock w / 1000) eqn:E.
  2: { apply Z.leb_gt in E. lia. }
  world_simpl. rewrite Htok. cbn [qb_status].
  destruct (s =? 401); eexists; (split; [reflexivity|]); world_simpl;
    rewrite <- ?app_assoc; split; try reflexivity; exact Hs.
Qed.

(** X11.  With an empty store, [request] and [query] both throw the
    UNAUTHORIZED error of [getValidTokens], which has no status, as it is,
    and neither server is called.  [request] has passed the limiter by
    then and has recorded a call; [query] has not. *)
Theorem no_tokens_no_call m e b k sql w :
  store w = None ->
  (exists w1 earlier,
     checkRateLimit w = (Return tt, w1) /\
     requestTimestamps w1 = earlier ++ [clock w1] /\
     request m e b k w = (Throw no_tokens, emit GetTokens w1) /\
     api_calls w1 = api_calls w /\ token_calls w1 = token_calls w) /\
  query sql w = (Throw no_tokens, emit GetTokens w).
Proof.
  intros Hs. split.
  - destruct (checkRateLimit_records w) as (w1 & earlier & E1 & Hl).
    destruct (checkRateLimit_returns w) as (w1' & E1' & S1 & A1 & T1 & _).
    assert (w1' = w1) by congruence. subst w1'.
    exists w1, earlier.
    split; [exact E1|]. split; [exact Hl|]. split; [|split; assumption].
    unfold request. cbn [request_go].
    rewrite (bind_Return _ _ _ _ _ E1).
    unfold getValidTokens. run_monad. world_simpl. now rewrite S1, Hs.
  - unfold query, getValidTokens. run_monad. now rewrite Hs.
Qed.

(** ** [request] in any environment *)

Lemma spends_free {A : Type} (m : M A) :
  (forall w, api_calls (snd (m w)) = api_calls w /\
             token_calls (snd (m w)) = token_calls w) ->
  spends 0 0 m.
Proof. intros H w. destruct (H w) as [-> ->]. lia. Qed.

Lemma spends_more {A : Type} (na nt na' nt' : nat) (m : M A) :
  spends na nt m -> (na <= na')%nat -> (nt <= nt')%nat -> spends na' nt' m.
Proof. intros H Ha Ht w. specialize (H w). lia. Qed.

Lemma spends_bind {A B : Type} (na nt na' nt' : nat) (m : M A) (k : A -> M B) :
  spends na nt m -> (forall a, spends na' nt' (k a)) ->
  spends (na + na') (nt + nt') (bind m k).
Proof.
  intros Hm Hk w. unfold bind. specialize (Hm w).
  destruct (m w) as [[a|e|] w1]; cbn [snd] in *; try lia.
  specialize (Hk a w1). lia.
Qed.

Lemma spends_try_catch {A : Type} (na nt na' nt' : nat) (m : M A)
    (h : JsValue -> M A) :
  spends na nt m -> (forall e, spends na' nt' (h e)) ->
  spends (na + na') (nt + nt') (try_catch m h).
Proof.
  intros Hm Hh w. unfold try_catch. specialize (Hm w).
  destruct (m w) as [[a|e|] w1]; cbn [snd] in *; try lia.
  specialize (Hh e w1). lia.
Qed.

Lemma spends_ret {A : Type} (a : A) : spends 0 0 (ret a).
Proof. apply spends_free. now intros w. Qed.

Lemma spends_throw {A : Type} (e : JsValue) : spends 0 0 (@throw A e).
Proof. apply spends_free. now intros w. Qed.

Lemma spends_lift {A : Type} (c : Completion A) : spends 0 0 (lift c).
Proof. destruct c; apply spends_free; now intros w. Qed.

Lemma spends_normalize {A : Type} error : spends 0 0 (@normalize A error).
Proof. apply spends_free. intros w. now rewrite normalize_eq. Qed.

Lemma spends_fetch req : spends 1 0 (fetch req).
Proof. intros w. unfold fetch. destruct (api _ _); cbn; lia. Qed.

Lemma spends_fetch_token req : spends 0 1 (fetch_token req).
Proof. intros w. unfold fetch_token. destruct (token_endpoint _ _); cbn; lia. Qed.

Lemma spends_checkRateLimit : spends 0 0 checkRateLimit.
Proof.
  apply spends_free. intros w.
  destruct (checkRateLimit_returns w) as (w' & -> & _ & Ha & Ht & _). now cbn.
Qed.

Lemma spends_refreshTokens refreshToken realmId :
  spends 0 1 (refreshTokens refreshToken realmId).
Proof.
  unfold refreshTokens.
  apply (spends_bind 0 1 0 0); [apply spends_fetch_token|].
  intros [s p|data|reason]; try apply spends_throw.
  apply spends_free. now intros w.
Qed.

Lemma spends_storeTokens tokens : spends 0 0 (storeTokens tokens).
Proof. apply spends_free. now intros w. Qed.

Lemma spends_getTokens : spends 0 0 getTokens.
Proof. apply spends_free. now intros w. Qed.

Lemma spends_getValidTokens : spends 0 1 getValidTokens.
Proof.
  unfold getValidTokens.
  apply (spends_bind 0 0 0 1); [apply spends_getTokens|].
  intros [tokens|]; [|apply (spends_more 0 0); [apply spends_throw|lia..]].
  apply (spends_bind 0 0 0 1); [apply spends_free; now intros w|].
  intros [|]; [|apply (spends_more 0 0); [apply spends_ret|lia..]].
  apply (spends_try_catch 0 1 0 0).
  - apply (spends_bind 0 1 0 0); [apply spends_refreshTokens|]. intros newTokens.
    apply (spends_bind 0 0 0 0); [apply spends_storeTokens|]. intros _.
    apply spends_ret.
  - intros error. apply (spends_bind 0 0 0 0); [|intros _; apply spends_throw].
    apply spends_free. intros w.
    destruct error as [|j|s|n s|[s c [st|] d]]; cbn [qb_status]; try now cbn.
    destruct (st =? 401); now cbn.
Qed.

Lemma spends_finish response : spends 0 0 (finish response).
Proof.
  unfold finish. destruct (negb (ok response)); [apply spends_throw|].
  destruct (payload response); [apply spends_ret|apply spends_throw].
Qed.

(** One pass through the [try] block: one call of the API, and a forced
    refresh only at retry count 0. *)
Lemma spends_attempt m e b k t :
  spends 1 (if Nat.ltb k 1 then 1 else 0) (attempt m e b k t).
Proof.
  unfold attempt.
  apply (spends_more (1 + 0) ((if Nat.ltb k 1 then 1 else 0) + 0)); [|lia..].
  apply spends_try_catch; [|intros; apply spends_normalize].
  apply (spends_bind 1 0 0); [apply spends_fetch|]. intros response.
  destruct (_ && _).
  { apply (spends_more 0 0); [|lia..].
    apply (spends_bind 0 0 0 0); [apply spends_free; now intros w|].
    intros _. apply spends_ret. }
  destruct (Nat.ltb k 1).
  2: { rewrite andb_false_r. apply spends_finish. }
  destruct (_ && _); [|apply (spends_more 0 0); [apply spends_finish|lia..]].
  apply (spends_bind 0 0 0 1); [apply spends_getTokens|].
  intros [tokens'|]; [|apply (spends_more 0 0); [apply spends_finish|lia..]].
  apply (spends_bind 0 1 0 0); [apply spends_refreshTokens|]. intros newTokens.
  apply (spends_bind 0 0 0 0); [apply spends_storeTokens|]. intros _.
  apply spends_ret.
Qed.

Lemma spends_request_go m e b fuel :
  forall k,
    spends fuel (fuel + (if Nat.ltb k 1 then 1 else 0)) (request_go fuel m e b k).
Proof.
  induction fuel as [|fuel IH]; intros k; cbn [request_go].
  - intros w. cbn. lia.
  - apply (spends_more (0 + (0 + (1 + fuel)))
                       (0 + (1 + ((if Nat.ltb k 1 then 1 else 0) + fuel))));
      [|lia..].
    apply spends_bind; [apply spends_checkRateLimit|]. intros _.
    apply spends_bind; [apply spends_getValidTokens|]. intros tokens.
    apply spends_bind; [apply spends_attempt|].
    intros [result|]; [apply (spends_more 0 0); [apply spends_ret|lia..]|].
    apply (spends_more fuel (fuel + 0)); [|lia..]. apply (IH (S k)).
Qed.

Lemma spends_query sql : spends 1 1 (query sql).
Proof.
  unfold query.
  apply (spends_more (0 + (0 + (1 + 0))) (1 + (0 + (0 + 0)))); [|lia..].
  apply spends_bind; [apply spends_getValidTokens|]. intros tokens.
  apply spends_bind; [apply spends_checkRateLimit|]. intros _.
  apply spends_bind; [apply spends_fetch|]. intros fetchResponse.
  destruct (negb (ok _)); [apply spends_normalize|].
  destruct (payload _); [apply spends_lift|apply spends_throw].
Qed.

(** X12.  Whatever the servers answer, one [request] from retry count 0
    calls the API at most 4 times and the token endpoint at most 5 times
    (once before each call when the tokens are due, once more after a
    first 401); one [query] calls each at most once. *)
Theorem request_calls_are_bounded m e b sql w :
  (let w' := snd (request m e b 0 w) in
   (api_calls w <= api_calls w' <= api_calls w + 4)%nat /\
   (token_calls w <= token_calls w' <= token_calls w + 5)%nat) /\
  (let w' := snd (query sql w) in
   (api_calls w <= api_calls w' <= api_calls w + 1)%nat /\
   (token_calls w <= token_calls w' <= token_calls w + 1)%nat).
Proof.
  split; cbv zeta.
  - pose proof (spends_request_go m e b 4 0 w) as H.
    change (Nat.ltb 0 1) with true in H. cbv iota in H.
    unfold request. change (S (MAX_RETRIES - 0)) with 4%nat. lia.
  - pose proof (spends_query sql w). lia.
Qed.

Lemma normalized_cases error :
  is_QuickBooksError (normalized error) \/ normalized error = cannot_convert.
Proof.
  unfold normalized. destruct (handleQuickBooksError error) as [q|t] eqn:E.
  - left. now exists q.
  - right. now destruct (handleQuickBooksError_throws _ _ E).
Qed.

Lemma refreshTokens_throws refreshToken realmId w err w' :
  refreshTokens refreshToken realmId w = (Throw err, w') ->
  is_QuickBooksError err \/ token_fault err.
Proof.
  unfold refreshTokens, fetch_token, calculateTokenExpiry. run_monad.
  destruct (token_endpoint (token_calls w) (refresh_request refreshToken))
    as [reason|[s p|data|reason]] eqn:E; intros [= <- <-].
  - right. exists (token_calls w), (refresh_request refreshToken). now left.
  - left. eexists. reflexivity.
  - right. exists (token_calls w), (refresh_request refreshToken). now right.
Qed.

Lemma getValidTokens_throws w err w' :
  getValidTokens w = (Throw err, w') ->
  is_QuickBooksError err \/ token_fault err.
Proof.
  unfold getValidTokens, isTokenExpired. run_monad.
  destruct (store w) as [t|].
  2: { intros [= <- <-]. left. eexists. reflexivity. }
  world_simpl.
  destruct (expires_at t - 300 <=? clock w / 1000); [|discriminate].
  destruct (refreshTokens _ _ _) as [[t'|x|] w1] eqn:E; [discriminate| |discriminate].
  apply refreshTokens_throws in E.
  destruct x as [|j|s|n s|[s c [st|] d]]; cbn [qb_status];
    try destruct (st =? 401); intros [= <- <-]; exact E.
Qed.

Lemma attempt_throws m e b k t w err w' :
  attempt m e b k t w = (Throw err, w') ->
  is_QuickBooksError err \/ err = cannot_convert.
Proof.
  unfold attempt, try_catch.
  destruct (bind _ _ w) as [[step|x|] w1]; try discriminate.
  rewrite normalize_eq. intros [= <- <-]. apply normalized_cases.
Qed.

Lemma request_go_throws m e b fuel :
  forall k w err w',
    request_go fuel m e b k w = (Throw err, w') ->
    is_QuickBooksError err \/ err = cannot_convert \/ token_fault err.
Proof.
  induction fuel as [|fuel IH]; intros k w err w'; cbn [request_go];
    [discriminate|].
  unfold bind at 1.
  destruct (checkRateLimit_returns w) as (w1 & -> & _).
  unfold bind at 1.
  destruct (getValidTokens w1) as [[t|x|] w2] eqn:E1.
  - unfold bind at 1.
    destruct (attempt m e b k t w2) as [[[result|]|x|] w3] eqn:E2.
    + discriminate.
    + apply IH.
    + intros [= <- <-]. destruct (attempt_throws _ _ _ _ _ _ _ _ E2); auto.
    + discriminate.
  - intros [= <- <-]. destruct (getValidTokens_throws _ _ _ E1); auto.
  - discriminate.
Qed.

(** X13.  What [request] throws, whatever the two servers answer and with a
    token store that answers (the store of this model, whose [getTokens],
    [storeTokens] and [clearTokens] do not fail), is a [QuickBooksError],
    or the [TypeError] of a message that [String] cannot convert, or the
    value with which a call of the token endpoint failed, a network failure
    or an unreadable body: the refresh that [getValidTokens] makes before
    the call stands outside the [try] of [request], and what it throws is
    not normalized. *)
Theorem request_throws m e b k w err w' :
  request m e b k w = (Throw err, w') ->
  is_QuickBooksError err \/ err = cannot_convert \/ token_fault err.
Proof. apply request_go_throws. Qed.

Lemma attempt_Done m e b k t w j w' :
  attempt m e b k t w = (Return (Done j), w') ->
  exists r,
    api (api_calls w) (api_request m e b t) = Responded r /\
    ok r = true /\ payload r = Parsed j /\
    w' = emit (Fetch (api_request m e b t)) (count_api w).
Proof.
  unfold attempt, try_catch, bind at 1, fetch.
  destruct (api (api_calls w) (api_request m e b t)) as [reason|r].
  { rewrite normalize_eq. discriminate. }
  destruct ((status r =? 429) && Nat.ltb k MAX_RETRIES).
  { run_monad. discriminate. }
  assert (Hfin : forall w0,
             match finish r w0 with
             | (Throw e0, w'0) => normalize e0 w'0
             | other => other
             end = (Return (Done j), w') ->
             ok r = true /\ payload r = Parsed j /\ w' = w0).
  { intros w0. unfold finish. destruct (ok r); cbn [negb].
    - destruct (payload r) as [j'|reason]; unfold ret, throw.
      + intros [= <- <-]. repeat split.
      + rewrite normalize_eq. discriminate.
    - unfold throw. rewrite normalize_eq. discriminate. }
  destruct ((status r =? 401) && Nat.ltb k 1) eqn:H401.
  - unfold bind at 1, getTokens.
    match goal with |- context [store ?x] => destruct (store x) as [t1|] end.
    + unfold bind at 1.
      destruct (refreshTokens _ _ _) as [[t2|x|] w2].
      * run_monad. discriminate.
      * rewrite normalize_eq. discriminate.
      * discriminate.
    + intros H. exfalso. apply Hfin in H as (Hok & _).
      apply andb_true_iff in H401 as [H401 _]. apply Z.eqb_eq in H401.
      unfold ok in Hok. rewrite H401 in Hok. discriminate.
  - intros H. apply Hfin in H as (Hok & Hj & ->).
    exists r. repeat split; assumption.
Qed.

Lemma request_go_returns m e b fuel :
  forall k w j w',
    request_go fuel m e b k w = (Return j, w') ->
    exists t r w0,
      store w' = Some t /\
      api (api_calls w0) (api_request m e b t) = Responded r /\
      ok r = true /\ payload r = Parsed j /\
      w' = emit (Fetch (api_request m e b t)) (count_api w0).
Proof.
  induction fuel as [|fuel IH]; intros k w j w'; cbn [request_go];
    [discriminate|].
  unfold bind at 1.
  destruct (checkRateLimit_returns w) as (w1 & -> & _).
  unfold bind at 1.
  destruct (getValidTokens w1) as [[t|x|] w2] eqn:E1; try discriminate.
  unfold bind at 1.
  destruct (attempt m e b k t w2) as [[[result|]|x|] w3] eqn:E2; try discriminate.
  - intros [= <- <-].
    destruct (attempt_Done _ _ _ _ _ _ _ _ E2) as (r & Hapi & Hok & Hj & ->).
    pose proof (getValidTokens_stored _ _ _ E1) as St.
    exists t, r, w2. repeat split; assumption.
  - apply IH.
Qed.

Lemma query_returns sql w v w' :
  query sql w = (Return v, w') ->
  exists t r data w0,
    store w' = Some t /\
    api (api_calls w0) (query_request sql t) = Responded r /\
    ok r = true /\ payload r = Parsed data /\ unwrap data = Normal v /\
    w' = emit (Fetch (query_request sql t)) (count_api w0).
Proof.
  unfold query. unfold bind at 1.
  destruct (getValidTokens w) as [[t|x|] w1] eqn:E1; try discriminate.
  pose proof (getValidTokens_stored _ _ _ E1) as St.
  unfold bind at 1.
  destruct (checkRateLimit_returns w1) as (w2 & -> & S2 & _).
  unfold bind at 1, fetch.
  destruct (api (api_calls w2) (query_request sql t)) as [reason|r] eqn:Hapi;
    [discriminate|].
  destruct (ok r) eqn:Hok; cbn [negb]; [|rewrite normalize_eq; discriminate].
  destruct (payload r) as [data|reason] eqn:Hp; [|discriminate].
  destruct (unwrap data) as [v'|x] eqn:Hu; [|discriminate].
  intros [= <- <-]. exists t, r, data, w2.
  repeat split; try assumption. cbn. now rewrite S2.
Qed.

(** X14.  What [request] returns, in any environment, is the payload of an
    [ok] response to a call it made with the tokens that are in the store
    when it returns, and that call is the last thing it did.  The same
    holds of [query], which returns the unwrapped payload. *)
Theorem request_returns_an_ok_payload m e b k sql w w' :
  (forall j,
     request m e b k w = (Return j, w') ->
     exists t r w0,
       store w' = Some t /\
       api (api_calls w0) (api_request m e b t) = Responded r /\
       ok r = true /\ payload r = Parsed j /\
       w' = emit (Fetch (api_request m e b t)) (count_api w0)) /\
  (forall rows,
     query sql w = (Return rows, w') ->
     exists t r data w0,
       store w' = Some t /\
       api (api_calls w0) (query_request sql t) = Responded r /\
       ok r = true /\ payload r = Parsed data /\ unwrap data = Normal rows /\
       w' = emit (Fetch (query_request sql t)) (count_api w0)).
Proof.
  split.
  - intros j. apply request_go_returns.
  - intros rows. apply query_returns.
Qed.

(** ** [request] and [query]: failures that are not retried *)

(** X15.  A call of the API that fails in [fetch] is not retried.
    [request] turns the [TypeError], whose message mentions fetch, into a
    NETWORK_ERROR with status 0; [query], which has no [try], throws the
    [TypeError] as it is. *)
Theorem network_failure m e b k sql w t msg :
  store w = Some t ->
  clock w / 1000 + 300 < expires_at t ->
  (length (requestTimestamps w) < RATE_LIMIT)%nat ->
  includes msg "fetch" = true ->
  (api (api_calls w) (api_request m e b t) = NetworkFailure (VTypeError msg) ->
   exists w',
     request m e b k w
     = (Throw (VQuickBooksError
                 (mkQuickBooksError "Network error connecting to QuickBooks API"
                    QB_ERROR_CODES.NETWORK_ERROR (Some 0) (VTypeError msg))), w') /\
     follows w w' 0 [GetTokens; Fetch (api_request m e b t)] (Some t) 1 0) /\
  (api (api_calls w) (query_request sql t) = NetworkFailure (VTypeError msg) ->
   exists w',
     query sql w = (Throw (VTypeError msg), w') /\
     follows w w' 0 [GetTokens; Fetch (query_request sql t)] (Some t) 1 0).
Proof.
  intros Hs Hf Hroom Hmsg. split; intros Hapi.
  - unfold request.
    rewrite (request_go_attempt _ m e b k w t Hs Hf Hroom).
    unfold attempt, fetch. run_monad. unfold attempting at 1. world_simpl.
    rewrite Hapi. rewrite normalize_eq. unfold normalized.
    cbn [handleQuickBooksError instanceof_TypeError prop_message andb].
    rewrite Hmsg. eexists. split; [reflexivity|]. frame.
  - rewrite (query_attempt sql w t Hs Hf Hroom).
    unfold fetch. run_monad. unfold attempting at 1. world_simpl.
    rewrite Hapi. eexists. split; [reflexivity|]. frame.
Qed.

(** X16.  When the refresh that [getValidTokens] makes before a call
    fails in [fetch], [request] throws that [TypeError] as it is, not a
    NETWORK_ERROR: the API is not called and the tokens stay in the
    store. *)
Theorem request_refresh_failure_is_raw m e b k w t msg :
  store w = Some t ->
  expires_at t <= clock w / 1000 + 300 ->
  (length (requestTimestamps w) < RATE_LIMIT)%nat ->
  token_endpoint (token_calls w) (refresh_request (refresh_token t))
  = TokenNetworkFailure (VTypeError msg) ->
  exists w',
    request m e b k w = (Throw (VTypeError msg), w') /\
    api_calls w' = api_calls w /\
    store w' = Some t /\
    trace w' = trace w ++ [GetTokens; Refresh (refresh_request (refresh_token t))].
Proof.
  intros Hs He Hroom Htok. unfold request. cbn [request_go].
  rewrite (bind_Return _ _ _ _ _ (checkRateLimit_room w Hroom)).
  unfold getValidTokens, isTokenExpired, refreshTokens, fetch_token. run_monad.
  world_simpl. rewrite Hs.
  assert (E : (expires_at t - 300 <=? clock w / 1000) = true)
    by (apply Z.leb_le; lia).
  world_simpl. rewrite E. world_simpl. rewrite Htok.
  eexists. split; [reflexivity|]. world_simpl. rewrite <- app_assoc.
  repeat split; try reflexivity. exact Hs.
Qed.

(** X17.  A response that is not [ok] and has a status other than 429 and
    401 is never retried.  For a payload with no [status] and no [message]
    of its own, a 403 is thrown as UNAUTHORIZED with status 403, and any
    other one, a 404 or a 503 say, as API_ERROR with status 500: the status
    of the response is to be found in the details only. *)
Theorem request_other_status m e b k w t r :
  store w = Some t ->
  clock w / 1000 + 300 < expires_at t ->
  (length (requestTimestamps w) < RATE_LIMIT)%nat ->
  api (api_calls w) (api_request m e b t) = Responded r ->
  ok r = false ->
  status r <> 429 -> status r <> 401 ->
  let data := errorData (payload r) in
  let thrown := error_object (status r) data in
  get_prop "status" (own_props data) = None ->
  get_prop "message" (own_props data) = None ->
  exists w',
    request m e b k w
    = (Throw (VQuickBooksError
                (if status r =? 403 then
                   mkQuickBooksError "Access forbidden - check API permissions"
                     QB_ERROR_CODES.UNAUTHORIZED (Some 403) thrown
                 else
                   mkQuickBooksError
                     "An unexpected error occurred with QuickBooks integration"
                     QB_ERROR_CODES.API_ERROR (Some 500) thrown)), w') /\
    follows w w' 0 [GetTokens; Fetch (api_request m e b t)] (Some t) 1 0.
Proof.
  intros Hs Hf Hroom Hapi Hok H429 H401 data thrown Hst Hmsg.
  apply Z.eqb_neq in H429, H401.
  unfold request.
  destruct (request_go_error (MAX_RETRIES - k) m e b k w t r) as (w1 & E & F);
    try assumption; try (now rewrite ?H429, ?H401).
  exists w1. split; [|exact F]. rewrite E, normalize_eq. f_equal.
  unfold normalized. fold data. fold thrown. unfold thrown.
  rewrite (handleQuickBooksError_error_object _ _ Hst), H401, H429.
  destruct (status r =? 403); [reflexivity|].
  unfold by_message, message_text.
  now rewrite prop_message_error_object, Hmsg.
Qed.

(** X18.  An [ok] response whose body is not JSON, an empty 204 say,
    makes [request] throw API_ERROR with status 500, its [json()] being
    awaited inside the [try]; [query] throws the [SyntaxError] as it
    is. *)
Theorem unparseable_success m e b k sql w t r name msg :
  store w = Some t ->
  clock w / 1000 + 300 < expires_at t ->
  (length (requestTimestamps w) < RATE_LIMIT)%nat ->
  ok r = true ->
  payload r = Unparseable (VError name msg) ->
  includes msg "token expired" || includes msg "invalid_token" = false ->
  (api (api_calls w) (api_request m e b t) = Responded r ->
   exists w',
     request m e b k w
     = (Throw (VQuickBooksError
                 (mkQuickBooksError
                    "An unexpected error occurred with QuickBooks integration"
                    QB_ERROR_CODES.API_ERROR (Some 500) (VError name msg))), w') /\
     follows w w' 0 [GetTokens; Fetch (api_request m e b t)] (Some t) 1 0) /\
  (api (api_calls w) (query_request sql t) = Responded r ->
   exists w',
     query sql w = (Throw (VError name msg), w') /\
     follows w w' 0 [GetTokens; Fetch (query_request sql t)] (Some t) 1 0).
Proof.
  intros Hs Hf Hroom Hok Hpay Hmsg. split; intros Hapi.
  - unfold request.
    rewrite (request_go_attempt _ m e b k w t Hs Hf Hroom).
    unfold attempt, fetch, finish. run_monad. unfold attempting at 1. world_simpl.
    rewrite Hapi.
    assert (H429 : (status r =? 429) = false).
    { unfold ok in Hok. apply andb_true_iff in Hok as [_ H]. apply Z.leb_le in H.
      apply Z.eqb_neq. lia. }
    assert (H401 : (status r =? 401) = false).
    { unfold ok in Hok. apply andb_true_iff in Hok as [_ H]. apply Z.leb_le in H.
      apply Z.eqb_neq. lia. }
    rewrite H429, H401, Hok, Hpay. cbn [andb negb]. rewrite normalize_eq.
    unfold normalized, handleQuickBooksError, by_message, message_text.
    cbn [instanceof_TypeError andb is_object prop_status prop_message truthy js_String].
    destruct (String.eqb msg "") eqn:Em; cbn [negb].
    + eexists. split; [reflexivity|]. frame.
    + rewrite Hmsg. eexists. split; [reflexivity|]. frame.
  - rewrite (query_attempt sql w t Hs Hf Hroom).
    unfold fetch. run_monad. unfold attempting at 1. world_simpl.
    rewrite Hapi, Hok, Hpay. cbn [negb].
    eexists. split; [reflexivity|]. frame.
Qed.

(** ** [request]: retries that succeed *)



(** X21.  With stored tokens that are due, [request] refreshes them
    before the call, stores the new ones and calls the API once, with the
    new access token. *)
Theorem request_refreshes_before_call m e b w t data r j :
  let t' := granted data (realm_id t) (clock w) in
  store w = Some t ->
  expires_at t <= clock w / 1000 + 300 ->
  (length (requestTimestamps w) < RATE_LIMIT)%nat ->
  token_endpoint (token_calls w) (refresh_request (refresh_token t))
  = TokenResponded (TokenGranted data) ->
  api (api_calls w) (api_request m e b t') = Responded r ->
  ok r = true ->
  payload r = Parsed j ->
  exists w',
    request m e b 0 w = (Return j, w') /\
    follows w w' 0
      [GetTokens; Refresh (refresh_request (refresh_token t)); StoreTokens t';
       Fetch (api_request m e b t')]
      (Some t') 1 1.
Proof.
  intros t' Hs He Hroom Htok Hapi Hok Hj.
  assert (E : (expires_at t - 300 <=? clock w / 1000) = true)
    by (apply Z.leb_le; lia).
  unfold request. change (S (MAX_RETRIES - 0)) with 4%nat. cbn [request_go].
  rewrite (bind_Return _ _ _ _ _ (checkRateLimit_room w Hroom)).
  assert (H429 : (status r =? 429) = false).
  { unfold ok in Hok. apply andb_true_iff in Hok as [_ H]. apply Z.leb_le in H.
    apply Z.eqb_neq. lia. }
  assert (H401 : (status r =? 401) = false).
  { unfold ok in Hok. apply andb_true_iff in Hok as [_ H]. apply Z.leb_le in H.
    apply Z.eqb_neq. lia. }
  unfold getValidTokens, isTokenExpired, refreshTokens, fetch_token,
    calculateTokenExpiry, attempt, fetch, finish. run_monad.
  world_simpl. rewrite Hs. world_simpl. rewrite E. world_simpl. rewrite Htok.
  world_simpl. fold (granted data (realm_id t) (clock w)). fold t'.
  rewrite Hapi, H429, H401, Hok, Hj. cbn [andb negb].
  eexists. split; [reflexivity|]. frame.
Qed.

(** ** [query] and [queryAll], continued *)

Lemma get_prop_skip key before rest :
  Forall (fun kv : string * Json => String.eqb (fst kv) key = false) before ->
  get_prop key (before ++ rest) = get_prop key rest.
Proof.
  induction 1 as [|[k v] before Hk _ IH]; [reflexivity|].
  cbn [app get_prop]. cbn [fst] in Hk. now rewrite Hk.
Qed.

Lemma entity_keys_skip before rest :
  Forall (fun kv : string * Json => is_metadata (fst kv) = true) before ->
  filter (fun k => negb (existsb (String.eqb k) metadata_keys))
         (map fst (before ++ rest))
  = filter (fun k => negb (existsb (String.eqb k) metadata_keys)) (map fst rest).
Proof.
  induction 1 as [|[k v] before Hk _ IH]; [reflexivity|].
  cbn [app map fst filter]. cbn [fst] in Hk. unfold is_metadata in Hk.
  rewrite Hk. cbn [negb]. exact IH.
Qed.

(** X22.  Of an envelope, [query] returns the member of [QueryResponse]
    under the first key that is not [startPosition], [maxResults] or
    [totalCount], wherever the three stand and whatever follows; and the
    empty array when there is no other key, as in the answer to a
    count. *)
Theorem unwrap_first_entity props before key value rest :
  Forall (fun kv => is_metadata (fst kv) = true) before ->
  is_metadata key = false ->
  key <> "" ->
  (get_prop "QueryResponse" props = Some (JObj (before ++ (key, value) :: rest)) ->
   unwrap (JObj props) = Normal (Some value)) /\
  (get_prop "QueryResponse" props = Some (JObj before) ->
   unwrap (JObj props) = Normal (Some (JArr []))).
Proof.
  intros Hmeta Hkey Hne.
  pose proof (fun l => entity_keys_skip before l Hmeta) as Hf.
  split; intros Hqr.
  - unfold unwrap, member, Object_keys. cbn [own_props]. rewrite Hqr.
    cbn [own_props]. rewrite Hf. cbn [map fst filter].
    unfold is_metadata in Hkey. rewrite Hkey. cbn [negb].
    destruct (String.eqb key "") eqn:E; [apply String.eqb_eq in E; contradiction|].
    cbn [negb]. f_equal. rewrite get_prop_skip.
    + cbn [get_prop]. now rewrite String.eqb_refl.
    + eapply Forall_impl; [|exact Hmeta]. intros [k v] Hk. cbn [fst] in *.
      destruct (String.eqb k key) eqn:Ek; [|reflexivity].
      apply String.eqb_eq in Ek. subst k. unfold is_metadata in Hk. congruence.
  - unfold unwrap, member, Object_keys. cbn [own_props]. rewrite Hqr.
    cbn [own_props]. specialize (Hf []). rewrite app_nil_r in Hf. rewrite Hf.
    reflexivity.
Qed.

Lemma query_refused sql w r :
  store w <> None ->
  always_grants ->
  (forall req, api (api_calls w) req = Responded r) ->
  ok r = false ->
  exists w',
    query sql w
    = (Throw (normalized (error_object (status r) (errorData (payload r)))), w') /\
    api_calls w' = S (api_calls w).
Proof.
  intros Hs Hg Hr Hok. unfold query.
  destruct (getValidTokens_granting w Hs Hg) as (t & w1 & E1 & S1 & A1 & F1).
  rewrite (bind_Return _ _ _ _ _ E1).
  destruct (checkRateLimit_returns w1) as (w2 & E2 & S2 & A2 & T2 & F2).
  rewrite (bind_Return _ _ _ _ _ E2).
  unfold fetch. run_monad. rewrite A2, A1, Hr, Hok. cbn [negb].
  rewrite normalize_eq.
  eexists. split; [reflexivity|]. world_simpl. now rewrite A2, A1.
Qed.

Lemma queryAll_loop_aborts sql p k :
  forall fuel startPosition allResults w (page : nat -> list Json) r,
  store w <> None ->
  always_grants ->
  (forall i, (i < k)%nat -> serves_page (i + api_calls w) (page i)) ->
  (forall i, (i < k)%nat -> p <= Z.of_nat (length (page i))) ->
  (forall req, api (k + api_calls w) req = Responded r) ->
  ok r = false ->
  (k < fuel)%nat ->
  exists w',
    queryAll_loop fuel sql p startPosition allResults w
    = (Throw (normalized (error_object (status r) (errorData (payload r)))), w') /\
    api_calls w' = (S k + api_calls w)%nat.
Proof.
  induction k as [|k IH]; intros fuel startPosition allResults w page r
                                 Hs Hg Hserve Hfull Hr Hok Hfuel.
  - destruct fuel as [|fuel]; [lia|]. cbn [queryAll_loop].
    destruct (query_refused (paginated sql startPosition p) w r Hs Hg Hr Hok)
      as (w1 & E1 & A1).
    rewrite (bind_Throw _ _ _ _ _ E1). exists w1. split; [reflexivity|exact A1].
  - destruct fuel as [|fuel]; [lia|]. cbn [queryAll_loop].
    destruct (query_served (paginated sql startPosition p) w (page O) Hs Hg
                (Hserve O ltac:(lia))) as (w1 & E1 & S1 & A1 & Q1).
    rewrite (bind_Return _ _ _ _ _ E1). run_monad. cbn [spread_elements length_of].
    pose proof (Hfull O ltac:(lia)) as H0. apply Z.ltb_ge in H0. rewrite H0.
    destruct (IH fuel (startPosition + p) (allResults ++ page O) w1
                (fun i => page (S i)) r) as (w2 & E2 & A2); try assumption; try lia.
    { intros i Hi. rewrite A1.
      replace (i + S (api_calls w))%nat with (S i + api_calls w)%nat by lia.
      apply Hserve. lia. }
    { intros i Hi. apply Hfull. lia. }
    { intros req. rewrite A1.
      replace (k + S (api_calls w))%nat with (S k + api_calls w)%nat by lia.
      apply Hr. }
    exists w2. split; [exact E2|]. rewrite A2, A1. lia.
Qed.

(** X23.  [queryAll] gives all or nothing.  When the call for a page is
    answered by a response that is not [ok], after any number of full
    pages, [queryAll] throws the normalized error of that response, having
    made one call for each page asked: the rows of the pages before are
    not returned. *)
Theorem queryAll_aborts_on_refused_page sql p w (page : nat -> list Json) k r :
  1 <= p <= 1000 ->
  store w <> None ->
  always_grants ->
  (forall i, (i < k)%nat -> serves_page (i + api_calls w) (page i)) ->
  (forall i, (i < k)%nat -> Z.of_nat (length (page i)) = p) ->
  (forall req, api (k + api_calls w) req = Responded r) ->
  ok r = false ->
  forall fuel, (k < fuel)%nat ->
  exists w',
    queryAll fuel sql p w
    = (Throw (normalized (error_object (status r) (errorData (payload r)))), w') /\
    api_calls w' = (S k + api_calls w)%nat.
Proof.
  intros Hp Hs Hg Hserve Hfull Hr Hok fuel Hfuel.
  unfold queryAll. rewrite Z.min_l by lia.
  apply (queryAll_loop_aborts sql p k fuel 1 [] w page r); try assumption.
  intros i Hi. rewrite (Hfull i Hi). lia.
Qed.

(** ** The entity and utility methods *)

(** What returning [response.Member] comes to. *)
Lemma lift_property_of (j : Json) (key : string) (w : World) :
  lift (property_of j key) w
  = (match j with
     | JNull =>
         Throw (VTypeError
                  ("Cannot read properties of null (reading '" ++ key ++ "')"))
     | _ => Return (get_prop key (own_props j))
     end, w).
Proof. destruct j; reflexivity. Qed.

(** X24.  Each of the seven methods that read an entity by its id makes
    one GET of [/v3/company/<realm>/<entity>/<id>] on the API of the
    configured environment, with the bearer token and no body, and returns
    the member of the payload that is named after the entity: [undefined]
    when the payload has none, and a [TypeError], thrown outside [request]
    and so not normalized, when the payload is [null]. *)
Theorem read_by_id entity id w t r j :
  let req :=
    {| url := (API_BASE env ++ "/v3/company/" ++ realm_id t
               ++ entity_path entity ++ "/" ++ id)%string;
       method := "GET";
       headers := [("Authorization", ("Bearer " ++ access_token t)%string);
                   ("Accept", "application/json")];
       body := None |} in
  store w = Some t ->
  clock w / 1000 + 300 < expires_at t ->
  (length (requestTimestamps w) < RATE_LIMIT)%nat ->
  api (api_calls w) req = Responded r ->
  ok r = true ->
  payload r = Parsed j ->
  exists w',
    read entity id w
    = (match j with
       | JNull =>
           Throw (VTypeError
                    ("Cannot read properties of null (reading '"
                     ++ entity_name entity ++ "')"))
       | _ => Return (get_prop (entity_name entity) (own_props j))
       end, w') /\
    follows w w' 0 [GetTokens; Fetch req] (Some t) 1 0.
Proof.
  intros req Hs Hf Hroom Hapi Hok Hj.
  assert (Hreq : api_request "GET" (entity_path entity ++ "/" ++ id) None t = req).
  { unfold api_request, api_url, bearer, req. cbn [app]. reflexivity. }
  destruct (request_go_ok 3 "GET" (entity_path entity ++ "/" ++ id) None 0 w t r j)
    as (w1 & E & F); try assumption.
  exists w1. rewrite <- Hreq. split; [|exact F].
  destruct entity;
    cbn [read entity_path entity_name];
    unfold getInvoice, getCustomer, getPayment, getAccount, getVendor, getBill,
      getItem, request;
    change (S (MAX_RETRIES - 0)) with 4%nat;
    cbn [entity_path append] in E;
    (erewrite bind_Return; [|exact E]); apply lift_property_of.
Qed.

(** X25.  Each of the eleven [create...] and [update...] methods makes
    one POST of [/v3/company/<realm>/<entity>], the same for both, and
    returns the member of the payload that is named after the entity.
    The entity is sent as JSON, with a JSON content type, when it is
    truthy, as every object is; a falsy one is not sent at all. *)
Theorem write_posts_json entity send data w t r j :
  In send (writers entity) ->
  let req :=
    {| url := (API_BASE env ++ "/v3/company/" ++ realm_id t
               ++ entity_path entity)%string;
       method := "POST";
       headers := [("Authorization", ("Bearer " ++ access_token t)%string);
                   ("Accept", "application/json")]
                  ++ (if truthy data then [("Content-Type", "application/json")]
                      else []);
       body := if truthy data then Some (Stringified data) else None |} in
  store w = Some t ->
  clock w / 1000 + 300 < expires_at t ->
  (length (requestTimestamps w) < RATE_LIMIT)%nat ->
  api (api_calls w) req = Responded r ->
  ok r = true ->
  payload r = Parsed j ->
  exists w',
    send data w
    = (match j with
       | JNull =>
           Throw (VTypeError
                    ("Cannot read properties of null (reading '"
                     ++ entity_name entity ++ "')"))
       | _ => Return (get_prop (entity_name entity) (own_props j))
       end, w') /\
    follows w w' 0 [GetTokens; Fetch req] (Some t) 1 0.
Proof.
  intros Hin req Hs Hf Hroom Hapi Hok Hj.
  assert (Hreq : api_request "POST" (entity_path entity) (Some data) t = req).
  { unfold api_request, api_url, bearer, req. cbn [option_map].
    destruct (truthy data); reflexivity. }
  destruct (request_go_ok 3 "POST" (entity_path entity) (Some data) 0 w t r j)
    as (w1 & E & F); try assumption.
  exists w1. rewrite <- Hreq. split; [|exact F].
  destruct entity; cbn [writers In] in Hin;
    repeat match type of Hin with
           | _ \/ _ => destruct Hin as [<-|Hin]
           | False => contradiction
           end;
    cbn [entity_path entity_name];
    unfold createInvoice, updateInvoice, createCustomer, updateCustomer,
      createPayment, createVendor, updateVendor, createBill, updateBill,
      createItem, updateItem, request;
    change (S (MAX_RETRIES - 0)) with 4%nat;
    cbn [entity_path] in E;
    (erewrite bind_Return; [|exact E]); apply lift_property_of.
Qed.

(** X26.  [deleteInvoice] makes the call [updateInvoice] makes for the
    object with the members [Id] and [SyncToken]: one POST of that object
    to [/invoice], with no parameter that asks for a deletion.  It returns
    nothing, whatever the payload of the [ok] response, [null] included. *)
Theorem deleteInvoice_posts_to_invoice id syncToken w t r j :
  let sparse := JObj [("Id", JStr id); ("SyncToken", JStr syncToken)] in
  let req :=
    {| url := (API_BASE env ++ "/v3/company/" ++ realm_id t ++ "/invoice")%string;
       method := "POST";
       headers := [("Authorization", ("Bearer " ++ access_token t)%string);
                   ("Accept", "application/json");
                   ("Content-Type", "application/json")];
       body := Some (Stringified sparse) |} in
  store w = Some t ->
  clock w / 1000 + 300 < expires_at t ->
  (length (requestTimestamps w) < RATE_LIMIT)%nat ->
  api (api_calls w) req = Responded r ->
  ok r = true ->
  payload r = Parsed j ->
  exists w',
    deleteInvoice id syncToken w = (Return tt, w') /\
    follows w w' 0 [GetTokens; Fetch req] (Some t) 1 0 /\
    snd (updateInvoice sparse w) = w'.
Proof.
  intros sparse req Hs Hf Hroom Hapi Hok Hj.
  destruct (request_go_ok 3 "POST" "/invoice" (Some sparse) 0 w t r j)
    as (w1 & E & F); try assumption.
  exists w1. split; [|split; [exact F|]].
  - unfold deleteInvoice, request. change (S (MAX_RETRIES - 0)) with 4%nat.
    fold sparse. now rewrite (bind_Return _ _ _ _ _ E).
  - unfold updateInvoice, request. change (S (MAX_RETRIES - 0)) with 4%nat.
    rewrite (bind_Return _ _ _ _ _ E), lift_property_of. reflexivity.
Qed.

(** X27.  Each of the seven list methods makes one query and returns its
    rows, however many there are: it asks for no further page.  The text
    is [SELECT * FROM <Entity>], followed by [WHERE] and the condition when
    one is given and not empty; accounts and items are restricted to the
    active ones when no condition is given, and only then. *)
Theorem list_all_queries_once entity where_clause w rows :
  let filtered :=
    match where_clause with
    | Some condition => negb (String.eqb condition "")
    | None => false
    end in
  let sql :=
    ("SELECT * FROM " ++ entity_name entity
     ++ (if filtered then " WHERE " ++ match where_clause with
                                       | Some condition => condition
                                       | None => ""
                                       end
         else match entity with
              | Account | Item => " WHERE Active = true"
              | _ => ""
              end))%string in
  store w <> None ->
  always_grants ->
  serves_page (api_calls w) rows ->
  exists w',
    list_all entity where_clause w = (Return (Some (JArr rows)), w') /\
    api_calls w' = S (api_calls w) /\
    queries (trace w') = queries (trace w) ++ [Some (Text sql)].
Proof.
  intros filtered sql Hs Hg Hp.
  destruct (query_served sql w rows Hs Hg Hp) as (w' & E & _ & A & Q).
  exists w'. split; [|split; assumption]. rewrite <- E.
  subst sql filtered.
  destruct entity; cbn [list_all entity_name];
    unfold getInvoices, getCustomers, getPayments, getAccounts, getVendors,
      getBills, getItems, select_where; cbv zeta;
    destruct where_clause as [condition|]; try reflexivity;
    destruct (String.eqb condition ""); reflexivity.
Qed.



(** X29.  [getConnectionStatus] reads the store and does nothing else.
    Without tokens it reports a client that is not connected and needs no
    refresh; with tokens, their realm and expiry, and [needsRefresh]
    exactly when a [getValidTokens] made now would call the token
    endpoint. *)
Theorem getConnectionStatus_predicts_refresh w :
  exists report,
    getConnectionStatus w = (Return report, emit GetTokens w) /\
    match store w with
    | None =>
        report = {| ConnectionStatus.isConnected := false;
                    ConnectionStatus.needsRefresh := false;
                    ConnectionStatus.realmId := None;
                    ConnectionStatus.expiresAt := None |}
    | Some t =>
        ConnectionStatus.isConnected report = true /\
        ConnectionStatus.realmId report = Some (realm_id t) /\
        ConnectionStatus.expiresAt report = Some (expires_at t) /\
        (ConnectionStatus.needsRefresh report = true <->
         token_calls (snd (getValidTokens w)) = S (token_calls w))
    end.
Proof.
  unfold getConnectionStatus, isTokenExpired. run_monad.
  destruct (store w) as [t|] eqn:Hs; world_simpl.
  2: { eexists. split; reflexivity. }
  eexists. split; [reflexivity|]. cbn. repeat split; try reflexivity.
  - intros E.
    unfold getValidTokens, isTokenExpired, refreshTokens, fetch_token,
      calculateTokenExpiry. run_monad. rewrite Hs. world_simpl. rewrite E.
    world_simpl.
    destruct (token_endpoint (token_calls w) (refresh_request (refresh_token t)))
      as [reason|[s p|data|reason]]; world_simpl; try reflexivity.
    + destruct reason as [|j|s|n s|[s c [st|] d]]; cbn [qb_status];
        try destruct (st =? 401); reflexivity.
    + cbn [qb_status]. destruct (s =? 401); reflexivity.
    + destruct reason as [|j|s|n s|[s c [st|] d]]; cbn [qb_status];
        try destruct (st =? 401); reflexivity.
  - destruct (expires_at t - 300 <=? clock w / 1000) eqn:E; [reflexivity|].
    unfold getValidTokens, isTokenExpired. run_monad. rewrite Hs. world_simpl.
    rewrite E. world_simpl. intros H. exfalso. clear - H. lia.
Qed.

(** X30.  [isConnected] tells whether the store holds tokens, not whether
    they are of any use: it is true of tokens that are due, and after
    [getValidTokens] has failed on a rejected refresh it is false exactly
    when the rejection had status 401 and the store was cleared. *)
Theorem isConnected_after_rejected_refresh w t s p :
  store w = Some t ->
  expires_at t <= clock w / 1000 + 300 ->
  token_endpoint (token_calls w) (refresh_request (refresh_token t))
  = TokenResponded (TokenRejected s p) ->
  fst (isConnected w) = Return true /\
  fst (isConnected (snd (getValidTokens w))) = Return (negb (s =? 401)).
Proof.
  intros Hs He Htok. split.
  - unfold isConnected. run_monad. now rewrite Hs.
  - unfold getValidTokens, isTokenExpired, refreshTokens, fetch_token. run_monad.
    rewrite Hs. world_simpl.
    destruct (expires_at t - 300 <=? clock w / 1000) eqn:E.
    2: { apply Z.leb_gt in E. lia. }
    world_simpl. rewrite Htok. cbn [qb_status].
    unfold isConnected. run_monad.
    destruct (s =? 401); world_simpl; [reflexivity|]. now rewrite Hs.
Qed.

End Further.

(** * The theorems at work, and the counterexamples *)

Import Scenario.



(** C2: tokens that expire in exactly 300 s are refreshed. *)
Lemma getValidTokens_refreshes_at_boundary :
  expires_at boundary_tokens = clock boundary_world / 1000 + 300 /\
  refreshes (trace (snd (@getValidTokens rejecting boundary_world)))
  = [@refresh_request rejecting "refresh-0"] /\
  fst (@getValidTokens rejecting boundary_world)
  = Return (granted grant "4620816365" 1000000).
Proof. vm_compute. repeat split; reflexivity. Qed.

Lemma getValidTokens_refreshes_within_buffer_witness :
  refreshes (trace (snd (@getValidTokens rejecting boundary_world)))
  = [@refresh_request rejecting "refresh-0"] /\
  @getValidTokens rejecting world = (Return tokens, emit GetTokens world).
Proof.
  split.
  - exact (proj1 (proj1 (@getValidTokens_refreshes_within_buffer rejecting
                           boundary_world boundary_tokens eq_refl)
                        ltac:(vm_compute; discriminate))).
  - exact (proj2 (@getValidTokens_refreshes_within_buffer rejecting
                    world tokens eq_refl) eq_refl).
Defined.

(** C3: after one retry of a 429, a 401 is thrown without a refresh; and
    after the retry of a 401, the third 429 is thrown although only two 429
    have been retried and the next answer would have been a success. *)
Lemma request_401_after_429_is_not_retried :
  let first := @request throttled_then_rejected "GET" "/invoice/1" None 0 world in
  let second := @request rejected_then_throttled "GET" "/invoice/1" None 0 world in
  fst first
  = Throw (VQuickBooksError
             (mkQuickBooksError "Unauthorized access to QuickBooks API"
                QB_ERROR_CODES.UNAUTHORIZED (Some 401)
                (error_object 401 fault))) /\
  refreshes (trace (snd first)) = [] /\
  timeouts (trace (snd first)) = [Some 1000] /\
  fst second
  = Throw (VQuickBooksError
             (mkQuickBooksError "QuickBooks API rate limit exceeded"
                QB_ERROR_CODES.RATE_LIMIT (Some 429)
                (error_object 429 fault))) /\
  timeouts (trace (snd second)) = [Some 2000; Some 4000] /\
  length (fetches (trace (snd second))) = 4%nat.
Proof. vm_compute. repeat split; reflexivity. Qed.

Lemma request_retry_counter_is_shared_witness :
  (exists w',
     @request throttled_then_rejected "GET" "/invoice/1" None 0 world
     = (Throw (VQuickBooksError
                 (mkQuickBooksError "Unauthorized access to QuickBooks API"
                    QB_ERROR_CODES.UNAUTHORIZED (Some 401)
                    (error_object 401 fault))), w') /\
     refreshes (trace w') = []) /\
  (exists w',
     @request rejected_then_throttled "GET" "/invoice/1" None 0 world
     = (Throw (VQuickBooksError
                 (mkQuickBooksError "QuickBooks API rate limit exceeded"
                    QB_ERROR_CODES.RATE_LIMIT (Some 429)
                    (error_object 429 fault))), w') /\
     timeouts (trace w') = [Some 2000; Some 4000]).
Proof.
  split.
  - destruct (proj1 (@request_retry_counter_is_shared throttled_then_rejected
                       "GET" "/invoice/1" None)
                1%nat world tokens
                (fun i => nth i [too_many None; unauthorized] found)
                (fun _ => None))
      as (w' & E & Tr & R & Code).
    + unfold MAX_RETRIES. lia.
    + reflexivity.
    + vm_compute. reflexivity.
    + vm_compute. lia.
    + intros i Hi. destruct i as [|i]; [|lia]. repeat split.
    + reflexivity.
    + reflexivity.
    + exists w'. rewrite (Code eq_refl) in E. split; [exact E|exact R].
  - destruct (proj2 (@request_retry_counter_is_shared rejected_then_throttled
                       "GET" "/invoice/1" None)
                world tokens grant
                (fun i => nth i [unauthorized; too_many None; too_many None;
                                 too_many None] found))
      as (w' & E & Tr & Code).
    + reflexivity.
    + vm_compute. reflexivity.
    + vm_compute. reflexivity.
    + vm_compute. lia.
    + reflexivity.
    + reflexivity.
    + reflexivity.
    + intros i Hi. destruct i as [|[|[|[|i]]]]; try lia; repeat split.
    + exists w'. rewrite (Code eq_refl) in E. split; [exact E|].
      rewrite Tr. reflexivity.
Defined.

(** C9, end to end: a 500 response with such a payload makes [request]
    itself throw the [TypeError]. *)
Lemma request_unconvertible_message :
  fst (@request garbling "GET" "/invoice/1" None 0 world) = Throw cannot_convert.
Proof. vm_compute. reflexivity. Qed.

(** C4: the API and the token endpoint both answer 401. *)
Lemma request_forced_refresh_401_keeps_tokens_witness :
  exists w',
    @request locked_out "GET" "/invoice/1" None 0 world
    = (Throw (VQuickBooksError
                (mkQuickBooksError "Failed to refresh tokens: 401"
                   QB_ERROR_CODES.REFRESH_FAILED (Some 401)
                   (VData (JObj [("error", JStr "invalid_grant")])))), w') /\
    clears (trace w') = 0%nat /\
    store w' = Some tokens.
Proof.
  destruct (@request_forced_refresh_401_keeps_tokens locked_out
              "GET" "/invoice/1" None world tokens unauthorized
              (Parsed (JObj [("error", JStr "invalid_grant")])))
    as (w' & E & Tr & C & S).
  - reflexivity.
  - vm_compute. reflexivity.
  - vm_compute. lia.
  - reflexivity.
  - reflexivity.
  - reflexivity.
  - exists w'. split; [exact E|]. split; [exact C|exact S].
Defined.





(** C7: five customers, two to a page. *)
Lemma queryAll_pagination_witness :
  exists w',
    @queryAll bookkeeping 3 "SELECT * FROM Customer" 2 world
    = (Return customers, w') /\
    queries (trace w')
    = [Some (Text "SELECT * FROM Customer STARTPOSITION 1 MAXRESULTS 2");
       Some (Text "SELECT * FROM Customer STARTPOSITION 3 MAXRESULTS 2");
       Some (Text "SELECT * FROM Customer STARTPOSITION 5 MAXRESULTS 2")].
Proof.
  destruct (@queryAll_pagination bookkeeping "SELECT * FROM Customer" 2 world
              page 2%nat) as [H _].
  - lia.
  - discriminate.
  - intros n req. exists grant. reflexivity.
  - intros i Hi req. destruct i as [|[|[|i]]]; try lia;
      do 2 eexists; repeat split; reflexivity.
  - intros i Hi. destruct i as [|[|i]]; try lia; reflexivity.
  - vm_compute. reflexivity.
  - destruct (H 3%nat ltac:(lia)) as (w' & E & Q).
    exists w'. split; [exact E|exact Q].
Defined.

(** C8: 500 calls in the last second. *)
Lemma checkRateLimit_window_witness :
  exists w',
    checkRateLimit busy_world = (Return tt, w') /\
    trace w' = [Timeout (Some 59101)] /\
    clock w' = 1059101 /\
    length (requestTimestamps w') = 501%nat /\
    last (requestTimestamps w') 0 = 1059101.
Proof.
  destruct (checkRateLimit_window busy_world eq_refl) as (w' & E & S & H).
  cbv zeta in H.
  assert (Hk : filter (fun ts => clock busy_world - ts <? 60000)
                      (requestTimestamps busy_world)
               = requestTimestamps busy_world) by (vm_compute; reflexivity).
  rewrite Hk in H.
  change (Nat.leb 500 (length (requestTimestamps busy_world))) with true in H.
  destruct H as (oldest & later & K & _ & Tr & C & R).
  assert (Ho : oldest = 999001) by (vm_compute in K; now injection K).
  subst oldest.
  exists w'. split; [exact E|]. split; [exact Tr|]. split; [exact C|].
  rewrite R. split; vm_compute; reflexivity.
Defined.

(** C10: page size 0 against a company without customers. *)
Lemma queryAll_nonpositive_pageSize_witness :
  (forall rows,
     fst (@queryAll empty_company 1000 "SELECT * FROM Customer" 0 world)
     <> Return rows) /\
  exists w',
    @queryAll empty_company 1000 "SELECT * FROM Customer" 0 world
    = (Pending, w') /\
    api_calls w' = 1000%nat.
Proof.
  destruct (@queryAll_nonpositive_pageSize empty_company
              "SELECT * FROM Customer" 0 ltac:(lia)) as [Hnever Hrun].
  split.
  - intros rows. apply Hnever.
  - apply (Hrun world (fun _ => []) ltac:(discriminate)
                 (fun n req => ex_intro _ grant eq_refl)).
    intros i req. do 2 eexists. repeat split; reflexivity.
Defined.

(** * The further properties at work *)

Import Cases.

(** X1: the object thrown for a 404. *)
Lemma handleQuickBooksError_classifies_witness :
  let thrown := error_object 404 fault in
  thrown = VQuickBooksError (default_error thrown) \/
  (qb_details (default_error thrown) = thrown /\
   In (qb_code (default_error thrown), qb_status (default_error thrown))
      [(QB_ERROR_CODES.NETWORK_ERROR, Some 0);
       (QB_ERROR_CODES.UNAUTHORIZED, Some 401);
       (QB_ERROR_CODES.UNAUTHORIZED, Some 403);
       (QB_ERROR_CODES.RATE_LIMIT, Some 429);
       (QB_ERROR_CODES.TOKEN_EXPIRED, Some 401);
       (QB_ERROR_CODES.API_ERROR, Some 500)]).
Proof.
  exact (handleQuickBooksError_classifies (error_object 404 fault)
           (default_error (error_object 404 fault)) eq_refl).
Defined.

(** X2: a 400 whose message mentions the token. *)
Lemma token_message_decides_after_status_witness :
  handleQuickBooksError (error_object 400 token_expired)
  = Normal (mkQuickBooksError "QuickBooks token expired"
              QB_ERROR_CODES.TOKEN_EXPIRED (Some 401)
              (error_object 400 token_expired)).
Proof.
  exact (token_message_decides_after_status 400 token_expired
           "AuthenticationFailed: token expired" eq_refl eq_refl eq_refl).
Defined.

(** X3 and X4: the URL for the example configuration and the state made of
    the bytes 0, 17, 34, ... *)
Lemma generateAuthUrl_example :
  generateState dice = "00112233445566778899aabbccddeeff" /\
  generateAuthUrl app_config (generateState dice)
  = "https://appcenter.intuit.com/connect/oauth2?client_id=client-id&redirect_uri=http%3A%2F%2Flocalhost%3A3000%2Fcallback&response_type=code&scope=com.intuit.quickbooks.accounting&state=00112233445566778899aabbccddeeff".
Proof. vm_compute. split; reflexivity. Qed.

(** X5: a grant of 3600 s is used as it is by the next call. *)
Lemma getValidTokens_again_witness :
  let w1 := snd (@getValidTokens rejecting boundary_world) in
  fst (@getValidTokens rejecting boundary_world)
  = Return (granted grant "4620816365" 1000000) /\
  @getValidTokens rejecting w1
  = (Return (granted grant "4620816365" 1000000), emit GetTokens w1).
Proof.
  destruct (@getValidTokens_again rejecting boundary_world boundary_tokens grant
              eq_refl ltac:(vm_compute; discriminate) eq_refl)
    as (A & B & _).
  split; [exact A|]. apply B. reflexivity.
Defined.

(** X6: 500 calls in the last second. *)
Lemma checkRateLimit_within_limit_witness :
  exists w',
    checkRateLimit busy_world = (Return tt, w') /\
    within_limit w' /\
    clock busy_world <= clock w' /\
    exists earlier, requestTimestamps w' = earlier ++ [clock w'].
Proof.
  apply checkRateLimit_within_limit. split.
  - vm_compute. reflexivity.
  - apply Nat.leb_le. vm_compute. reflexivity.
Defined.

(** X7: a request that is throttled four times. *)
Lemma client_keeps_within_limit_witness :
  within_limit (snd (@request throttling "GET" "/invoice/1" None 0 world)) /\
  within_limit (snd (@query throttling "SELECT * FROM Invoice" world)) /\
  within_limit (snd (@queryAll throttling 3 "SELECT * FROM Invoice" 2 world)).
Proof.
  apply client_keeps_within_limit. split.
  - reflexivity.
  - apply Nat.leb_le. reflexivity.
Defined.

(** X8: the 501st call in a second waits for 59101 ms. *)
Lemma request_waits_for_the_window_witness :
  exists w',
    @request serving "GET" "/invoice/1" None 0 busy_world
    = (Return (JObj [("Invoice", invoice)]), w') /\
    trace w' = [Timeout (Some 59101); GetTokens;
                Fetch (@api_request serving "GET" "/invoice/1" None tokens)] /\
    clock w' = 1059101.
Proof.
  destruct (@request_waits_for_the_window serving "GET" "/invoice/1" None
              busy_world tokens 999001
              (map (fun i => 999001 + Z.of_nat i) (seq 1 499))
              found (JObj [("Invoice", invoice)]))
    as (w' & E & Tr & C & _).
  - vm_compute. reflexivity.
  - vm_compute. reflexivity.
  - apply Nat.leb_le. vm_compute. reflexivity.
  - reflexivity.
  - vm_compute. reflexivity.
  - reflexivity.
  - reflexivity.
  - reflexivity.
  - exists w'. split; [exact E|]. split; [exact Tr|exact C].
Defined.

(** X9: tokens that are due, and a grant. *)
Lemma getValidTokens_returns_witness :
  let w' := snd (@getValidTokens rejecting boundary_world) in
  let t' := granted grant "4620816365" 1000000 in
  exists t,
    store boundary_world = Some t /\ store w' = Some t' /\
    realm_id t' = realm_id t /\
    ((t' = t /\ clock boundary_world / 1000 + 300 < expires_at t /\
      token_calls w' = token_calls boundary_world)
     \/
     (expires_at t <= clock boundary_world / 1000 + 300 /\
      token_calls w' = S (token_calls boundary_world) /\
      exists data,
        @token_endpoint rejecting (token_calls boundary_world)
          (@refresh_request rejecting (refresh_token t))
        = TokenResponded (TokenGranted data) /\
        t' = granted data (realm_id t) (clock boundary_world))).
Proof.
  exact (@getValidTokens_returns rejecting boundary_world
           (granted grant "4620816365" 1000000)
           (snd (@getValidTokens rejecting boundary_world)) eq_refl).
Defined.

(** X10: a refresh refused with status 400 leaves the tokens. *)
Lemma getValidTokens_refresh_rejected_witness :
  exists w',
    @getValidTokens stale boundary_world
    = (Throw (VQuickBooksError
                (mkQuickBooksError "Failed to refresh tokens: 400"
                   QB_ERROR_CODES.REFRESH_FAILED (Some 400)
                   (VData (JObj [("error", JStr "invalid_grant")])))), w') /\
    store w' = Some boundary_tokens /\
    trace w' = [GetTokens; Refresh (@refresh_request stale "refresh-0")].
Proof.
  exact (@getValidTokens_refresh_rejected stale boundary_world boundary_tokens
           400 (Parsed (JObj [("error", JStr "invalid_grant")]))
           eq_refl ltac:(vm_compute; discriminate) eq_refl).
Defined.

(** X11: a client that was never connected. *)
Lemma no_tokens_no_call_witness :
  (exists w1 earlier,
     checkRateLimit disconnected = (Return tt, w1) /\
     requestTimestamps w1 = earlier ++ [clock w1] /\
     @request serving "GET" "/invoice/1" None 0 disconnected
     = (Throw no_tokens, emit GetTokens w1) /\
     api_calls w1 = api_calls disconnected /\
     token_calls w1 = token_calls disconnected) /\
  @query serving "SELECT * FROM Invoice" disconnected
  = (Throw no_tokens, emit GetTokens disconnected).
Proof.
  exact (@no_tokens_no_call serving "GET" "/invoice/1" None 0
           "SELECT * FROM Invoice" disconnected eq_refl).
Defined.

(** X13: two 401 in a row. *)
Lemma request_throws_witness :
  let err := VQuickBooksError
               (mkQuickBooksError "Unauthorized access to QuickBooks API"
                  QB_ERROR_CODES.UNAUTHORIZED (Some 401)
                  (error_object 401 fault)) in
  is_QuickBooksError err \/ err = cannot_convert \/ @token_fault rejecting err.
Proof.
  apply (@request_throws rejecting "GET" "/invoice/1" None 0 world _
           (snd (@request rejecting "GET" "/invoice/1" None 0 world))).
  vm_compute. reflexivity.
Defined.

(** X14: 429 once, then the invoice. *)
Lemma request_returns_an_ok_payload_witness :
  let w' := snd (@request throttled_once "GET" "/invoice/1" None 0 world) in
  exists t r w0,
    store w' = Some t /\
    @api throttled_once (api_calls w0)
      (@api_request throttled_once "GET" "/invoice/1" None t) = Responded r /\
    ok r = true /\ payload r = Parsed (JObj [("Invoice", invoice)]) /\
    w' = emit (Fetch (@api_request throttled_once "GET" "/invoice/1" None t))
              (count_api w0).
Proof.
  apply (proj1 (@request_returns_an_ok_payload throttled_once
                  "GET" "/invoice/1" None 0 "SELECT * FROM Invoice" world
                  (snd (@request throttled_once "GET" "/invoice/1" None 0 world)))).
  vm_compute. reflexivity.
Defined.

(** X15: no network. *)
Lemma network_failure_witness :
  (exists w',
     @request offline "GET" "/invoice/1" None 0 world
     = (Throw (VQuickBooksError
                 (mkQuickBooksError "Network error connecting to QuickBooks API"
                    QB_ERROR_CODES.NETWORK_ERROR (Some 0)
                    (VTypeError "fetch failed"))), w') /\
     length (fetches (trace w')) = 1%nat) /\
  (exists w',
     @query offline "SELECT * FROM Invoice" world
     = (Throw (VTypeError "fetch failed"), w') /\
     length (fetches (trace w')) = 1%nat).
Proof.
  destruct (@network_failure offline "GET" "/invoice/1" None 0
              "SELECT * FROM Invoice" world tokens "fetch failed"
              eq_refl ltac:(vm_compute; reflexivity) ltac:(vm_compute; lia) eq_refl)
    as [Hr Hq].
  split.
  - destruct (Hr eq_refl) as (w' & E & _ & _ & _ & _ & Tr & _).
    exists w'. split; [exact E|]. rewrite Tr. reflexivity.
  - destruct (Hq eq_refl) as (w' & E & _ & _ & _ & _ & Tr & _).
    exists w'. split; [exact E|]. rewrite Tr. reflexivity.
Defined.

(** X16: no network when the tokens are due. *)
Lemma request_refresh_failure_is_raw_witness :
  exists w',
    @request offline "GET" "/invoice/1" None 0 boundary_world
    = (Throw (VTypeError "fetch failed"), w') /\
    api_calls w' = 0%nat /\
    store w' = Some boundary_tokens /\
    trace w' = [GetTokens; Refresh (@refresh_request offline "refresh-0")].
Proof.
  exact (@request_refresh_failure_is_raw offline "GET" "/invoice/1" None 0
           boundary_world boundary_tokens "fetch failed"
           eq_refl ltac:(vm_compute; discriminate) ltac:(vm_compute; lia) eq_refl).
Defined.

(** X17: a 404 is reported with status 500. *)
Lemma request_other_status_witness :
  exists w',
    @request missing "GET" "/invoice/1" None 0 world
    = (Throw (VQuickBooksError
                (mkQuickBooksError
                   "An unexpected error occurred with QuickBooks integration"
                   QB_ERROR_CODES.API_ERROR (Some 500)
                   (error_object 404 fault))), w') /\
    length (fetches (trace w')) = 1%nat.
Proof.
  destruct (@request_other_status missing "GET" "/invoice/1" None 0 world tokens
              not_found)
    as (w' & E & _ & _ & _ & _ & Tr & _).
  - reflexivity.
  - vm_compute. reflexivity.
  - vm_compute. lia.
  - reflexivity.
  - reflexivity.
  - discriminate.
  - discriminate.
  - reflexivity.
  - reflexivity.
  - exists w'. split; [exact E|]. rewrite Tr. reflexivity.
Defined.

(** X18: a 204 without a body. *)
Lemma unparseable_success_witness :
  (exists w',
     @request silent "POST" "/invoice" (Some invoice) 0 world
     = (Throw (VQuickBooksError
                 (mkQuickBooksError
                    "An unexpected error occurred with QuickBooks integration"
                    QB_ERROR_CODES.API_ERROR (Some 500)
                    (VError "SyntaxError" "Unexpected end of JSON input"))), w')) /\
  (exists w',
     @query silent "SELECT * FROM Invoice" world
     = (Throw (VError "SyntaxError" "Unexpected end of JSON input"), w')).
Proof.
  destruct (@unparseable_success silent "POST" "/invoice" (Some invoice) 0
              "SELECT * FROM Invoice" world tokens no_content
              "SyntaxError" "Unexpected end of JSON input"
              eq_refl ltac:(vm_compute; reflexivity) ltac:(vm_compute; lia)
              eq_refl eq_refl eq_refl)
    as [Hr Hq].
  split.
  - destruct (Hr eq_refl) as (w' & E & _). exists w'. exact E.
  - destruct (Hq eq_refl) as (w' & E & _). exists w'. exact E.
Defined.



(** X21: tokens that are due when the request is made. *)
Lemma request_refreshes_before_call_witness :
  exists w',
    @request serving "GET" "/invoice/1" None 0 boundary_world
    = (Return (JObj [("Invoice", invoice)]), w') /\
    store w' = Some (granted grant "4620816365" 1000000) /\
    fetches (trace w')
    = [@api_request serving "GET" "/invoice/1" None
         (granted grant "4620816365" 1000000)].
Proof.
  destruct (@request_refreshes_before_call serving "GET" "/invoice/1" None
              boundary_world boundary_tokens grant found
              (JObj [("Invoice", invoice)]))
    as (w' & E & _ & S & _ & _ & Tr & _).
  - reflexivity.
  - vm_compute. discriminate.
  - vm_compute. lia.
  - reflexivity.
  - reflexivity.
  - reflexivity.
  - reflexivity.
  - exists w'. split; [exact E|]. split; [exact S|]. rewrite Tr. reflexivity.
Defined.

(** X22: the customers between the metadata, and the answer to a count. *)
Lemma unwrap_first_entity_witness :
  unwrap (JObj [("QueryResponse",
                 JObj [("startPosition", JNum 1); ("Customer", JArr customers);
                       ("maxResults", JNum 5)])])
  = Normal (Some (JArr customers)) /\
  unwrap (JObj [("QueryResponse", JObj counted)]) = Normal (Some (JArr [])).
Proof.
  split.
  - refine (proj1 (unwrap_first_entity
                     [("QueryResponse",
                       JObj [("startPosition", JNum 1);
                             ("Customer", JArr customers);
                             ("maxResults", JNum 5)])]
                     [("startPosition", JNum 1)] "Customer" (JArr customers)
                     [("maxResults", JNum 5)] _ eq_refl _) eq_refl).
    + repeat constructor.
    + discriminate.
  - refine (proj2 (unwrap_first_entity [("QueryResponse", JObj counted)]
                     counted "Customer" JNull [] _ eq_refl _) eq_refl).
    + repeat constructor.
    + discriminate.
Defined.

(** X23: a 404 for the second page. *)
Lemma queryAll_aborts_on_refused_page_witness :
  exists w',
    @queryAll failing_page 5 "SELECT * FROM Customer" 2 world
    = (Throw (VQuickBooksError
                (default_error (error_object 404 fault))), w') /\
    api_calls w' = 2%nat.
Proof.
  destruct (@queryAll_aborts_on_refused_page failing_page
              "SELECT * FROM Customer" 2 world page 1%nat not_found)
    with (fuel := 5%nat) as (w' & E & A).
  - lia.
  - discriminate.
  - intros n req. exists grant. reflexivity.
  - intros i Hi req. destruct i as [|i]; [|lia].
    do 2 eexists. repeat split; reflexivity.
  - intros i Hi. destruct i as [|i]; [reflexivity|lia].
  - intros req. reflexivity.
  - reflexivity.
  - lia.
  - exists w'. split; [exact E|exact A].
Defined.

(** X24: invoice 1. *)
Lemma read_by_id_witness :
  exists w',
    @getInvoice serving "1" world = (Return (Some invoice), w') /\
    fetches (trace w')
    = [{| url := "https://sandbox-quickbooks.api.intuit.com/v3/company/4620816365/invoice/1";
          method := "GET";
          headers := [("Authorization", "Bearer access-0");
                      ("Accept", "application/json")];
          body := None |}].
Proof.
  destruct (@read_by_id serving Invoice "1" world tokens found
              (JObj [("Invoice", invoice)]))
    as (w' & E & _ & _ & _ & _ & Tr & _).
  - reflexivity.
  - vm_compute. reflexivity.
  - vm_compute. lia.
  - reflexivity.
  - reflexivity.
  - reflexivity.
  - exists w'. split; [exact E|]. rewrite Tr. reflexivity.
Defined.

(** X25: an invoice is created. *)
Lemma write_posts_json_witness :
  exists w',
    @createInvoice serving invoice world = (Return (Some invoice), w') /\
    map body (fetches (trace w')) = [Some (Stringified invoice)].
Proof.
  destruct (@write_posts_json serving Invoice (@createInvoice serving) invoice
              world tokens found (JObj [("Invoice", invoice)]))
    as (w' & E & _ & _ & _ & _ & Tr & _).
  - left. reflexivity.
  - reflexivity.
  - vm_compute. reflexivity.
  - vm_compute. lia.
  - reflexivity.
  - reflexivity.
  - reflexivity.
  - exists w'. split; [exact E|]. rewrite Tr. reflexivity.
Defined.

(** X26: invoice 1 is deleted. *)
Lemma deleteInvoice_posts_to_invoice_witness :
  exists w',
    @deleteInvoice serving "1" "0" world = (Return tt, w') /\
    map method (fetches (trace w')) = ["POST"] /\
    map url (fetches (trace w'))
    = ["https://sandbox-quickbooks.api.intuit.com/v3/company/4620816365/invoice"] /\
    snd (@updateInvoice serving
           (JObj [("Id", JStr "1"); ("SyncToken", JStr "0")]) world) = w'.
Proof.
  destruct (@deleteInvoice_posts_to_invoice serving "1" "0" world tokens found
              (JObj [("Invoice", invoice)]))
    as (w' & E & (_ & _ & _ & _ & Tr & _) & U).
  - reflexivity.
  - vm_compute. reflexivity.
  - vm_compute. lia.
  - reflexivity.
  - reflexivity.
  - reflexivity.
  - exists w'. split; [exact E|]. rewrite Tr.
    split; [reflexivity|]. split; [reflexivity|exact U].
Defined.

(** X27: the active accounts, and the customers named Ann. *)
Lemma list_all_queries_once_witness :
  (exists w',
     @getAccounts bookkeeping None world = (Return (Some (JArr (page 0))), w') /\
     queries (trace w')
     = [Some (Text "SELECT * FROM Account WHERE Active = true")]) /\
  (exists w',
     @getCustomers bookkeeping (Some "GivenName = 'Ann'") world
     = (Return (Some (JArr (page 0))), w') /\
     queries (trace w')
     = [Some (Text "SELECT * FROM Customer WHERE GivenName = 'Ann'")]).
Proof.
  assert (Hp : @serves_page bookkeeping (api_calls world) (page 0)).
  { intros req. do 2 eexists. repeat split; reflexivity. }
  split.
  - destruct (@list_all_queries_once bookkeeping Account None world (page 0)
                ltac:(discriminate) (fun n req => ex_intro _ grant eq_refl) Hp)
      as (w' & E & _ & Q).
    exists w'. split; [exact E|exact Q].
  - destruct (@list_all_queries_once bookkeeping Customer
                (Some "GivenName = 'Ann'") world (page 0)
                ltac:(discriminate) (fun n req => ex_intro _ grant eq_refl) Hp)
      as (w' & E & _ & Q).
    exists w'. split; [exact E|exact Q].
Defined.


(** X30: the token endpoint answers 401, and the store is cleared. *)
Lemma isConnected_after_rejected_refresh_witness :
  fst (isConnected boundary_world) = Return true /\
  fst (isConnected (snd (@getValidTokens locked_out boundary_world)))
  = Return false.
Proof.
  exact (@isConnected_after_rejected_refresh locked_out boundary_world
           boundary_tokens 401 (Parsed (JObj [("error", JStr "invalid_grant")]))
           eq_refl ltac:(vm_compute; discriminate) eq_refl).
Defined.
